(** * Hysteria: tunnel server ([pkg/core/server.go]) and SOCKS5 front-end
      ([pkg/socks5/server.go])

    A shallow embedding of the two request handlers and of the relay
    [pipePair], together with the properties of the control handshake, the
    ACL dispatch, the observer hooks and the relay.

    The handlers talk to the outside world (QUIC streams, TCP sockets, the
    callbacks installed by the caller).  Each such call is a constructor of a
    type [call]; a handler is a finite tree of calls ([Prog.prog]); running it
    against an arbitrary, possibly stateful, environment yields the list of
    calls made together with what the environment answered (the trace). *)

From Stdlib Require Import List Bool NArith ZArith Arith Lia.
From Stdlib.Strings Require Import String Ascii Byte.
From Stdlib Require Import DecimalString.
Import ListNotations.

Local Open Scope string_scope.

(** ** Go values shared by both packages *)

Module Go.

(** A Go [error] value is identified with its message; the [nil] error is
    [None] of [option error]. *)
Definition error := string.

Definition bytes := list byte.

(** [uint64]: the handshake only compares rates, it never does arithmetic
    on them, so no wrap-around is involved. *)
Definition uint64 := N.

(** [net.Addr], and the identities of the connections a handler holds. *)
Definition Addr := string.
Definition Stream := nat.
Definition Conn := nat.

(** [net.IP] is a byte slice; a [nil] slice is [None]. *)
Definition IP := option bytes.

(** The functions of Go's standard library [net] package that the handlers
    call.  They are pure; the development is parametric in them. *)
Class NetLib := {
  SplitHostPort : string -> (string * string) + error;
  JoinHostPort : string -> string -> string;
  ParseIP : string -> IP;
  IP_String : bytes -> string
}.

(** [strconv.Itoa]: the decimal form of a number. *)
Definition Itoa (n : Z) : string := NilZero.string_of_int (Z.to_int n).

Definition byte_val (b : byte) : Z := Z.of_N (Byte.to_N b).

(** [binary.BigEndian.Uint16]: [uint16(b[1]) | uint16(b[0])<<8]; indexing a
    slice shorter than two bytes panics ([None]). *)
Definition Uint16 (b : bytes) : option Z :=
  match b with
  | b0 :: b1 :: _ => Some (Z.lor (byte_val b1) (Z.shiftl (byte_val b0) 8))
  | _ => None
  end.

End Go.

(** ** [pkg/acl]: the action tags *)

Module Acl.

(** Modelled from the spec: the declaration of [acl.Action] (a byte-sized
    enumeration) lives in [pkg/acl], outside the two files embedded here.
    The four named actions are the ones the handlers switch on;
    [ActionUnknown n] stands for every other value of the type, which the
    [default:] branches receive. *)
Inductive Action :=
| ActionDirect
| ActionProxy
| ActionBlock
| ActionHijack
| ActionUnknown (n : N).

Definition known (a : Action) : bool :=
  match a with ActionUnknown _ => false | _ => true end.

(** Identity of a configured engine ([*acl.Engine]); [None] is [nil]. *)
Definition Engine := nat.

End Acl.

(** ** Programs over a signature of external calls *)

Module Prog.
Section Free.

Context {call : Type} {result : call -> Type}.

Inductive prog (A : Type) : Type :=
| Ret (a : A)
| Vis (c : call) (k : result c -> prog A).
Arguments Ret {A} a.
Arguments Vis {A} c k.

Fixpoint bind {A B} (p : prog A) (f : A -> prog B) : prog B :=
  match p with
  | Ret a => f a
  | Vis c k => Vis c (fun r => bind (k r) f)
  end.

Definition perform (c : call) : prog (result c) := Vis c (fun r => Ret r).

(** An environment answers every call, and may change state doing so. *)
Definition handler (S : Type) := forall c : call, S -> result c * S.

Context {event : Type} (log : forall c : call, result c -> event).

Fixpoint trace {A S} (h : handler S) (p : prog A) (s : S) : list event :=
  match p with
  | Ret _ => []
  | Vis c k =>
      log c (fst (h c s)) :: trace h (k (fst (h c s))) (snd (h c s))
  end.

Fixpoint value {A S} (h : handler S) (p : prog A) (s : S) : A :=
  match p with
  | Ret a => a
  | Vis c k => value h (k (fst (h c s))) (snd (h c s))
  end.

Fixpoint final {A S} (h : handler S) (p : prog A) (s : S) : S :=
  match p with
  | Ret _ => s
  | Vis c k => final h (k (fst (h c s))) (snd (h c s))
  end.

End Free.

(** Number of events of a trace that satisfy a test. *)
Definition count {event : Type} (p : event -> bool) (tr : list event) : nat :=
  List.length (filter p tr).

End Prog.

Arguments Prog.prog {call} result A.
Arguments Prog.Ret {call result A} a.
Arguments Prog.Vis {call result A} c k.
Arguments Prog.handler {call} result S.

Declare Scope prog_scope.
Delimit Scope prog_scope with prog.
Notation "x <- c ;; k" := (Prog.bind c (fun x => k))
  (at level 61, c at next level, right associativity) : prog_scope.
Notation "c ;;; k" := (Prog.bind c (fun _ => k))
  (at level 61, right associativity) : prog_scope.

(** ** [pkg/core/server.go]: the tunnel server *)

Module Core.
Import Go Acl Prog.

(** Modelled from the spec: the close codes [closeErrorCodeGeneric],
    [closeErrorCodeProtocol], [closeErrorCodeAuth] are constants declared in
    another file of the package; only their names matter here. *)
Inductive closeErrorCode :=
| closeErrorCodeGeneric
| closeErrorCodeProtocol
| closeErrorCodeAuth.

(** The context handed to [AcceptStream]: bounded by [protocolTimeout], or
    [context.Background()]. *)
Inductive context := ctxProtocolTimeout | ctxBackground.

(** Modelled from the spec: the wire records (client hello: token and two
    rates; server hello: flag, two rates, message; request: UDP flag and
    address; response: flag and message) are declared in another file of the
    package; the fields are the ones [server.go] reads and writes. *)
Record transmissionRate := { SendBPS : uint64; RecvBPS : uint64 }.
Record clientHello := { ch_Rate : transmissionRate; ch_Auth : bytes }.
Record serverHello :=
  { sh_OK : bool; sh_Rate : transmissionRate; sh_Message : string }.
Record clientRequest := { req_UDP : bool; req_Address : string }.
Record serverResponse := { resp_OK : bool; resp_Message : string }.

Definition CongestionFactory := nat.

Record Session := { ses_id : nat; RemoteAddr : Addr }.

(** The fields of [Server] the handlers read.  The three callbacks
    [authFunc], [tcpRequestFunc], [tcpErrorFunc] and the listener are
    external: invoking them is a [call]. *)
Record Server := {
  sendBPS : uint64;
  recvBPS : uint64;
  congestionFactory : option CongestionFactory;
  aclEngine : option Engine
}.

Definition dialTimeout : Z := 10%Z.

Inductive call :=
| AcceptStream (cs : Session) (ctx : context)
| CloseWithError (cs : Session) (code : closeErrorCode) (msg : string)
| SetCongestionControl (cs : Session) (f : CongestionFactory) (bps : uint64)
| UnpackClientHello (st : Stream)
| PackServerHello (st : Stream) (sh : serverHello)
| UnpackClientRequest (st : Stream)
| PackServerResponse (st : Stream) (rs : serverResponse)
| StreamClose (st : Stream)
| AuthFunc (addr : Addr) (auth : bytes) (sSend sRecv : uint64)
| TcpRequestFunc (addr : Addr) (auth : bytes) (reqAddr : string)
    (action : Action) (arg : string)
| TcpErrorFunc (addr : Addr) (auth : bytes) (reqAddr : string)
    (err : option error)
| AclLookup (e : Engine) (host : string) (ip : IP)
| DialTimeout (network addr : string) (timeout : Z)
| ConnClose (c : Conn)
| Pipe2Way (st : Stream) (c : Conn)
| GoHandleStream (addr : Addr) (auth : bytes) (st : Stream).

Definition result (c : call) : Type :=
  match c with
  | AcceptStream _ _ => (Stream + error)%type
  | UnpackClientHello _ => (clientHello + error)%type
  | PackServerHello _ _ => option error
  | UnpackClientRequest _ => (clientRequest + error)%type
  | PackServerResponse _ _ => option error
  | AuthFunc _ _ _ _ => (bool * string)%type
  | AclLookup _ _ _ => (Action * string)%type
  | DialTimeout _ _ _ => (Conn + error)%type
  | Pipe2Way _ _ => option error
  | _ => unit
  end.

(** What a trace records: the call and the environment's answer. *)
Inductive event :=
| EvAcceptStream (cs : Session) (ctx : context) (r : Stream + error)
| EvCloseWithError (cs : Session) (code : closeErrorCode) (msg : string)
| EvSetCongestionControl (cs : Session) (f : CongestionFactory)
    (bps : uint64)
| EvUnpackClientHello (st : Stream) (r : clientHello + error)
| EvPackServerHello (st : Stream) (sh : serverHello) (r : option error)
| EvUnpackClientRequest (st : Stream) (r : clientRequest + error)
| EvPackServerResponse (st : Stream) (rs : serverResponse)
    (r : option error)
| EvStreamClose (st : Stream)
| EvAuthFunc (addr : Addr) (auth : bytes) (sSend sRecv : uint64)
    (r : bool * string)
| EvTcpRequestFunc (addr : Addr) (auth : bytes) (reqAddr : string)
    (action : Action) (arg : string)
| EvTcpErrorFunc (addr : Addr) (auth : bytes) (reqAddr : string)
    (err : option error)
| EvAclLookup (e : Engine) (host : string) (ip : IP) (r : Action * string)
| EvDialTimeout (network addr : string) (timeout : Z) (r : Conn + error)
| EvConnClose (c : Conn)
| EvPipe2Way (st : Stream) (c : Conn) (r : option error)
| EvGoHandleStream (addr : Addr) (auth : bytes) (st : Stream).

Definition log (c : call) : result c -> event :=
  match c with
  | AcceptStream cs ctx => EvAcceptStream cs ctx
  | CloseWithError cs code msg => fun _ => EvCloseWithError cs code msg
  | SetCongestionControl cs f bps => fun _ => EvSetCongestionControl cs f bps
  | UnpackClientHello st => EvUnpackClientHello st
  | PackServerHello st sh => EvPackServerHello st sh
  | UnpackClientRequest st => EvUnpackClientRequest st
  | PackServerResponse st rs => EvPackServerResponse st rs
  | StreamClose st => fun _ => EvStreamClose st
  | AuthFunc a au ss sr => EvAuthFunc a au ss sr
  | TcpRequestFunc a au ra ac ar => fun _ => EvTcpRequestFunc a au ra ac ar
  | TcpErrorFunc a au ra e => fun _ => EvTcpErrorFunc a au ra e
  | AclLookup e host ip => EvAclLookup e host ip
  | DialTimeout n a t => EvDialTimeout n a t
  | ConnClose c => fun _ => EvConnClose c
  | Pipe2Way st c => EvPipe2Way st c
  | GoHandleStream a au st => fun _ => EvGoHandleStream a au st
  end.

Definition M := prog result.
Definition env (S : Type) := handler result S.
Definition run_trace {A S} (h : env S) (p : M A) (s : S) : list event :=
  trace log h p s.
Definition run_value {A S} (h : env S) (p : M A) (s : S) : A :=
  value h p s.

Definition do (c : call) : M (result c) := perform c.

Local Open Scope prog_scope.

(** [handleControlStream]: authentication and rate negotiation.  The
    result is Go's triple [([]byte, bool, error)]. *)
Definition handleControlStream (s : Server) (cs : Session) (stream : Stream)
  : M (option bytes * bool * option error) :=
  r <- do (UnpackClientHello stream) ;;
  match r with
  | inr err => Ret (None, false, Some err)
  | inl ch =>
      if (SendBPS (ch_Rate ch) =? 0)%N || (RecvBPS (ch_Rate ch) =? 0)%N
      then Ret (None, false, Some "invalid rate from client")
      else
        let serverSendBPS := RecvBPS (ch_Rate ch) in
        let serverRecvBPS := SendBPS (ch_Rate ch) in
        let serverSendBPS :=
          if (0 <? sendBPS s)%N && (sendBPS s <? serverSendBPS)%N
          then sendBPS s else serverSendBPS in
        let serverRecvBPS :=
          if (0 <? recvBPS s)%N && (recvBPS s <? serverRecvBPS)%N
          then recvBPS s else serverRecvBPS in
        a <- do (AuthFunc (RemoteAddr cs) (ch_Auth ch)
                   serverSendBPS serverRecvBPS) ;;
        let ok := fst a in
        let msg := snd a in
        w <- do (PackServerHello stream
                   {| sh_OK := ok;
                      sh_Rate := {| SendBPS := serverSendBPS;
                                    RecvBPS := serverRecvBPS |};
                      sh_Message := msg |}) ;;
        match w with
        | Some err => Ret (None, false, Some err)
        | None =>
            match ok, congestionFactory s with
            | true, Some f =>
                do (SetCongestionControl cs f serverSendBPS) ;;;
                Ret (Some (ch_Auth ch), ok, None)
            | _, _ => Ret (Some (ch_Auth ch), ok, None)
            end
        end
  end.

(** The serving loop of [handleClient]: accept streams until the accept
    fails, starting one [handleStream] goroutine per stream.  [fuel] bounds
    the number of accepted streams; [false] is returned when it runs out
    before the accept fails. *)
Fixpoint serveLoop (fuel : nat) (cs : Session) (auth : bytes) : M bool :=
  match fuel with
  | O => Ret false
  | S fuel' =>
      r <- do (AcceptStream cs ctxBackground) ;;
      match r with
      | inr _ => Ret true
      | inl stream =>
          do (GoHandleStream (RemoteAddr cs) auth stream) ;;;
          serveLoop fuel' cs auth
      end
  end.

Definition authBytes (a : option bytes) : bytes :=
  match a with Some b => b | None => [] end.

(** [handleClient]; the result tells whether the function returned within
    the fuel of its serving loop. *)
Definition handleClient (fuel : nat) (s : Server) (cs : Session) : M bool :=
  r <- do (AcceptStream cs ctxProtocolTimeout) ;;
  match r with
  | inr _ =>
      do (CloseWithError cs closeErrorCodeProtocol "protocol error") ;;;
      Ret true
  | inl stream =>
      c <- handleControlStream s cs stream ;;
      match c with
      | (_, _, Some _) =>
          do (CloseWithError cs closeErrorCodeProtocol "protocol error") ;;;
          Ret true
      | (_, false, None) =>
          do (CloseWithError cs closeErrorCodeAuth "auth error") ;;;
          Ret true
      | (auth, true, None) =>
          b <- serveLoop fuel cs (authBytes auth) ;;
          if b
          then do (CloseWithError cs closeErrorCodeGeneric "") ;;; Ret true
          else Ret false
      end
  end.

Section Streams.
Context {net : NetLib}.

(** The tail of [handleTCP] once an outbound connection [conn] exists
    ("So far so good if we reach here"): [defer conn.Close()], the
    [OK: true] response, the relay, the error hook.  The deferred close runs
    on both ways out. *)
Definition handleTCP_established (remoteAddr : Addr) (auth : bytes)
    (stream : Stream) (reqAddr : string) (conn : Conn) : M unit :=
  w <- do (PackServerResponse stream
             {| resp_OK := true; resp_Message := "" |}) ;;
  match w with
  | Some _ => do (ConnClose conn)
  | None =>
      e <- do (Pipe2Way stream conn) ;;
      do (TcpErrorFunc remoteAddr auth reqAddr e) ;;;
      do (ConnClose conn)
  end.

(** The two dialing branches of the [switch] share their shape: dial
    [target]; on failure answer [OK: false] with the error text and report
    the error. *)
Definition handleTCP_dial (remoteAddr : Addr) (auth : bytes)
    (stream : Stream) (reqAddr target : string) : M unit :=
  d <- do (DialTimeout "tcp" target dialTimeout) ;;
  match d with
  | inr err =>
      do (PackServerResponse stream
            {| resp_OK := false; resp_Message := err |}) ;;;
      do (TcpErrorFunc remoteAddr auth reqAddr (Some err))
  | inl conn => handleTCP_established remoteAddr auth stream reqAddr conn
  end.

Definition handleTCP (s : Server) (remoteAddr : Addr) (auth : bytes)
    (stream : Stream) (reqAddr : string) : M unit :=
  match SplitHostPort reqAddr with
  | inr err =>
      do (PackServerResponse stream
            {| resp_OK := false; resp_Message := "invalid address" |}) ;;;
      do (TcpErrorFunc remoteAddr auth reqAddr (Some err))
  | inl (host, port) =>
      let ip := ParseIP host in
      let host := match ip with Some _ => "" | None => host end in
      d <- match aclEngine s with
           | Some e => do (AclLookup e host ip)
           | None => Ret (ActionDirect, "")
           end ;;
      let action := fst d in
      let arg := snd d in
      do (TcpRequestFunc remoteAddr auth reqAddr action arg) ;;;
      match action with
      | ActionDirect | ActionProxy =>
          handleTCP_dial remoteAddr auth stream reqAddr reqAddr
      | ActionBlock =>
          do (PackServerResponse stream
                {| resp_OK := false; resp_Message := "blocked by ACL" |}) ;;;
          Ret tt
      | ActionHijack =>
          let hijackAddr := JoinHostPort arg port in
          handleTCP_dial remoteAddr auth stream reqAddr hijackAddr
      | ActionUnknown _ =>
          do (PackServerResponse stream
                {| resp_OK := false; resp_Message := "ACL error" |}) ;;;
          Ret tt
      end
  end.

(** [handleStream]: [defer stream.Close()], read one request, serve it if
    it is a TCP request (UDP requests are read and dropped). *)
Definition handleStream (s : Server) (remoteAddr : Addr) (auth : bytes)
    (stream : Stream) : M unit :=
  r <- do (UnpackClientRequest stream) ;;
  match r with
  | inr _ => do (StreamClose stream)
  | inl req =>
      if req_UDP req
      then do (StreamClose stream)
      else
        handleTCP s remoteAddr auth stream (req_Address req) ;;;
        do (StreamClose stream)
  end.

End Streams.

(** Tests on events, for counting. *)
Definition is_auth (e : event) : bool :=
  match e with EvAuthFunc _ _ _ _ _ => true | _ => false end.
Definition is_hello (e : event) : bool :=
  match e with EvPackServerHello _ _ _ => true | _ => false end.
Definition is_request_hook (e : event) : bool :=
  match e with EvTcpRequestFunc _ _ _ _ _ => true | _ => false end.
Definition is_error_hook (e : event) : bool :=
  match e with EvTcpErrorFunc _ _ _ _ => true | _ => false end.
Definition is_lookup (e : event) : bool :=
  match e with EvAclLookup _ _ _ _ => true | _ => false end.
Definition is_dial (e : event) : bool :=
  match e with EvDialTimeout _ _ _ _ => true | _ => false end.
Definition is_response (e : event) : bool :=
  match e with EvPackServerResponse _ _ _ => true | _ => false end.
Definition is_pipe (e : event) : bool :=
  match e with EvPipe2Way _ _ _ => true | _ => false end.
(** "Each hook is invoked exactly once". *)
Definition both_hooks_once (tr : list event) : Prop :=
  count is_request_hook tr = 1%nat /\ count is_error_hook tr = 1%nat.

End Core.

(** ** [pkg/socks5/server.go]: the SOCKS5 front-end *)

Module Socks5.
Import Go Acl Prog.

(** Constants of the SOCKS5 library the front-end is built on; the values
    are the ones RFC 1928 and RFC 1929 assign. *)
Definition MethodNone : byte := x00.
Definition MethodUsernamePassword : byte := x02.
Definition MethodUnsupportAll : byte := xff.
Definition UserPassStatusSuccess : byte := x00.
Definition UserPassStatusFailure : byte := x01.
Definition CmdConnect : byte := x01.
Definition CmdUDP : byte := x03.
Definition ATYPIPv4 : byte := x01.
Definition ATYPDomain : byte := x03.
Definition RepSuccess : byte := x00.
Definition RepServerFailure : byte := x01.
Definition RepHostUnreachable : byte := x04.
Definition RepCommandNotSupported : byte := x07.

Definition ErrUnsupportedCmd : error := "unsupported command".
Definition ErrUserPassAuth : error := "invalid username or password".

(** [socks5.Request], the fields the front-end reads. *)
Record Request := {
  Cmd : byte;
  Atyp : byte;
  DstAddr : bytes;
  DstPort : bytes
}.

Record TCPConn := { conn_id : nat; RemoteAddr : Addr }.

(** [Server]: the configuration fields the handlers read.  [AuthFunc_set]
    tells whether the [AuthFunc] callback is non-nil; the callbacks
    themselves and [HyClient] are external. *)
Record Server := {
  AuthFunc_set : bool;
  Method : byte;
  TCPTimeout : Z;
  ACLEngine : option Engine
}.

(** A Go function either returns or panics. *)
Inductive outcome (A : Type) :=
| Returned (a : A)
| Panic (why : string).
Arguments Returned {A} a.
Arguments Panic {A} why.

Inductive call :=
| NewNegotiationRequestFrom (c : TCPConn)
| NegotiationReply_WriteTo (c : TCPConn) (method : byte)
| NewUserPassNegotiationRequestFrom (c : TCPConn)
| AuthFunc (username password : string)
| UserPassNegotiationReply_WriteTo (c : TCPConn) (status : byte)
| TCPRequestFunc (addr : Addr) (reqAddr : string) (action : Action)
    (arg : string)
| TCPErrorFunc (addr : Addr) (reqAddr : string) (err : option error)
| AclLookup (e : Engine) (domain : string) (ip : IP)
| NetDial (network addr : string)
| HyClientDialTCP (addr : string)
| RcClose (rc : Conn)
| Reply_WriteTo (c : TCPConn) (rep atyp : byte) (bndAddr bndPort : bytes)
| PipePair (c : TCPConn) (rc : Conn) (timeout : Z).

Definition result (c : call) : Type :=
  match c with
  | NewNegotiationRequestFrom _ => (bytes + error)%type
  | NegotiationReply_WriteTo _ _ => option error
  | NewUserPassNegotiationRequestFrom _ => ((bytes * bytes) + error)%type
  | AuthFunc _ _ => bool
  | UserPassNegotiationReply_WriteTo _ _ => option error
  | AclLookup _ _ _ => (Action * string)%type
  | NetDial _ _ => (Conn + error)%type
  | HyClientDialTCP _ => (Conn + error)%type
  | Reply_WriteTo _ _ _ _ _ => option error
  | PipePair _ _ _ => option error
  | _ => unit
  end.

Inductive event :=
| EvNewNegotiationRequestFrom (c : TCPConn) (r : bytes + error)
| EvNegotiationReply (c : TCPConn) (method : byte) (r : option error)
| EvNewUserPassNegotiationRequestFrom (c : TCPConn)
    (r : (bytes * bytes) + error)
| EvAuthFunc (username password : string) (r : bool)
| EvUserPassNegotiationReply (c : TCPConn) (status : byte)
    (r : option error)
| EvTCPRequestFunc (addr : Addr) (reqAddr : string) (action : Action)
    (arg : string)
| EvTCPErrorFunc (addr : Addr) (reqAddr : string) (err : option error)
| EvAclLookup (e : Engine) (domain : string) (ip : IP) (r : Action * string)
| EvNetDial (network addr : string) (r : Conn + error)
| EvHyClientDialTCP (addr : string) (r : Conn + error)
| EvRcClose (rc : Conn)
| EvReply (c : TCPConn) (rep atyp : byte) (bndAddr bndPort : bytes)
    (r : option error)
| EvPipePair (c : TCPConn) (rc : Conn) (timeout : Z) (r : option error).

Definition log (c : call) : result c -> event :=
  match c with
  | NewNegotiationRequestFrom c => EvNewNegotiationRequestFrom c
  | NegotiationReply_WriteTo c m => EvNegotiationReply c m
  | NewUserPassNegotiationRequestFrom c =>
      EvNewUserPassNegotiationRequestFrom c
  | AuthFunc u p => EvAuthFunc u p
  | UserPassNegotiationReply_WriteTo c st => EvUserPassNegotiationReply c st
  | TCPRequestFunc a ra ac ar => fun _ => EvTCPRequestFunc a ra ac ar
  | TCPErrorFunc a ra e => fun _ => EvTCPErrorFunc a ra e
  | AclLookup e d ip => EvAclLookup e d ip
  | NetDial n a => EvNetDial n a
  | HyClientDialTCP a => EvHyClientDialTCP a
  | RcClose rc => fun _ => EvRcClose rc
  | Reply_WriteTo c rep at_ ba bp => EvReply c rep at_ ba bp
  | PipePair c rc t => EvPipePair c rc t
  end.

Definition M := prog result.
Definition env (S : Type) := handler result S.
Definition run_trace {A S} (h : env S) (p : M A) (s : S) : list event :=
  trace log h p s.
Definition run_value {A S} (h : env S) (p : M A) (s : S) : A :=
  value h p s.

Definition do (c : call) : M (result c) := perform c.

Local Open Scope prog_scope.

(** The loop of [negotiate] over the offered methods: [got] becomes true
    when some offered method is the configured one. *)
Fixpoint offered (method : byte) (methods : bytes) (got : bool) : bool :=
  match methods with
  | [] => got
  | m :: rest => offered method rest (if Byte.eqb m method then true else got)
  end.

Definition negotiate (s : Server) (c : TCPConn) : M (outcome (option error)) :=
  rq <- do (NewNegotiationRequestFrom c) ;;
  match rq with
  | inr err => Ret (Returned (Some err))
  | inl methods =>
      let got := offered (Method s) methods false in
      w <- (if got then Ret None
            else do (NegotiationReply_WriteTo c MethodUnsupportAll)) ;;
      match w with
      | Some err => Ret (Returned (Some err))
      | None =>
          w <- do (NegotiationReply_WriteTo c (Method s)) ;;
          match w with
          | Some err => Ret (Returned (Some err))
          | None =>
              if Byte.eqb (Method s) MethodUsernamePassword
              then
                urq <- do (NewUserPassNegotiationRequestFrom c) ;;
                match urq with
                | inr err => Ret (Returned (Some err))
                | inl (uname, passwd) =>
                    if AuthFunc_set s
                    then
                      ok <- do (AuthFunc (string_of_list_byte uname)
                                  (string_of_list_byte passwd)) ;;
                      if ok
                      then
                        w <- do (UserPassNegotiationReply_WriteTo c
                                   UserPassStatusSuccess) ;;
                        match w with
                        | Some err => Ret (Returned (Some err))
                        | None => Ret (Returned None)
                        end
                      else
                        w <- do (UserPassNegotiationReply_WriteTo c
                                   UserPassStatusFailure) ;;
                        match w with
                        | Some err => Ret (Returned (Some err))
                        | None => Ret (Returned (Some ErrUserPassAuth))
                        end
                    else Ret (Panic "nil AuthFunc")
                end
              else Ret (Returned None)
          end
      end
  end.

Definition sendReply (conn : TCPConn) (rep : byte) : M (option error) :=
  do (Reply_WriteTo conn rep ATYPIPv4 [x00; x00; x00; x00] [x00; x00]).

Section Requests.
Context {net : NetLib}.

(** [parseRequestAddress]: (domain, ip, port, addr).  Reading the port of
    a [DstPort] shorter than two bytes, or slicing an empty [DstAddr] of a
    domain request, panics. *)
Definition parseRequestAddress (r : Request)
  : outcome (string * IP * string * string) :=
  match Uint16 (DstPort r) with
  | None => Panic "index out of range"
  | Some v =>
      let p := Itoa v in
      if Byte.eqb (Atyp r) ATYPDomain
      then
        match DstAddr r with
        | [] => Panic "slice bounds out of range"
        | _ :: rest =>
            let d := string_of_list_byte rest in
            Returned (d, None, p, JoinHostPort d p)
        end
      else
        Returned ("", Some (DstAddr r), p,
                  JoinHostPort (IP_String (DstAddr r)) p)
  end.

(** The requests the library's request reader produces: a two-byte port
    and, for a domain request, the length byte in front of the name. *)
Definition well_formed (r : Request) : bool :=
  (2 <=? List.length (DstPort r))%nat
  && (negb (Byte.eqb (Atyp r) ATYPDomain)
      || (1 <=? List.length (DstAddr r))%nat).

(** The three dialing branches of [handleTCP] share their shape.  [dial]
    is the dialing call of the branch.  The deferred calls run in reverse
    order of registration: [rc.Close()], then the error hook with the final
    [closeErr]. *)
Definition handleTCP_dial (s : Server) (c : TCPConn) (addr : string)
    (dial : M (Conn + error)) : M (outcome (option error)) :=
  d <- dial ;;
  match d with
  | inr err =>
      sendReply c RepHostUnreachable ;;;
      do (TCPErrorFunc (RemoteAddr c) addr (Some err)) ;;;
      Ret (Returned (Some err))
  | inl rc =>
      sendReply c RepSuccess ;;;
      closeErr <- do (PipePair c rc (TCPTimeout s)) ;;
      do (RcClose rc) ;;;
      do (TCPErrorFunc (RemoteAddr c) addr closeErr) ;;;
      Ret (Returned None)
  end.

Definition handleTCP (s : Server) (c : TCPConn) (r : Request)
  : M (outcome (option error)) :=
  match parseRequestAddress r with
  | Panic why => Ret (Panic why)
  | Returned (domain, ip, port, addr) =>
      d <- match ACLEngine s with
           | Some e => do (AclLookup e domain ip)
           | None => Ret (ActionProxy, "")
           end ;;
      let action := fst d in
      let arg := snd d in
      do (TCPRequestFunc (RemoteAddr c) addr action arg) ;;;
      match action with
      | ActionDirect =>
          handleTCP_dial s c addr (do (NetDial "tcp" addr))
      | ActionProxy =>
          handleTCP_dial s c addr (do (HyClientDialTCP addr))
      | ActionBlock =>
          sendReply c RepHostUnreachable ;;;
          do (TCPErrorFunc (RemoteAddr c) addr (Some "blocked in ACL")) ;;;
          Ret (Returned None)
      | ActionHijack =>
          handleTCP_dial s c addr (do (NetDial "tcp" (JoinHostPort arg port)))
      | ActionUnknown n =>
          sendReply c RepServerFailure ;;;
          do (TCPErrorFunc (RemoteAddr c) addr
                (Some ("unknown action " ++ Itoa (Z.of_N n)))) ;;;
          Ret (Returned None)
      end
  end.

Definition handle (s : Server) (c : TCPConn) (r : Request)
  : M (outcome (option error)) :=
  if Byte.eqb (Cmd r) CmdConnect
  then handleTCP s c r
  else
    sendReply c RepCommandNotSupported ;;;
    Ret (Returned (Some ErrUnsupportedCmd)).

End Requests.

Definition is_request_hook (e : event) : bool :=
  match e with EvTCPRequestFunc _ _ _ _ => true | _ => false end.
Definition is_error_hook (e : event) : bool :=
  match e with EvTCPErrorFunc _ _ _ => true | _ => false end.
Definition is_lookup (e : event) : bool :=
  match e with EvAclLookup _ _ _ _ => true | _ => false end.
Definition is_dial (e : event) : bool :=
  match e with
  | EvNetDial _ _ _ | EvHyClientDialTCP _ _ => true
  | _ => false
  end.
Definition is_reply (e : event) : bool :=
  match e with EvReply _ _ _ _ _ _ => true | _ => false end.
Definition is_pipe (e : event) : bool :=
  match e with EvPipePair _ _ _ _ => true | _ => false end.
Definition is_negotiation_reply (e : event) : bool :=
  match e with EvNegotiationReply _ _ _ => true | _ => false end.

(** "Each hook is invoked exactly once". *)
Definition both_hooks_once (tr : list event) : Prop :=
  count is_request_hook tr = 1%nat /\ count is_error_hook tr = 1%nat.

End Socks5.

(** ** [pipePair]: the relay of the SOCKS5 front-end *)

Module Relay.
Import Go.

(** The two copy goroutines. *)
Inductive dir := TcpToStream | StreamToTcp.

(** Where a copy goroutine stands in its loop body. *)
Inductive pc :=
| AtTop                                       (* start of an iteration *)
| AtRead                                      (* about to call Read *)
| AtWrite (data : bytes) (rerr : option error) (* rn > 0: about to Write *)
| AtWritten (rerr : option error)             (* the Write returned nil *)
| AtSend (e : error)                          (* about to send on errChan *)
| Done.                                       (* returned *)

(** A goroutine, and what its endpoints will answer: the results
    [(buf[:rn], err)] of its successive reads and the errors of its
    successive writes.  A call for which no answer is left does not
    return. *)
Record goroutine := {
  g_pc : pc;
  g_reads : list (bytes * option error);
  g_writes : list (option error)
}.

Inductive event :=
| EvSetDeadline (d : dir)
| EvRead (d : dir) (data : bytes) (err : option error)
| EvWrite (d : dir) (data : bytes) (err : option error)
| EvSend (d : dir) (e : error)
| EvReturn (e : error).

(** [conn.SetDeadline] is called before each read of the TCP connection,
    and after each write to it, when a timeout is configured. *)
Definition deadline_before_read (timeout : Z) (d : dir) : bool :=
  match d with TcpToStream => negb (timeout =? 0)%Z | StreamToTcp => false end.
Definition deadline_after_write (timeout : Z) (d : dir) : bool :=
  match d with StreamToTcp => negb (timeout =? 0)%Z | TcpToStream => false end.

(** The second test of the loop body: [if err != nil]. *)
Definition check (rerr : option error) : pc :=
  match rerr with Some e => AtSend e | None => AtTop end.

Definition at_pc (g : goroutine) (p : pc) : goroutine :=
  {| g_pc := p; g_reads := g_reads g; g_writes := g_writes g |}.

(** One step of a copy goroutine: the new state and the events. *)
Definition gstep (timeout : Z) (d : dir) (g : goroutine)
  : goroutine * list event :=
  match g_pc g with
  | AtTop =>
      (at_pc g AtRead,
       if deadline_before_read timeout d then [EvSetDeadline d] else [])
  | AtRead =>
      match g_reads g with
      | [] => (g, [])
      | (data, rerr) :: rest =>
          ({| g_pc := match data with
                      | [] => check rerr
                      | _ :: _ => AtWrite data rerr
                      end;
              g_reads := rest;
              g_writes := g_writes g |},
           [EvRead d data rerr])
      end
  | AtWrite data rerr =>
      match g_writes g with
      | [] => (g, [])
      | w :: rest =>
          ({| g_pc := match w with
                      | Some e => AtSend e
                      | None => AtWritten rerr
                      end;
              g_reads := g_reads g;
              g_writes := rest |},
           [EvWrite d data w])
      end
  | AtWritten rerr =>
      (at_pc g (check rerr),
       if deadline_after_write timeout d then [EvSetDeadline d] else [])
  | AtSend e => (at_pc g Done, [EvSend d e])
  | Done => (g, [])
  end.

(** The errors a step puts on [errChan]. *)
Definition sent (evs : list event) : list error :=
  flat_map (fun ev => match ev with EvSend _ e => [e] | _ => [] end) evs.

(** The whole relay: both goroutines, the channel (of capacity two, so
    that neither send blocks), and the caller waiting on it. *)
Record state := {
  tcp_to_stream : goroutine;
  stream_to_tcp : goroutine;
  errChan : list error;
  returned : option error;
  events : list event
}.

Inductive thread := Main | Copy (d : dir).

Definition goroutine_of (d : dir) (st : state) : goroutine :=
  match d with
  | TcpToStream => tcp_to_stream st
  | StreamToTcp => stream_to_tcp st
  end.

Definition step (timeout : Z) (t : thread) (st : state) : state :=
  match t with
  | Main =>
      match returned st, errChan st with
      | None, e :: rest =>
          {| tcp_to_stream := tcp_to_stream st;
             stream_to_tcp := stream_to_tcp st;
             errChan := rest;
             returned := Some e;
             events := (events st ++ [EvReturn e])%list |}
      | _, _ => st
      end
  | Copy d =>
      let gs := gstep timeout d (goroutine_of d st) in
      {| tcp_to_stream :=
           match d with TcpToStream => fst gs | _ => tcp_to_stream st end;
         stream_to_tcp :=
           match d with StreamToTcp => fst gs | _ => stream_to_tcp st end;
         errChan := (errChan st ++ sent (snd gs))%list;
         returned := returned st;
         events := (events st ++ snd gs)%list |}
  end.

Definition run (timeout : Z) (sched : list thread) (st : state) : state :=
  fold_left (fun st t => step timeout t st) sched st.

(** The answers of the two endpoints. *)
Record endpoints := {
  conn_reads : list (bytes * option error);
  conn_writes : list (option error);
  stream_reads : list (bytes * option error);
  stream_writes : list (option error)
}.

Definition start (w : endpoints) : state :=
  {| tcp_to_stream :=
       {| g_pc := AtTop; g_reads := conn_reads w;
          g_writes := stream_writes w |};
     stream_to_tcp :=
       {| g_pc := AtTop; g_reads := stream_reads w;
          g_writes := conn_writes w |};
     errChan := [];
     returned := None;
     events := [] |}.

(** [pipePair] under a schedule of its three threads. *)
Definition pipePair (timeout : Z) (w : endpoints) (sched : list thread)
  : state :=
  run timeout sched (start w).

Definition dir_eqb (a b : dir) : bool :=
  match a, b with
  | TcpToStream, TcpToStream | StreamToTcp, StreamToTcp => true
  | _, _ => false
  end.

(** The events of one direction. *)
Definition of_dir (d : dir) (ev : event) : bool :=
  match ev with
  | EvSetDeadline d' | EvRead d' _ _ | EvWrite d' _ _ | EvSend d' _ =>
      dir_eqb d' d
  | EvReturn _ => false
  end.

Definition events_of (d : dir) (tr : list event) : list event :=
  filter (of_dir d) tr.

(** Running one goroutine alone for [n] steps, then the caller. *)
Definition alone (d : dir) (n : nat) : list thread :=
  (repeat (Copy d) n ++ [Main])%list.

End Relay.

(** ** A concrete [net] library, to run the handlers on examples *)

Module GoNet.
Import Go.

(** Index of the first, and of the last, occurrence of a character. *)
Fixpoint IndexByte (s : string) (c : ascii) : option nat :=
  match s with
  | EmptyString => None
  | String a rest =>
      if Ascii.eqb a c then Some O
      else option_map S (IndexByte rest c)
  end.

Fixpoint LastIndexByte (s : string) (c : ascii) : option nat :=
  match s with
  | EmptyString => None
  | String a rest =>
      match LastIndexByte rest c with
      | Some i => Some (S i)
      | None => if Ascii.eqb a c then Some O else None
      end
  end.

(** Go's slice expression [s[a:b]] and [s[a:]]. *)
Definition slice (s : string) (a b : nat) : string := substring a (b - a) s.
Definition slice_from (s : string) (a : nat) : string :=
  substring a (String.length s - a) s.

Definition addrErr (addr why : string) : error :=
  "address " ++ addr ++ ": " ++ why.

Definition missingPort := "missing port in address".
Definition tooManyColons := "too many colons in address".

Definition has (s : string) (c : ascii) : bool :=
  match IndexByte s c with Some _ => true | None => false end.

(** [net.SplitHostPort], following the standard library: the port starts
    after the last colon; a host in brackets must end just before it. *)
Definition SplitHostPort (hostport : string) : (string * string) + error :=
  match LastIndexByte hostport ":" with
  | None => inr (addrErr hostport missingPort)
  | Some i =>
      let finish (host : string) (j k : nat) :=
        if has (slice_from hostport j) "["
        then inr (addrErr hostport "unexpected '[' in address")
        else if has (slice_from hostport k) "]"
        then inr (addrErr hostport "unexpected ']' in address")
        else inl (host, slice_from hostport (i + 1)) in
      match get 0 hostport with
      | Some "["%char =>
          match IndexByte hostport "]" with
          | None => inr (addrErr hostport "missing ']' in address")
          | Some e =>
              if (e + 1 =? String.length hostport)%nat
              then inr (addrErr hostport missingPort)
              else if (e + 1 =? i)%nat
              then finish (slice hostport 1 e) 1%nat (e + 1)%nat
              else
                match get (e + 1) hostport with
                | Some ":"%char => inr (addrErr hostport tooManyColons)
                | _ => inr (addrErr hostport missingPort)
                end
          end
      | _ =>
          let host := slice hostport 0 i in
          if has host ":"
          then inr (addrErr hostport tooManyColons)
          else finish host 0%nat 0%nat
      end
  end.

(** [net.JoinHostPort]: a host containing a colon is put in brackets. *)
Definition JoinHostPort (host port : string) : string :=
  if has host ":"
  then "[" ++ host ++ "]:" ++ port
  else host ++ ":" ++ port.

(** Dotted-decimal IPv4 text: four fields of one to three digits, each at
    most 255, without leading zeros (as Go reads them since release 1.17). *)
Fixpoint fields (s : string) (cur : string) : list string :=
  match s with
  | EmptyString => [cur]
  | String a rest =>
      if Ascii.eqb a "."
      then cur :: fields rest ""
      else fields rest (cur ++ String a "")
  end.

Definition digit (a : ascii) : option N :=
  let n := N_of_ascii a in
  if (48 <=? n)%N && (n <=? 57)%N then Some (n - 48)%N else None.

Fixpoint decimal (s : string) (acc : N) : option N :=
  match s with
  | EmptyString => Some acc
  | String a rest =>
      match digit a with
      | Some d => decimal rest (10 * acc + d)%N
      | None => None
      end
  end.

Definition octet (f : string) : option byte :=
  match f with
  | EmptyString => None
  | String a rest =>
      if Ascii.eqb a "0" && negb (String.eqb rest "") then None
      else if (3 <? String.length f)%nat then None
      else
        match decimal f 0 with
        | Some n => Byte.of_N n
        | None => None
        end
  end.

Definition v4InV6Prefix : bytes :=
  [x00; x00; x00; x00; x00; x00; x00; x00; x00; x00; xff; xff].

(** The textual IPv6 forms are left out of this instance: it answers
    [nil] on them.  The examples below use host names and IPv4 text only. *)
Definition ParseIP (s : string) : IP :=
  match map octet (fields s "") with
  | [Some a; Some b; Some c; Some d] => Some (v4InV6Prefix ++ [a; b; c; d])%list
  | _ => None
  end.

Definition dotted (a b c d : byte) : string :=
  Itoa (byte_val a) ++ "." ++ Itoa (byte_val b) ++ "." ++
  Itoa (byte_val c) ++ "." ++ Itoa (byte_val d).

(** [IP.String] on IPv4 addresses (four bytes, or the sixteen-byte form
    with the IPv4 prefix); ["<nil>"] on the empty slice, ["?"] otherwise. *)
Definition IP_String (ip : bytes) : string :=
  match ip with
  | [] => "<nil>"
  | [a; b; c; d] => dotted a b c d
  | [x00; x00; x00; x00; x00; x00; x00; x00; x00; x00; xff; xff; a; b; c; d] =>
      dotted a b c d
  | _ => "?"
  end.

Definition lib : NetLib :=
  {| Go.SplitHostPort := SplitHostPort;
     Go.JoinHostPort := JoinHostPort;
     Go.ParseIP := ParseIP;
     Go.IP_String := IP_String |}.

End GoNet.

(** ** Scripted environments, to run the handlers on examples *)

Module CoreScript.
Import Go Acl Prog Core.

(** What the environment answers to each kind of call.  The state counts
    the streams the peer still opens during the serving loop. *)
Record script := {
  on_accept : Stream + error;
  on_hello : clientHello + error;
  on_auth : bool * string;
  on_hello_write : option error;
  on_request : clientRequest + error;
  on_lookup : Action * string;
  on_dial : Conn + error;
  on_response_write : option error;
  on_pipe : option error
}.

Definition answer (sc : script) : env nat :=
  fun c n =>
    match c as c0 return (result c0 * nat)%type with
    | AcceptStream _ ctx =>
        match ctx with
        | ctxProtocolTimeout => (on_accept sc, n)
        | ctxBackground =>
            match n with
            | O => (inr "session closed", O)
            | S n' => (inl n, n')
            end
        end
    | CloseWithError _ _ _ => (tt, n)
    | SetCongestionControl _ _ _ => (tt, n)
    | UnpackClientHello _ => (on_hello sc, n)
    | PackServerHello _ _ => (on_hello_write sc, n)
    | UnpackClientRequest _ => (on_request sc, n)
    | PackServerResponse _ _ => (on_response_write sc, n)
    | StreamClose _ => (tt, n)
    | AuthFunc _ _ _ _ => (on_auth sc, n)
    | TcpRequestFunc _ _ _ _ _ => (tt, n)
    | TcpErrorFunc _ _ _ _ => (tt, n)
    | AclLookup _ _ _ => (on_lookup sc, n)
    | DialTimeout _ _ _ => (on_dial sc, n)
    | ConnClose _ => (tt, n)
    | Pipe2Way _ _ => (on_pipe sc, n)
    | GoHandleStream _ _ _ => (tt, n)
    end.

Definition hello (send recv : uint64) : clientHello :=
  {| ch_Rate := {| SendBPS := send; RecvBPS := recv |};
     ch_Auth := [x68; x69] |}.

(** Everything succeeds: the hello asks for 1000/2000 bytes per second,
    the request is for ["example.com:80"], the lookup answers Direct. *)
Definition smooth : script :=
  {| on_accept := inl 1%nat;
     on_hello := inl (hello 1000%N 2000%N);
     on_auth := (true, "welcome");
     on_hello_write := None;
     on_request := inl {| req_UDP := false; req_Address := "example.com:80" |};
     on_lookup := (ActionDirect, "");
     on_dial := inl 7%nat;
     on_response_write := None;
     on_pipe := Some "EOF" |}.

Definition with_hello (sc : script) (ch : clientHello) : script :=
  {| on_accept := on_accept sc; on_hello := inl ch; on_auth := on_auth sc;
     on_hello_write := on_hello_write sc; on_request := on_request sc;
     on_lookup := on_lookup sc; on_dial := on_dial sc;
     on_response_write := on_response_write sc; on_pipe := on_pipe sc |}.

Definition with_lookup (sc : script) (a : Action) (arg : string) : script :=
  {| on_accept := on_accept sc; on_hello := on_hello sc;
     on_auth := on_auth sc; on_hello_write := on_hello_write sc;
     on_request := on_request sc; on_lookup := (a, arg);
     on_dial := on_dial sc; on_response_write := on_response_write sc;
     on_pipe := on_pipe sc |}.

Definition with_response_write (sc : script) (w : option error) : script :=
  {| on_accept := on_accept sc; on_hello := on_hello sc;
     on_auth := on_auth sc; on_hello_write := on_hello_write sc;
     on_request := on_request sc; on_lookup := on_lookup sc;
     on_dial := on_dial sc; on_response_write := w;
     on_pipe := on_pipe sc |}.

Definition server (send recv : uint64) (acl : option Engine) : Server :=
  {| sendBPS := send; recvBPS := recv;
     congestionFactory := Some 1%nat; aclEngine := acl |}.

Definition peer : Session := {| ses_id := 1; RemoteAddr := "192.0.2.1:4000" |}.

End CoreScript.

Module SocksScript.
Import Go Acl Prog Socks5.

(** Answers to each kind of call; the state is the list of results of the
    writes still to come on the client connection (an exhausted list means
    the write succeeds). *)
Record script := {
  on_methods : bytes + error;
  on_userpass : (bytes * bytes) + error;
  on_auth : bool;
  on_lookup : Action * string;
  on_net_dial : Conn + error;
  on_tunnel_dial : Conn + error;
  on_pipe : option error
}.

Definition next_write (ws : list (option error))
  : option error * list (option error) :=
  match ws with
  | [] => (None, [])
  | w :: rest => (w, rest)
  end.

Definition answer (sc : script) : env (list (option error)) :=
  fun c ws =>
    match c as c0 return (result c0 * list (option error))%type with
    | NewNegotiationRequestFrom _ => (on_methods sc, ws)
    | NegotiationReply_WriteTo _ _ => next_write ws
    | NewUserPassNegotiationRequestFrom _ => (on_userpass sc, ws)
    | AuthFunc _ _ => (on_auth sc, ws)
    | UserPassNegotiationReply_WriteTo _ _ => next_write ws
    | TCPRequestFunc _ _ _ _ => (tt, ws)
    | TCPErrorFunc _ _ _ => (tt, ws)
    | AclLookup _ _ _ => (on_lookup sc, ws)
    | NetDial _ _ => (on_net_dial sc, ws)
    | HyClientDialTCP _ => (on_tunnel_dial sc, ws)
    | RcClose _ => (tt, ws)
    | Reply_WriteTo _ _ _ _ _ => next_write ws
    | PipePair _ _ _ => (on_pipe sc, ws)
    end.

Definition smooth : script :=
  {| on_methods := inl [x00];
     on_userpass := inl ([x75], [x70]);
     on_auth := true;
     on_lookup := (ActionProxy, "");
     on_net_dial := inl 8%nat;
     on_tunnel_dial := inl 9%nat;
     on_pipe := Some "EOF" |}.

Definition with_methods (sc : script) (ms : bytes) : script :=
  {| on_methods := inl ms; on_userpass := on_userpass sc;
     on_auth := on_auth sc; on_lookup := on_lookup sc;
     on_net_dial := on_net_dial sc; on_tunnel_dial := on_tunnel_dial sc;
     on_pipe := on_pipe sc |}.

Definition with_lookup (sc : script) (a : Action) (arg : string) : script :=
  {| on_methods := on_methods sc; on_userpass := on_userpass sc;
     on_auth := on_auth sc; on_lookup := (a, arg);
     on_net_dial := on_net_dial sc; on_tunnel_dial := on_tunnel_dial sc;
     on_pipe := on_pipe sc |}.

Definition server (m : byte) (acl : option Engine) : Server :=
  {| AuthFunc_set := Byte.eqb m MethodUsernamePassword;
     Method := m; TCPTimeout := 0%Z; ACLEngine := acl |}.

Definition client : TCPConn := {| conn_id := 3; RemoteAddr := "127.0.0.1:5000" |}.

(** CONNECT to the domain ["internal.example.com"], port 443. *)
Definition connect_domain : Request :=
  {| Cmd := CmdConnect; Atyp := ATYPDomain;
     DstAddr := list_byte_of_string
                  (String (ascii_of_nat 20) "internal.example.com");
     DstPort := [x01; xbb] |}.

(** CONNECT to 10.0.0.5, port 80. *)
Definition connect_ip : Request :=
  {| Cmd := CmdConnect; Atyp := ATYPIPv4;
     DstAddr := [x0a; x00; x00; x05];
     DstPort := [x00; x50] |}.

End SocksScript.

(** ** Words of the specification: the control handshake *)

Module Handshake.
Import Go Acl Prog Core.

(** A configured ceiling of [0] means "no ceiling". *)
Definition ceiling (c : uint64) : option uint64 :=
  if (c =? 0)%N then None else Some c.

(** [min(r, c-or-unbounded)], as the specification writes it. *)
Definition min_ceiling (r c : uint64) : uint64 :=
  match ceiling c with
  | None => r
  | Some c' => N.min r c'
  end.

End Handshake.

(** ** Words of the specification: the relay *)

Module RelaySpec.
Import Go Relay.
Local Open Scope list_scope.

(** Every read of [d] that returned data is followed at once, among the
    events of [d], by the write of that very data; the last event may be
    such a read, the goroutine then standing right before the write. *)
Definition flushed (d : dir) (T : list event) (p : pc) : Prop :=
  forall pre data rerr post,
    T = pre ++ EvRead d data rerr :: post ->
    data <> [] ->
    (post = [] /\ p = AtWrite data rerr)
    \/ (exists w post', post = EvWrite d data w :: post').

(** The events of [d] end with the iteration that fails with [e]: the
    write of the data read failed with [e]; or the read returned no data
    and the error [e]; or the read returned data and the error [e], and the
    write of the data succeeded. *)
Definition reported (d : dir) (T : list event) (e : error) : Prop :=
  (exists pre data rerr,
      data <> [] /\ T = pre ++ [EvRead d data rerr; EvWrite d data (Some e)])
  \/ (exists pre, T = pre ++ [EvRead d [] (Some e)])
  \/ (exists pre data,
         data <> []
         /\ (T = pre ++ [EvRead d data (Some e); EvWrite d data None]
             \/ T = pre ++ [EvRead d data (Some e); EvWrite d data None;
                            EvSetDeadline d])).

(** What the events of [d] look like, by the place its goroutine is at. *)
Definition pc_inv (d : dir) (T : list event) (p : pc) : Prop :=
  match p with
  | AtTop | AtRead => sent T = []
  | AtWrite data rerr =>
      sent T = [] /\ data <> [] /\ exists pre, T = pre ++ [EvRead d data rerr]
  | AtWritten rerr =>
      sent T = []
      /\ exists pre data,
          data <> [] /\ T = pre ++ [EvRead d data rerr; EvWrite d data None]
  | AtSend e => sent T = [] /\ reported d T e
  | Done =>
      exists T0 e, T = T0 ++ [EvSend d e] /\ sent T0 = [] /\ reported d T0 e
  end.

Definition ginv (d : dir) (T : list event) (g : goroutine) : Prop :=
  flushed d T (g_pc g) /\ pc_inv d T (g_pc g).

(** What holds of the channel and of the caller in every state. *)
Definition chan_inv (st : state) : Prop :=
  match returned st with
  | None =>
      sent (events st) = errChan st
      /\ forall e, ~ In (EvReturn e) (events st)
  | Some e =>
      exists pre d post,
        events st = pre ++ EvSend d e :: post
        /\ sent pre = []
        /\ In (EvReturn e) post
  end.

Definition inv (st : state) : Prop :=
  (forall d, ginv d (events_of d (events st)) (goroutine_of d st))
  /\ chan_inv st.

(** The errors sent so far are the one the caller took, if any, followed by
    the ones still in the channel. *)
Definition received (st : state) : list error :=
  match returned st with Some e => [e] | None => [] end.

Definition chan_contents (st : state) : Prop :=
  sent (events st) = received st ++ errChan st.

(** The errors carried by the reads and writes of a trace, in the order
    in which they were produced. *)
Definition produced (tr : list event) : list error :=
  flat_map (fun ev => match ev with
                      | EvRead _ _ (Some e) | EvWrite _ _ (Some e) => [e]
                      | _ => []
                      end) tr.

(** The tunnel stream delivers its last three bytes together with the end
    of the stream. *)
Definition last_bytes : list (bytes * option error) :=
  [([x61; x62; x63], Some "EOF")].

(** ... and the local client takes them. *)
Definition client_listens : endpoints :=
  {| conn_reads := []; conn_writes := [None];
     stream_reads := last_bytes; stream_writes := [] |}.

(** ... and the local client has gone away. *)
Definition client_gone : endpoints :=
  {| conn_reads := []; conn_writes := [Some "broken pipe"];
     stream_reads := last_bytes; stream_writes := [] |}.

End RelaySpec.

(** ** Observations on the traces of the tunnel server *)

Module CoreObs.
Import Go Acl Prog Core.

Definition is_close (e : event) : bool :=
  match e with EvCloseWithError _ _ _ => true | _ => false end.

Definition is_go (e : event) : bool :=
  match e with EvGoHandleStream _ _ _ => true | _ => false end.

Definition is_congestion (e : event) : bool :=
  match e with EvSetCongestionControl _ _ _ => true | _ => false end.

Definition is_stream_close (e : event) : bool :=
  match e with EvStreamClose _ => true | _ => false end.

(** The connections the successful dials of a trace returned, and the
    connections the trace closes, in order. *)
Definition dialed (tr : list event) : list Conn :=
  flat_map (fun e => match e with
                     | EvDialTimeout _ _ _ (inl c) => [c]
                     | _ => []
                     end) tr.

Definition closed (tr : list event) : list Conn :=
  flat_map (fun e => match e with EvConnClose c => [c] | _ => [] end) tr.

(** The streams the peer opened during the serving loop, and the streams
    for which a handler goroutine was started, in order. *)
Definition accepted (tr : list event) : list Stream :=
  flat_map (fun e => match e with
                     | EvAcceptStream _ ctxBackground (inl st) => [st]
                     | _ => []
                     end) tr.

Definition started (tr : list event) : list Stream :=
  flat_map (fun e => match e with
                     | EvGoHandleStream _ _ st => [st]
                     | _ => []
                     end) tr.

(** More scripted environments. *)
Definition with_auth (sc : CoreScript.script) (a : bool * string)
  : CoreScript.script :=
  {| CoreScript.on_accept := CoreScript.on_accept sc;
     CoreScript.on_hello := CoreScript.on_hello sc;
     CoreScript.on_auth := a;
     CoreScript.on_hello_write := CoreScript.on_hello_write sc;
     CoreScript.on_request := CoreScript.on_request sc;
     CoreScript.on_lookup := CoreScript.on_lookup sc;
     CoreScript.on_dial := CoreScript.on_dial sc;
     CoreScript.on_response_write := CoreScript.on_response_write sc;
     CoreScript.on_pipe := CoreScript.on_pipe sc |}.

Definition with_dial (sc : CoreScript.script) (d : Conn + error)
  : CoreScript.script :=
  {| CoreScript.on_accept := CoreScript.on_accept sc;
     CoreScript.on_hello := CoreScript.on_hello sc;
     CoreScript.on_auth := CoreScript.on_auth sc;
     CoreScript.on_hello_write := CoreScript.on_hello_write sc;
     CoreScript.on_request := CoreScript.on_request sc;
     CoreScript.on_lookup := CoreScript.on_lookup sc;
     CoreScript.on_dial := d;
     CoreScript.on_response_write := CoreScript.on_response_write sc;
     CoreScript.on_pipe := CoreScript.on_pipe sc |}.

Definition with_request (sc : CoreScript.script)
    (r : clientRequest + error) : CoreScript.script :=
  {| CoreScript.on_accept := CoreScript.on_accept sc;
     CoreScript.on_hello := CoreScript.on_hello sc;
     CoreScript.on_auth := CoreScript.on_auth sc;
     CoreScript.on_hello_write := CoreScript.on_hello_write sc;
     CoreScript.on_request := r;
     CoreScript.on_lookup := CoreScript.on_lookup sc;
     CoreScript.on_dial := CoreScript.on_dial sc;
     CoreScript.on_response_write := CoreScript.on_response_write sc;
     CoreScript.on_pipe := CoreScript.on_pipe sc |}.

End CoreObs.

(** ** Observations on the traces of the SOCKS5 front-end *)

Module SocksObs.
Import Go Acl Prog Socks5.

Definition is_auth (e : event) : bool :=
  match e with EvAuthFunc _ _ _ => true | _ => false end.

Definition is_userpass_reply (e : event) : bool :=
  match e with EvUserPassNegotiationReply _ _ _ => true | _ => false end.

(** The connections the successful dials of a trace returned, and the
    connections the trace closes, in order. *)
Definition dialed (tr : list event) : list Conn :=
  flat_map (fun e => match e with
                     | EvNetDial _ _ (inl c) | EvHyClientDialTCP _ (inl c) =>
                         [c]
                     | _ => []
                     end) tr.

Definition closed (tr : list event) : list Conn :=
  flat_map (fun e => match e with EvRcClose c => [c] | _ => [] end) tr.

(** The errors of the failed dials, and the results of the relays, in
    order. *)
Definition dial_errors (tr : list event) : list error :=
  flat_map (fun e => match e with
                     | EvNetDial _ _ (inr de) | EvHyClientDialTCP _ (inr de) =>
                         [de]
                     | _ => []
                     end) tr.

Definition relay_results (tr : list event) : list (option error) :=
  flat_map (fun e => match e with EvPipePair _ _ _ r => [r] | _ => [] end) tr.

(** The events by which a request is served: lookup, hooks, dials, replies,
    relay, close of the outbound connection. *)
Definition serves (e : event) : bool :=
  match e with
  | EvTCPRequestFunc _ _ _ _ | EvTCPErrorFunc _ _ _ | EvAclLookup _ _ _ _
  | EvNetDial _ _ _ | EvHyClientDialTCP _ _ | EvRcClose _
  | EvReply _ _ _ _ _ _ | EvPipePair _ _ _ _ => true
  | _ => false
  end.

(** More scripted environments. *)
Definition with_net_dial (sc : SocksScript.script) (d : Conn + error)
  : SocksScript.script :=
  {| SocksScript.on_methods := SocksScript.on_methods sc;
     SocksScript.on_userpass := SocksScript.on_userpass sc;
     SocksScript.on_auth := SocksScript.on_auth sc;
     SocksScript.on_lookup := SocksScript.on_lookup sc;
     SocksScript.on_net_dial := d;
     SocksScript.on_tunnel_dial := SocksScript.on_tunnel_dial sc;
     SocksScript.on_pipe := SocksScript.on_pipe sc |}.

Definition with_tunnel_dial (sc : SocksScript.script) (d : Conn + error)
  : SocksScript.script :=
  {| SocksScript.on_methods := SocksScript.on_methods sc;
     SocksScript.on_userpass := SocksScript.on_userpass sc;
     SocksScript.on_auth := SocksScript.on_auth sc;
     SocksScript.on_lookup := SocksScript.on_lookup sc;
     SocksScript.on_net_dial := SocksScript.on_net_dial sc;
     SocksScript.on_tunnel_dial := d;
     SocksScript.on_pipe := SocksScript.on_pipe sc |}.

Definition with_auth (sc : SocksScript.script) (ok : bool)
  : SocksScript.script :=
  {| SocksScript.on_methods := SocksScript.on_methods sc;
     SocksScript.on_userpass := SocksScript.on_userpass sc;
     SocksScript.on_auth := ok;
     SocksScript.on_lookup := SocksScript.on_lookup sc;
     SocksScript.on_net_dial := SocksScript.on_net_dial sc;
     SocksScript.on_tunnel_dial := SocksScript.on_tunnel_dial sc;
     SocksScript.on_pipe := SocksScript.on_pipe sc |}.

(** BIND to 10.0.0.5, port 80: a command the front-end does not serve. *)
Definition bind_ip : Request :=
  {| Cmd := x02; Atyp := ATYPIPv4;
     DstAddr := [x0a; x00; x00; x05];
     DstPort := [x00; x50] |}.

End SocksObs.

(** ** [pkg/socks5/server.go]: [NewServer] and [ListenAndServe] *)

Module Socks5Serve.
Import Go Acl Prog.

Definition TCPAddr := string.
Definition Listener := nat.

(** The fields of [Server] that [ListenAndServe] reads besides the ones the
    handlers read. *)
Record Listening := {
  base : Socks5.Server;
  TCPAddr_of : TCPAddr;
  DisableUDP : bool
}.

(** The calls of [NewServer] and [ListenAndServe]: the calls the handlers
    make, and the calls on the listener and on the accepted connection. *)
Inductive call :=
| Handler (c : Socks5.call)
| ResolveTCPAddr (network addr : string)
| ListenTCP (network : string) (addr : TCPAddr)
| AcceptTCP (l : Listener)
| ListenerClose (l : Listener)
| GoServe (c : Socks5.TCPConn)
| SetDeadline (c : Socks5.TCPConn) (timeout : Z)
| NewRequestFrom (c : Socks5.TCPConn)
| ConnClose (c : Socks5.TCPConn).

Definition result (c : call) : Type :=
  match c with
  | Handler c' => Socks5.result c'
  | ResolveTCPAddr _ _ => (TCPAddr + error)%type
  | ListenTCP _ _ => (Listener + error)%type
  | AcceptTCP _ => (Socks5.TCPConn + error)%type
  | SetDeadline _ _ => option error
  | NewRequestFrom _ => (Socks5.Request + error)%type
  | _ => unit
  end.

Inductive event :=
| EvHandler (e : Socks5.event)
| EvResolveTCPAddr (network addr : string) (r : TCPAddr + error)
| EvListenTCP (network : string) (addr : TCPAddr) (r : Listener + error)
| EvAcceptTCP (l : Listener) (r : Socks5.TCPConn + error)
| EvListenerClose (l : Listener)
| EvGoServe (c : Socks5.TCPConn)
| EvSetDeadline (c : Socks5.TCPConn) (timeout : Z) (r : option error)
| EvNewRequestFrom (c : Socks5.TCPConn) (r : Socks5.Request + error)
| EvConnClose (c : Socks5.TCPConn).

Definition log (c : call) : result c -> event :=
  match c with
  | Handler c' => fun r => EvHandler (Socks5.log c' r)
  | ResolveTCPAddr n a => EvResolveTCPAddr n a
  | ListenTCP n a => EvListenTCP n a
  | AcceptTCP l => EvAcceptTCP l
  | ListenerClose l => fun _ => EvListenerClose l
  | GoServe c => fun _ => EvGoServe c
  | SetDeadline c t => EvSetDeadline c t
  | NewRequestFrom c => EvNewRequestFrom c
  | ConnClose c => fun _ => EvConnClose c
  end.

Definition M := prog result.
Definition env (S : Type) := handler result S.
Definition run_trace {A S} (h : env S) (p : M A) (s : S) : list event :=
  trace log h p s.
Definition run_value {A S} (h : env S) (p : M A) (s : S) : A :=
  value h p s.

Definition do (c : call) : M (result c) := perform c.

(** A handler of the front-end, run as part of serving a connection. *)
Fixpoint lift {A} (p : Socks5.M A) : M A :=
  match p with
  | Ret a => Ret a
  | Vis c k => Vis (Handler c) (fun r => lift (k r))
  end.

(** The part of an environment that answers the handlers' calls. *)
Definition inner {S : Type} (h : env S) : Socks5.env S :=
  fun c s => h (Handler c) s.

Local Open Scope prog_scope.

(** [NewServer]: the address is resolved; the method is username/password
    exactly when an authentication callback is given. *)
Definition NewServer (addr : string) (authFunc_set : bool) (tcpTimeout : Z)
    (aclEngine : option Engine) (disableUDP : bool)
  : M (Listening + error) :=
  r <- do (ResolveTCPAddr "tcp" addr) ;;
  match r with
  | inr err => Ret (inr err)
  | inl tAddr =>
      let m := if authFunc_set then Socks5.MethodUsernamePassword
               else Socks5.MethodNone in
      Ret (inl {| base := {| Socks5.AuthFunc_set := authFunc_set;
                             Socks5.Method := m;
                             Socks5.TCPTimeout := tcpTimeout;
                             Socks5.ACLEngine := aclEngine |};
                  TCPAddr_of := tAddr;
                  DisableUDP := disableUDP |})
  end.

Section Serving.
Context {net : NetLib}.

(** The goroutine [ListenAndServe] starts for an accepted connection.  The
    deferred [c.Close()] runs on every way out, a panic included. *)
Definition serveConn (s : Socks5.Server) (c : Socks5.TCPConn)
  : M (Socks5.outcome unit) :=
  w <- (if (Socks5.TCPTimeout s =? 0)%Z then Ret None
        else do (SetDeadline c (Socks5.TCPTimeout s))) ;;
  match w with
  | Some _ => do (ConnClose c) ;;; Ret (Socks5.Returned tt)
  | None =>
      n <- lift (Socks5.negotiate s c) ;;
      match n with
      | Socks5.Panic why => do (ConnClose c) ;;; Ret (Socks5.Panic why)
      | Socks5.Returned (Some _) =>
          do (ConnClose c) ;;; Ret (Socks5.Returned tt)
      | Socks5.Returned None =>
          rq <- do (NewRequestFrom c) ;;
          match rq with
          | inr _ => do (ConnClose c) ;;; Ret (Socks5.Returned tt)
          | inl r =>
              o <- lift (Socks5.handle s c r) ;;
              do (ConnClose c) ;;;
              match o with
              | Socks5.Panic why => Ret (Socks5.Panic why)
              | Socks5.Returned _ => Ret (Socks5.Returned tt)
              end
          end
      end
  end.

(** The run of [serveConn] once the deadline is set, cut at its calls of
    [negotiate] and [handle]. *)
Definition after_negotiation {S : Type} (h : env S) (srv : Socks5.Server)
    (c : Socks5.TCPConn) (s : S) (tr : list event) : Prop :=
  let n := Socks5.negotiate srv c in
  let T1 := map EvHandler (Socks5.run_trace (inner h) n s) in
  let s1 := final (inner h) n s in
  match value (inner h) n s with
  | Socks5.Returned None =>
      match fst (h (NewRequestFrom c) s1) with
      | inr e =>
          tr = (T1 ++ [EvNewRequestFrom c (inr e); EvConnClose c])%list
      | inl r =>
          tr = (T1 ++ EvNewRequestFrom c (inl r)
                   :: map EvHandler
                        (Socks5.run_trace (inner h) (Socks5.handle srv c r)
                           (snd (h (NewRequestFrom c) s1)))
                   ++ [EvConnClose c])%list
      end
  | _ => tr = (T1 ++ [EvConnClose c])%list
  end.

End Serving.



Definition is_conn_close (e : event) : bool :=
  match e with EvConnClose _ => true | _ => false end.


(** An event by which a request is served. *)
Definition serves (e : event) : bool :=
  match e with EvHandler e' => SocksObs.serves e' | _ => false end.

(** The connections accepted, and the connections for which a goroutine
    was started, in order. *)
Definition accepted (tr : list event) : list Socks5.TCPConn :=
  flat_map (fun e => match e with EvAcceptTCP _ (inl c) => [c] | _ => [] end)
           tr.

Definition started (tr : list event) : list Socks5.TCPConn :=
  flat_map (fun e => match e with EvGoServe c => [c] | _ => [] end) tr.

(** A scripted environment: the handlers' calls are answered by a script of
    the front-end; the connection's deadline can be set, its request is
    [rq]. *)
Definition answer (sc : SocksScript.script) (rq : Socks5.Request + error)
  : env (list (option error)) :=
  fun c ws =>
    match c as c0 return (result c0 * list (option error))%type with
    | Handler c' => SocksScript.answer sc c' ws
    | ResolveTCPAddr _ a => (inl a, ws)
    | ListenTCP _ _ => (inl 1%nat, ws)
    | AcceptTCP _ => (inr "use of closed network connection", ws)
    | ListenerClose _ => (tt, ws)
    | GoServe _ => (tt, ws)
    | SetDeadline _ _ => (None, ws)
    | NewRequestFrom _ => (rq, ws)
    | ConnClose _ => (tt, ws)
    end.

End Socks5Serve.

(** ** Observations on the runs of the relay *)

Module RelayObs.
Import Go Relay.
Local Open Scope list_scope.

(** The bytes a list of events read, and the bytes it handed to [Write],
    in order. *)
Definition bytes_read (T : list event) : bytes :=
  flat_map (fun ev => match ev with EvRead _ data _ => data | _ => [] end) T.

Definition bytes_written (T : list event) : bytes :=
  flat_map (fun ev => match ev with EvWrite _ data _ => data | _ => [] end) T.

(** The bytes read and not yet handed to [Write]. *)
Definition pending (p : pc) : bytes :=
  match p with AtWrite data _ => data | _ => [] end.

Definition bytes_inv (d : dir) (T : list event) (g : goroutine) : Prop :=
  bytes_read T = bytes_written T ++ pending (g_pc g).

Definition is_deadline (ev : event) : bool :=
  match ev with EvSetDeadline _ => true | _ => false end.

Definition no_deadline (d : dir) (T : list event) (g : goroutine) : Prop :=
  forall ev, In ev T -> is_deadline ev = false.

(** Every read is preceded at once by a call of [SetDeadline]. *)
Definition reads_guarded (d : dir) (T : list event) (g : goroutine) : Prop :=
  (forall pre data err post,
      T = pre ++ EvRead d data err :: post ->
      exists pre', pre = pre' ++ [EvSetDeadline d])
  /\ (g_pc g = AtRead -> exists pre', T = pre' ++ [EvSetDeadline d]).

(** Every successful write is followed at once by a call of
    [SetDeadline], unless it is the last event so far. *)
Definition writes_followed (d : dir) (T : list event) (g : goroutine)
  : Prop :=
  forall pre data post,
    T = pre ++ EvWrite d data None :: post ->
    (post = [] /\ exists rerr, g_pc g = AtWritten rerr)
    \/ (exists post', post = EvSetDeadline d :: post').

Definition is_read (ev : event) : bool :=
  match ev with EvRead _ _ _ => true | _ => false end.

Definition is_return (ev : event) : bool :=
  match ev with EvReturn _ => true | _ => false end.

(** A read or a write that returned an error. *)
Definition failed (ev : event) : Prop :=
  match ev with
  | EvRead _ _ (Some _) | EvWrite _ _ (Some _) => True
  | _ => False
  end.

(** The places of a goroutine that has seen an error. *)
Definition stopping (p : pc) : Prop :=
  match p with
  | AtWrite _ (Some _) | AtWritten (Some _) | AtSend _ | Done => True
  | _ => False
  end.

Definition error_ends (d : dir) (T : list event) (g : goroutine) : Prop :=
  forall pre ev post,
    T = pre ++ ev :: post -> failed ev ->
    stopping (g_pc g) /\ filter is_read post = [].

(** The bytes its source provides to a direction are the ones it has read
    followed by the ones still to come. *)
Definition source_inv (total : dir -> bytes) (d : dir) (T : list event)
    (g : goroutine) : Prop :=
  total d = bytes_read T ++ List.concat (map fst (g_reads g)).

(** The caller returns once. *)
Definition return_inv (st : state) : Prop :=
  match returned st with
  | None => filter is_return (events st) = []
  | Some e => filter is_return (events st) = [EvReturn e]
  end.

(** [n] steps of one goroutine. *)
Fixpoint steps (timeout : Z) (d : dir) (n : nat) (g : goroutine)
  : goroutine * list event :=
  match n with
  | O => (g, [])
  | S n' =>
      let gs := gstep timeout d g in
      let gs' := steps timeout d n' (fst gs) in
      (fst gs', snd gs ++ snd gs')
  end.

(** The copy loop run on its own: the error it ends with, if the answers
    of its endpoints make it end. *)
Fixpoint copy_result (reads : list (bytes * option error))
    (writes : list (option error)) : option error :=
  match reads with
  | [] => None
  | (data, rerr) :: rest =>
      match data with
      | [] =>
          match rerr with
          | Some e => Some e
          | None => copy_result rest writes
          end
      | _ :: _ =>
          match writes with
          | [] => None
          | Some e :: _ => Some e
          | None :: ws =>
              match rerr with
              | Some e => Some e
              | None => copy_result rest ws
              end
          end
      end
  end.

(** The answers a direction gets. *)
Definition reads_of (d : dir) (w : endpoints) : list (bytes * option error) :=
  match d with TcpToStream => conn_reads w | StreamToTcp => stream_reads w end.

Definition writes_of (d : dir) (w : endpoints) : list (option error) :=
  match d with TcpToStream => stream_writes w | StreamToTcp => conn_writes w end.

(** The local client sends five bytes in two reads, then closes. *)
Definition upload : endpoints :=
  {| conn_reads := [([x68; x65], None); ([], None);
                    ([x6c; x6c; x6f], None); ([], Some "EOF")];
     conn_writes := [];
     stream_reads := [];
     stream_writes := [None; None] |}.

End RelayObs.

(** * Properties *)

(** ** Running programs: general facts *)

Section ProgFacts.
Import Prog.
Context {call : Type} {result : call -> Type} {event : Type}.
Context (log : forall c : call, result c -> event).
Context {S : Type} (h : handler result S).

Lemma trace_bind {A B} (p : prog result A) (f : A -> prog result B) (s : S) :
  trace log h (bind p f) s =
  (trace log h p s ++ trace log h (f (value h p s)) (final h p s))%list.
Proof.
  revert s. induction p as [a | c k IH]; intro s; simpl.
  - reflexivity.
  - now rewrite IH.
Qed.

Lemma value_bind {A B} (p : prog result A) (f : A -> prog result B) (s : S) :
  value h (bind p f) s = value h (f (value h p s)) (final h p s).
Proof.
  revert s. induction p as [a | c k IH]; intro s; simpl; auto.
Qed.

Lemma final_bind {A B} (p : prog result A) (f : A -> prog result B) (s : S) :
  final h (bind p f) s = final h (f (value h p s)) (final h p s).
Proof.
  revert s. induction p as [a | c k IH]; intro s; simpl; auto.
Qed.

Lemma count_app (t : event -> bool) (l1 l2 : list event) :
  count t (l1 ++ l2) = (count t l1 + count t l2)%nat.
Proof. unfold count. now rewrite filter_app, length_app. Qed.

Lemma count_zero_not_in (t : event -> bool) (l : list event) (e : event) :
  count t l = 0%nat -> t e = true -> ~ In e l.
Proof.
  unfold count. intros Hc He Hin.
  assert (Hf : In e (filter t l)) by (apply filter_In; auto).
  destruct (filter t l); [destruct Hf | discriminate].
Qed.

End ProgFacts.

(** Destructing the environment's answer to the next call. *)
Ltac step h :=
  match goal with
  | |- context [h ?c ?s] =>
      let r := fresh "r" in
      let s' := fresh "s" in
      destruct (h c s) as [r s'] eqn:?; simpl in *
  end.

Ltac step_in h H :=
  match type of H with
  | context [h ?c ?s] =>
      let r := fresh "r" in
      let s' := fresh "s" in
      destruct (h c s) as [r s'] eqn:?; simpl in *
  end.

(** Membership in an explicit list of events. *)
Ltac in_inv :=
  repeat match goal with
    | H : False |- _ => destruct H
    | H : In _ [] |- _ => destruct H
    | H : In _ (_ :: _) |- _ => destruct H as [H | H]; [try discriminate H |]
    | H : _ \/ _ |- _ => destruct H as [H | H]; [try discriminate H |]
    end.

(** ** The concrete [net] library on examples *)

Example SplitHostPort_name :
  GoNet.SplitHostPort "example.com:80" = inl ("example.com", "80").
Proof. reflexivity. Qed.

Example SplitHostPort_no_port :
  GoNet.SplitHostPort "example.com" =
  inr "address example.com: missing port in address".
Proof. reflexivity. Qed.

Example SplitHostPort_brackets :
  GoNet.SplitHostPort "[::1]:443" = inl ("::1", "443").
Proof. reflexivity. Qed.

Example SplitHostPort_colons :
  GoNet.SplitHostPort "::1:443" =
  inr "address ::1:443: too many colons in address".
Proof. reflexivity. Qed.

Example JoinHostPort_name :
  GoNet.JoinHostPort "10.0.0.5" "443" = "10.0.0.5:443".
Proof. reflexivity. Qed.

Example JoinHostPort_brackets :
  GoNet.JoinHostPort "::1" "443" = "[::1]:443".
Proof. reflexivity. Qed.

Example Split_of_Join :
  GoNet.SplitHostPort (GoNet.JoinHostPort "10.0.0.5" "443") =
  inl ("10.0.0.5", "443").
Proof. reflexivity. Qed.

Example ParseIP_name : GoNet.ParseIP "example.com" = None.
Proof. reflexivity. Qed.

Example ParseIP_empty : GoNet.ParseIP "" = None.
Proof. reflexivity. Qed.

Example ParseIP_dotted :
  GoNet.ParseIP "10.0.0.5" =
  Some [x00; x00; x00; x00; x00; x00; x00; x00; x00; x00; xff; xff;
        x0a; x00; x00; x05].
Proof. reflexivity. Qed.

Example ParseIP_out_of_range : GoNet.ParseIP "10.0.0.256" = None.
Proof. reflexivity. Qed.

Example port_of_request :
  option_map Go.Itoa (Go.Uint16 [x01; xbb]) = Some "443".
Proof. reflexivity. Qed.

(** ** The control handshake *)

Section HandshakeFacts.
Import Go Acl Prog Core Handshake.
Context {S : Type} (h : env S).

Lemma clamp_min_ceiling (r c : uint64) :
  (if (0 <? c)%N && (c <? r)%N then c else r) = min_ceiling r c.
Proof.
  unfold min_ceiling, ceiling.
  destruct (N.eqb_spec c 0) as [->|Hc].
  - reflexivity.
  - destruct (N.ltb_spec 0 c); [|lia].
    destruct (N.ltb_spec c r); simpl; lia.
Qed.

(** The serving loop only accepts streams and starts their handlers. *)
Lemma serveLoop_events (fuel : nat) (cs : Session) (auth : bytes) (s : S) :
  Forall (fun e => match e with
                   | EvAcceptStream _ _ _ | EvGoHandleStream _ _ _ => True
                   | _ => False
                   end)
         (run_trace h (serveLoop fuel cs auth) s).
Proof.
  unfold run_trace. revert s.
  induction fuel as [|fuel IH]; intro s; simpl; [constructor|].
  destruct (h (AcceptStream cs ctxBackground) s) as [[st|e] s1]; simpl;
    repeat constructor.
  apply IH.
Qed.

(** The hello that [handleControlStream] reads is the one its trace shows. *)
Lemma handleControlStream_hello (srv : Server) (cs : Session)
    (stream st : Stream) (ch : clientHello) (s : S) :
  In (EvUnpackClientHello st (inl ch))
     (run_trace h (handleControlStream srv cs stream) s) ->
  st = stream /\ fst (h (UnpackClientHello stream) s) = inl ch.
Proof.
  unfold run_trace, handleControlStream. simpl.
  destruct (h (UnpackClientHello stream) s) as [[ch'|err] s1]; simpl;
    intros Hin; [|in_inv; congruence].
  destruct Hin as [Hin|Hin]; [split; congruence|].
  exfalso.
  destruct ((SendBPS (ch_Rate ch') =? 0)%N || (RecvBPS (ch_Rate ch') =? 0)%N);
    simpl in *; [in_inv|].
  step_in h Hin. step_in h Hin. destruct r0; simpl in *; [in_inv|].
  destruct (fst r), (congestionFactory srv); simpl in *; in_inv.
Qed.

End HandshakeFacts.

(** Claim C1.  For every client hello with strictly positive requested rates
    and every pair of server ceilings (0 meaning unbounded), the server hello
    that [handleControlStream] writes carries
    [SendBPS = min(requested RecvBPS, send ceiling or unbounded)] and
    [RecvBPS = min(requested SendBPS, receive ceiling or unbounded)], each
    direction on its own; the same rates are the ones shown to the
    authentication callback.  Hence the advertised rate never exceeds the
    client's request nor a configured ceiling. *)
Theorem handshake_rates_clamped :
  forall (S : Type) (h : Core.env S) (s0 : S) (srv : Core.Server)
         (cs : Core.Session) (stream : Go.Stream) (ch : Core.clientHello),
    let tr := Core.run_trace h (Core.handleControlStream srv cs stream) s0 in
    let Rs := Core.SendBPS (Core.ch_Rate ch) in
    let Rr := Core.RecvBPS (Core.ch_Rate ch) in
    let nSend := Handshake.min_ceiling Rr (Core.sendBPS srv) in
    let nRecv := Handshake.min_ceiling Rs (Core.recvBPS srv) in
    In (Core.EvUnpackClientHello stream (inl ch)) tr ->
    (0 < Rs)%N ->
    (0 < Rr)%N ->
    (exists ok msg w,
        filter Core.is_hello tr =
          [Core.EvPackServerHello stream
             {| Core.sh_OK := ok;
                Core.sh_Rate := {| Core.SendBPS := nSend;
                                   Core.RecvBPS := nRecv |};
                Core.sh_Message := msg |} w]
        /\ In (Core.EvAuthFunc (Core.RemoteAddr cs) (Core.ch_Auth ch)
                 nSend nRecv (ok, msg)) tr)
    /\ (nSend <= Rr)%N
    /\ (nRecv <= Rs)%N
    /\ ((0 < Core.sendBPS srv)%N -> (nSend <= Core.sendBPS srv)%N)
    /\ ((0 < Core.recvBPS srv)%N -> (nRecv <= Core.recvBPS srv)%N).
Proof.
  intros S h s0 srv cs stream ch tr Rs Rr nSend nRecv Hin Hs Hr.
  split.
  - apply handleControlStream_hello in Hin. destruct Hin as [_ Hch].
    subst tr. unfold Core.run_trace, Core.handleControlStream. simpl.
    destruct (h (Core.UnpackClientHello stream) s0) as [r s1].
    simpl in Hch. subst r. simpl.
    fold Rs Rr.
    destruct (N.eqb_spec Rs 0); [lia|].
    destruct (N.eqb_spec Rr 0); [lia|].
    simpl. rewrite !clamp_min_ceiling. fold nSend nRecv.
    step h. step h. destruct r as [ok msg]; simpl.
    exists ok, msg, r0. split; [|auto].
    f_equal.
    destruct r0; simpl; [reflexivity|].
    destruct ok, (Core.congestionFactory srv); reflexivity.
  - subst nSend nRecv. unfold Handshake.min_ceiling, Handshake.ceiling.
    destruct (N.eqb_spec (Core.sendBPS srv) 0),
             (N.eqb_spec (Core.recvBPS srv) 0); lia.
Qed.

Lemma handshake_rates_clamped_witness :
  let tr := Core.run_trace (CoreScript.answer CoreScript.smooth)
              (Core.handleControlStream (CoreScript.server 500%N 0%N None)
                 CoreScript.peer 1%nat) 0%nat in
  exists ok msg w,
    filter Core.is_hello tr =
      [Core.EvPackServerHello 1%nat
         {| Core.sh_OK := ok;
            Core.sh_Rate := {| Core.SendBPS := 500%N;
                               Core.RecvBPS := 1000%N |};
            Core.sh_Message := msg |} w]
    /\ In (Core.EvAuthFunc "192.0.2.1:4000" [x68; x69] 500%N 1000%N (ok, msg))
          tr.
Proof.
  refine (proj1 (handshake_rates_clamped
                   nat (CoreScript.answer CoreScript.smooth) 0%nat
                   (CoreScript.server 500%N 0%N None) CoreScript.peer 1%nat
                   (CoreScript.hello 1000%N 2000%N) _ _ _)).
  - simpl. auto.
  - reflexivity.
  - reflexivity.
Defined.

Section HandshakeClientFacts.
Import Go Acl Prog Core Handshake.
Context {S : Type} (h : env S).
#[local] Arguments handleControlStream : simpl never.
#[local] Arguments serveLoop : simpl never.

Lemma serveLoop_no_hello (fuel : nat) (cs : Session) (auth : bytes) (s : S)
    (st : Stream) (r : clientHello + error) :
  ~ In (EvUnpackClientHello st r) (run_trace h (serveLoop fuel cs auth) s).
Proof.
  intro Hin.
  pose proof (serveLoop_events h fuel cs auth s) as Hall.
  rewrite Forall_forall in Hall. apply Hall in Hin. exact Hin.
Qed.

(** The hello that [handleClient] reads arrives on the stream it accepted. *)
Lemma handleClient_hello (fuel : nat) (srv : Server) (cs : Session)
    (st : Stream) (ch : clientHello) (s : S) :
  In (EvUnpackClientHello st (inl ch))
     (run_trace h (handleClient fuel srv cs) s) ->
  fst (h (AcceptStream cs ctxProtocolTimeout) s) = inl st /\
  fst (h (UnpackClientHello st)
         (snd (h (AcceptStream cs ctxProtocolTimeout) s))) = inl ch.
Proof.
  unfold run_trace, handleClient.
  cbn [bind trace do perform].
  destruct (h (AcceptStream cs ctxProtocolTimeout) s) as [[st'|err] s1];
    cbn [bind trace do perform fst snd log];
    intros Hin; [|in_inv].
  destruct Hin as [Hin|Hin]; [discriminate|].
  rewrite trace_bind in Hin. apply in_app_or in Hin.
  destruct Hin as [Hin|Hin].
  - apply handleControlStream_hello in Hin. destruct Hin as [-> Hch]. auto.
  - exfalso.
    destruct (value h (handleControlStream srv cs st') s1)
      as [[auth [|]] [e|]];
      cbn [bind trace do perform fst snd log] in Hin;
      [in_inv | | in_inv | in_inv].
    rewrite trace_bind in Hin. apply in_app_or in Hin.
    destruct Hin as [Hin|Hin].
    + eapply serveLoop_no_hello; eauto.
    + destruct (value h (serveLoop fuel cs (authBytes auth)) _);
        cbn [bind trace do perform fst snd log] in Hin; in_inv.
Qed.

End HandshakeClientFacts.

(** Claim C2.  When the client hello carries a zero [SendBPS] or a zero
    [RecvBPS], [handleClient] does exactly three things: it accepts the
    control stream, reads the hello, and closes the session with the
    protocol-error code and the reason "protocol error".  The authentication
    callback is never invoked and no server hello is written. *)
Theorem zero_rate_rejected_before_auth :
  forall (S : Type) (h : Core.env S) (s0 : S) (fuel : nat)
         (srv : Core.Server) (cs : Core.Session) (stream : Go.Stream)
         (ch : Core.clientHello),
    let p := Core.handleClient fuel srv cs in
    let tr := Core.run_trace h p s0 in
    In (Core.EvUnpackClientHello stream (inl ch)) tr ->
    Core.SendBPS (Core.ch_Rate ch) = 0%N \/
    Core.RecvBPS (Core.ch_Rate ch) = 0%N ->
    tr = [Core.EvAcceptStream cs Core.ctxProtocolTimeout (inl stream);
          Core.EvUnpackClientHello stream (inl ch);
          Core.EvCloseWithError cs Core.closeErrorCodeProtocol
            "protocol error"]
    /\ Prog.count Core.is_auth tr = 0%nat
    /\ Prog.count Core.is_hello tr = 0%nat
    /\ Core.run_value h p s0 = true.
Proof.
  intros S h s0 fuel srv cs stream ch p tr Hin Hzero.
  apply handleClient_hello in Hin. destruct Hin as [Hacc Hch].
  assert (Htr : tr = [Core.EvAcceptStream cs Core.ctxProtocolTimeout
                        (inl stream);
                      Core.EvUnpackClientHello stream (inl ch);
                      Core.EvCloseWithError cs Core.closeErrorCodeProtocol
                        "protocol error"]
                /\ Core.run_value h p s0 = true).
  { subst tr p. unfold Core.run_trace, Core.run_value, Core.handleClient.
    simpl.
    destruct (h (Core.AcceptStream cs Core.ctxProtocolTimeout) s0) as [r s1].
    simpl in Hacc, Hch. subst r. simpl.
    destruct (h (Core.UnpackClientHello stream) s1) as [r s2].
    simpl in Hch. subst r. simpl.
    assert (Hz : ((Core.SendBPS (Core.ch_Rate ch) =? 0)%N
                  || (Core.RecvBPS (Core.ch_Rate ch) =? 0)%N) = true).
    { destruct Hzero as [-> | ->]; simpl; auto using orb_true_r. }
    rewrite Hz. simpl. auto. }
  destruct Htr as [Htr Hv]. rewrite Htr. repeat split; auto.
Qed.

Lemma zero_rate_rejected_before_auth_witness :
  Core.run_trace
    (CoreScript.answer
       (CoreScript.with_hello CoreScript.smooth (CoreScript.hello 0%N 2000%N)))
    (Core.handleClient 5 (CoreScript.server 500%N 0%N None) CoreScript.peer)
    2%nat
  = [Core.EvAcceptStream CoreScript.peer Core.ctxProtocolTimeout (inl 1%nat);
     Core.EvUnpackClientHello 1%nat (inl (CoreScript.hello 0%N 2000%N));
     Core.EvCloseWithError CoreScript.peer Core.closeErrorCodeProtocol
       "protocol error"].
Proof.
  refine (proj1 (zero_rate_rejected_before_auth
                   nat
                   (CoreScript.answer
                      (CoreScript.with_hello CoreScript.smooth
                         (CoreScript.hello 0%N 2000%N)))
                   2%nat 5%nat (CoreScript.server 500%N 0%N None)
                   CoreScript.peer 1%nat (CoreScript.hello 0%N 2000%N) _ _)).
  - simpl. auto.
  - left. reflexivity.
Defined.

(** ** Request handling: facts about every run *)

(** Splitting on the scrutinee of the next stuck [match]. *)
Ltac split_match :=
  match goal with
  | |- context [match ?x with _ => _ end] =>
      first [is_var x; destruct x | destruct x eqn:?]
  | H : context [match ?x with _ => _ end] |- _ =>
      first [is_var x; destruct x | destruct x eqn:?]
  end.

Ltac paths h := repeat (first [step h | split_match]; simpl in *).

(** Membership of an event in an explicit trace: the event is one of the
    listed ones. *)
Ltac in_cases :=
  repeat match goal with
    | H : False |- _ => destruct H
    | H : In _ [] |- _ => destruct H
    | H : In _ (_ :: _) |- _ => destruct H as [H | H]
    | H : _ \/ _ |- _ => destruct H as [H | H]
    | H : _ = _ |- _ => discriminate H
    | H : _ = _ |- _ => progress (injection H as; subst)
    end.

Section CoreStreamFacts.
Import Go Acl Prog Core.
Context {net : NetLib} {S : Type} (h : env S).

Ltac core_unfold :=
  unfold run_trace, handleStream, handleTCP, handleTCP_dial,
    handleTCP_established, count in *;
  simpl in *.

Lemma core_hooks (srv : Server) (ra : Addr) (auth : bytes)
    (st : Stream) (reqAddr : string) (s : S) :
  let tr := run_trace h (handleTCP srv ra auth st reqAddr) s in
  (count is_request_hook tr <= 1)%nat
  /\ (count is_error_hook tr <= 1)%nat
  /\ (forall hp, SplitHostPort reqAddr = inl hp ->
      count is_request_hook tr = 1%nat)
  /\ (forall e, SplitHostPort reqAddr = inr e ->
      count is_request_hook tr = 0%nat /\ count is_error_hook tr = 1%nat)
  /\ (forall n a t e, In (EvDialTimeout n a t (inr e)) tr ->
      count is_error_hook tr = 1%nat)
  /\ (forall st' c r, In (EvPipe2Way st' c r) tr ->
      count is_error_hook tr = 1%nat).
Proof.
  core_unfold.
  destruct (SplitHostPort reqAddr) as [[host port]|err]; simpl.
  - repeat split; auto; try (intros; discriminate); try (intros; paths h; now auto). 
    all: intros; paths h; in_cases; auto.
  - repeat split; auto; try (intros; discriminate); intros; in_cases.
Qed.

(** The hooks are told the peer, the token and the requested address. *)
Lemma core_hook_arguments (srv : Server) (ra : Addr) (auth : bytes)
    (st : Stream) (reqAddr : string) (s : S) :
  let tr := run_trace h (handleTCP srv ra auth st reqAddr) s in
  (forall a au r act arg, In (EvTcpRequestFunc a au r act arg) tr ->
     a = ra /\ au = auth /\ r = reqAddr)
  /\ (forall a au r e, In (EvTcpErrorFunc a au r e) tr ->
     a = ra /\ au = auth /\ r = reqAddr).
Proof.
  core_unfold. split; intros; paths h; in_cases; auto.
Qed.

(** Without an engine the server never looks anything up, and the action
    it reports is Direct with an empty argument. *)
Lemma core_default_action (srv : Server) (ra : Addr) (auth : bytes)
    (st : Stream) (reqAddr : string) (s : S) :
  let tr := run_trace h (handleTCP srv ra auth st reqAddr) s in
  aclEngine srv = None ->
  count is_lookup tr = 0%nat
  /\ (forall a au r act arg, In (EvTcpRequestFunc a au r act arg) tr ->
      act = ActionDirect /\ arg = "")
  /\ (forall hp, SplitHostPort reqAddr = inl hp ->
      In (EvTcpRequestFunc ra auth reqAddr ActionDirect "") tr
      /\ exists r, filter is_dial tr =
                   [EvDialTimeout "tcp" reqAddr dialTimeout r]).
Proof.
  intros tr Hnil. subst tr. core_unfold. rewrite Hnil.
  destruct (SplitHostPort reqAddr) as [[host port]|err]; simpl.
  - repeat split; intros; paths h; in_cases; eauto.
  - repeat split; intros; in_cases.
Qed.

Lemma core_hijack_target (srv : Server) (ra : Addr) (auth : bytes)
    (st : Stream) (reqAddr : string) (s : S) :
  let tr := run_trace h (handleTCP srv ra auth st reqAddr) s in
  forall host port a au r A,
    SplitHostPort reqAddr = inl (host, port) ->
    In (EvTcpRequestFunc a au r ActionHijack A) tr ->
    exists res,
      filter is_dial tr =
        [EvDialTimeout "tcp" (JoinHostPort A port) dialTimeout res].
Proof.
  intros tr host port a au r A Hsplit Hin. subst tr. core_unfold.
  rewrite Hsplit in *. simpl in *.
  paths h; in_cases; eauto.
Qed.

Lemma core_lookup_arguments (srv : Server) (ra : Addr) (auth : bytes)
    (st : Stream) (reqAddr : string) (s : S) :
  let tr := run_trace h (handleTCP srv ra auth st reqAddr) s in
  (forall e d ip r, In (EvAclLookup e d ip r) tr ->
     exists host port,
       SplitHostPort reqAddr = inl (host, port)
       /\ aclEngine srv = Some e
       /\ ip = ParseIP host
       /\ d = match ParseIP host with Some _ => "" | None => host end)
  /\ (forall host port e,
        SplitHostPort reqAddr = inl (host, port) ->
        aclEngine srv = Some e ->
        count is_lookup tr = 1%nat).
Proof.
  intro tr. subst tr. core_unfold. split.
  - intros e d ip r Hin.
    destruct (SplitHostPort reqAddr) as [[host port]|err]; simpl in *;
      [|in_cases].
    exists host, port.
    destruct (aclEngine srv) as [eng|]; simpl in *.
    + destruct Hin as [Hin|Hin].
      * injection Hin as; subst. auto.
      * exfalso. paths h; in_cases.
    + exfalso. paths h; in_cases.
  - intros host port e Hsplit Heng. rewrite Hsplit, Heng. simpl.
    paths h; auto.
Qed.

Lemma core_refusals (srv : Server) (ra : Addr) (auth : bytes)
    (st : Stream) (reqAddr : string) (s : S) :
  let tr := run_trace h (handleTCP srv ra auth st reqAddr) s in
  forall a au r act arg,
    In (EvTcpRequestFunc a au r act arg) tr ->
    (act = ActionBlock ->
     count is_dial tr = 0%nat /\ count is_pipe tr = 0%nat
     /\ exists w, filter is_response tr =
                  [EvPackServerResponse st
                     {| resp_OK := false; resp_Message := "blocked by ACL" |}
                     w])
    /\ (known act = false ->
        count is_dial tr = 0%nat /\ count is_pipe tr = 0%nat
        /\ exists w, filter is_response tr =
                     [EvPackServerResponse st
                        {| resp_OK := false; resp_Message := "ACL error" |}
                        w]).
Proof.
  intros tr a au r act arg Hin. subst tr. core_unfold.
  split; intros Hact; subst.
  - paths h; in_cases; eauto.
  - paths h; in_cases; try discriminate; eauto.
Qed.

(** A successful dial, a failed write of the [OK: true] response: what
    [handleStream] does from the dial on. *)
Lemma core_ok_write_failure (srv : Server) (ra : Addr) (auth : bytes)
    (st : Stream) (s : S) :
  let tr := run_trace h (handleStream srv ra auth st) s in
  forall st' rs e,
    In (EvPackServerResponse st' rs (Some e)) tr ->
    resp_OK rs = true ->
    count is_pipe tr = 0%nat
    /\ exists pre target conn,
        tr = (pre ++ [EvDialTimeout "tcp" target dialTimeout (inl conn);
                      EvPackServerResponse st
                        {| resp_OK := true; resp_Message := "" |} (Some e);
                      EvConnClose conn;
                      EvStreamClose st])%list.
Proof.
  intros tr st' rs e Hin Hok. subst tr. core_unfold.
  paths h; in_cases; try discriminate.
  all: split; [reflexivity|].
  all: match goal with
       | |- exists pre target conn, ?l = _ =>
           match l with
           | context [EvDialTimeout "tcp" ?t _ (inl ?c)] =>
               match l with
               | [?a; ?b; ?c0; _; _; _; _] => exists [a; b; c0], t, c
               | [?a; ?b; _; _; _; _] => exists [a; b], t, c
               end
           end
       end; reflexivity.
Qed.

(** [handleStream] writes at most one response, and an [OK: true] response
    comes right after a successful dial. *)
Lemma core_ok_after_dial (srv : Server) (ra : Addr) (auth : bytes)
    (st : Stream) (s : S) :
  let tr := run_trace h (handleStream srv ra auth st) s in
  (count is_response tr <= 1)%nat
  /\ forall st' rs w,
      In (EvPackServerResponse st' rs w) tr ->
      resp_OK rs = true ->
      exists pre target conn post,
        tr = (pre ++ EvDialTimeout "tcp" target dialTimeout (inl conn)
                  :: EvPackServerResponse st' rs w :: post)%list.
Proof.
  intro tr. subst tr. core_unfold. split.
  - paths h; auto.
  - intros st' rs w Hin Hok.
    paths h; in_cases; try discriminate.
    all: match goal with
         | |- exists pre target conn post, ?l = _ =>
             match l with
             | ?a :: ?b :: ?c0 :: EvDialTimeout _ ?t _ (inl ?c) :: _ :: ?p =>
                 exists [a; b; c0], t, c, p
             | ?a :: ?b :: EvDialTimeout _ ?t _ (inl ?c) :: _ :: ?p =>
                 exists [a; b], t, c, p
             end
         end; reflexivity.
Qed.

End CoreStreamFacts.

Section SocksFacts.
Import Go Acl Prog Socks5.
Context {net : NetLib} {S : Type} (h : env S).

Ltac socks_unfold :=
  unfold run_trace, handle, handleTCP, handleTCP_dial, sendReply, count in *;
  simpl in *.

Lemma parse_well_formed (r : Request) :
  well_formed r = true ->
  exists v domain ip,
    Uint16 (DstPort r) = Some v
    /\ parseRequestAddress r =
       Returned (domain, ip, Itoa v,
                 JoinHostPort
                   (if Byte.eqb (Atyp r) ATYPDomain then domain
                    else IP_String (DstAddr r))
                   (Itoa v)).
Proof.
  unfold well_formed, parseRequestAddress.
  destruct (DstPort r) as [|b0 [|b1 rest]]; simpl; try discriminate.
  intros Hwf.
  destruct (Byte.eqb (Atyp r) ATYPDomain); simpl in *.
  - destruct (DstAddr r); simpl in *; [discriminate|]. eauto.
  - eauto.
Qed.

Lemma socks_hooks (srv : Server) (c : TCPConn) (r : Request) (s : S) :
  let tr := run_trace h (handleTCP srv c r) s in
  well_formed r = true ->
  count is_request_hook tr = 1%nat /\ count is_error_hook tr = 1%nat.
Proof.
  intros tr Hwf. subst tr.
  destruct (parse_well_formed r Hwf) as (v & domain & ip & _ & Hparse).
  socks_unfold. rewrite Hparse. simpl.
  paths h; auto.
Qed.

Lemma socks_hook_arguments (srv : Server) (c : TCPConn) (r : Request) (s : S) :
  let tr := run_trace h (handleTCP srv c r) s in
  (forall a ra act arg, In (EvTCPRequestFunc a ra act arg) tr ->
     a = RemoteAddr c
     /\ exists domain ip port,
         parseRequestAddress r = Returned (domain, ip, port, ra))
  /\ (forall a ra e, In (EvTCPErrorFunc a ra e) tr ->
     a = RemoteAddr c
     /\ exists domain ip port,
         parseRequestAddress r = Returned (domain, ip, port, ra)).
Proof.
  socks_unfold.
  destruct (parseRequestAddress r) as [[[[domain ip] port] addr]|why];
    simpl.
  - split; intros; paths h; in_cases; eauto.
  - split; intros; in_cases.
Qed.

Lemma socks_default_action (srv : Server) (c : TCPConn) (r : Request) (s : S) :
  let tr := run_trace h (handleTCP srv c r) s in
  ACLEngine srv = None ->
  count is_lookup tr = 0%nat
  /\ (forall a ra act arg, In (EvTCPRequestFunc a ra act arg) tr ->
      act = ActionProxy /\ arg = "")
  /\ (forall domain ip port addr,
        parseRequestAddress r = Returned (domain, ip, port, addr) ->
        In (EvTCPRequestFunc (RemoteAddr c) addr ActionProxy "") tr
        /\ exists res, filter is_dial tr = [EvHyClientDialTCP addr res]).
Proof.
  intros tr Hnil. subst tr. socks_unfold. rewrite Hnil.
  destruct (parseRequestAddress r) as [[[[domain ip] port] addr]|why];
    simpl.
  - repeat split; intros; paths h; in_cases; eauto.
  - repeat split; intros; in_cases.
Qed.

Lemma socks_hijack_target (srv : Server) (c : TCPConn) (r : Request) (s : S) :
  let tr := run_trace h (handleTCP srv c r) s in
  forall P a ra A,
    well_formed r = true ->
    Uint16 (DstPort r) = Some P ->
    In (EvTCPRequestFunc a ra ActionHijack A) tr ->
    exists res,
      filter is_dial tr = [EvNetDial "tcp" (JoinHostPort A (Itoa P)) res].
Proof.
  intros tr P a ra A Hwf HP Hin. subst tr.
  destruct (parse_well_formed r Hwf) as (v & domain & ip & Hv & Hparse).
  assert (v = P) by congruence. subst v.
  socks_unfold. rewrite Hparse in *. simpl in *.
  paths h; in_cases; eauto.
Qed.

Lemma socks_refusals (srv : Server) (c : TCPConn) (r : Request) (s : S) :
  let tr := run_trace h (handleTCP srv c r) s in
  forall a ra act arg,
    In (EvTCPRequestFunc a ra act arg) tr ->
    (act = ActionBlock ->
     count is_dial tr = 0%nat /\ count is_pipe tr = 0%nat
     /\ exists w, filter is_reply tr =
                  [EvReply c RepHostUnreachable ATYPIPv4
                     [x00; x00; x00; x00] [x00; x00] w])
    /\ (known act = false ->
        count is_dial tr = 0%nat /\ count is_pipe tr = 0%nat
        /\ exists w, filter is_reply tr =
                     [EvReply c RepServerFailure ATYPIPv4
                        [x00; x00; x00; x00] [x00; x00] w]).
Proof.
  intros tr a ra act arg Hin. subst tr. socks_unfold.
  destruct (parseRequestAddress r) as [[[[domain ip] port] addr]|why];
    simpl in *; [|in_cases].
  split; intros Hact; subst.
  - paths h; in_cases; eauto.
  - paths h; in_cases; try discriminate; eauto.
Qed.

End SocksFacts.

(** ** Request handling: the claims *)

(** Claim C3, as the code has it.  At the SOCKS front-end, for every request
    the request reader can produce, [handleTCP] invokes the request hook
    exactly once and the error hook exactly once, on every path.  At the
    tunnel server each hook is invoked at most once per request; the request
    hook exactly once when the requested address splits into host and port
    and not at all when it does not; the error hook exactly once on an
    address-parse failure, on a failed dial, and once the relay has run.
    On both sides the hooks are told the peer address (and the token, at the
    tunnel server) and the requested address. *)
Theorem hooks_invocation_counts :
  forall (net : Go.NetLib),
    (forall (S : Type) (h : Socks5.env S) (s0 : S) (srv : Socks5.Server)
            (c : Socks5.TCPConn) (r : Socks5.Request),
        let tr := Socks5.run_trace h (Socks5.handleTCP srv c r) s0 in
        Socks5.well_formed r = true ->
        Socks5.both_hooks_once tr
        /\ (forall a ra act arg,
              In (Socks5.EvTCPRequestFunc a ra act arg) tr ->
              a = Socks5.RemoteAddr c
              /\ exists domain ip port,
                  Socks5.parseRequestAddress r =
                    Socks5.Returned (domain, ip, port, ra))
        /\ (forall a ra e,
              In (Socks5.EvTCPErrorFunc a ra e) tr ->
              a = Socks5.RemoteAddr c
              /\ exists domain ip port,
                  Socks5.parseRequestAddress r =
                    Socks5.Returned (domain, ip, port, ra)))
    /\ (forall (S : Type) (h : Core.env S) (s0 : S) (srv : Core.Server)
               (ra : Go.Addr) (auth : Go.bytes) (st : Go.Stream)
               (reqAddr : string),
          let tr := Core.run_trace h (Core.handleTCP srv ra auth st reqAddr) s0 in
          (Prog.count Core.is_request_hook tr <= 1)%nat
          /\ (Prog.count Core.is_error_hook tr <= 1)%nat
          /\ (forall hp, Go.SplitHostPort reqAddr = inl hp ->
              Prog.count Core.is_request_hook tr = 1%nat)
          /\ (forall e, Go.SplitHostPort reqAddr = inr e ->
              Prog.count Core.is_request_hook tr = 0%nat
              /\ Prog.count Core.is_error_hook tr = 1%nat)
          /\ (forall n a t e, In (Core.EvDialTimeout n a t (inr e)) tr ->
              Prog.count Core.is_error_hook tr = 1%nat)
          /\ (forall st' c r, In (Core.EvPipe2Way st' c r) tr ->
              Prog.count Core.is_error_hook tr = 1%nat)
          /\ (forall a au r act arg,
                In (Core.EvTcpRequestFunc a au r act arg) tr ->
                a = ra /\ au = auth /\ r = reqAddr)
          /\ (forall a au r e,
                In (Core.EvTcpErrorFunc a au r e) tr ->
                a = ra /\ au = auth /\ r = reqAddr)).
Proof.
  intro net. split.
  - intros S h s0 srv c r tr Hwf. split.
    + now apply socks_hooks.
    + apply socks_hook_arguments.
  - intros S h s0 srv ra auth st reqAddr tr.
    pose proof (core_hooks h srv ra auth st reqAddr s0) as Hc.
    pose proof (core_hook_arguments h srv ra auth st reqAddr s0) as Ha.
    simpl in Hc, Ha. fold tr in Hc, Ha.
    intuition.
Qed.

Lemma hooks_invocation_counts_witness :
  Socks5.both_hooks_once
    (Socks5.run_trace
       (SocksScript.answer (SocksScript.with_lookup SocksScript.smooth
                              Acl.ActionBlock ""))
       (@Socks5.handleTCP GoNet.lib (SocksScript.server x00 (Some 1%nat))
          SocksScript.client SocksScript.connect_domain) [])
  /\ Prog.count Core.is_request_hook
       (Core.run_trace (CoreScript.answer CoreScript.smooth)
          (@Core.handleTCP GoNet.lib (CoreScript.server 0%N 0%N None)
             "192.0.2.1:4000" [] 4%nat "example.com:80") 0%nat) = 1%nat
  /\ Prog.count Core.is_error_hook
       (Core.run_trace (CoreScript.answer CoreScript.smooth)
          (@Core.handleTCP GoNet.lib (CoreScript.server 0%N 0%N None)
             "192.0.2.1:4000" [] 4%nat "example.com:80") 0%nat) = 1%nat
  /\ (Prog.count Core.is_request_hook
        (Core.run_trace (CoreScript.answer CoreScript.smooth)
           (@Core.handleTCP GoNet.lib (CoreScript.server 0%N 0%N None)
              "192.0.2.1:4000" [] 4%nat "example.com") 0%nat) = 0%nat
      /\ Prog.count Core.is_error_hook
           (Core.run_trace (CoreScript.answer CoreScript.smooth)
              (@Core.handleTCP GoNet.lib (CoreScript.server 0%N 0%N None)
                 "192.0.2.1:4000" [] 4%nat "example.com") 0%nat) = 1%nat).
Proof.
  pose proof (proj2 (hooks_invocation_counts GoNet.lib)
                nat (CoreScript.answer CoreScript.smooth) 0%nat
                (CoreScript.server 0%N 0%N None) "192.0.2.1:4000" [] 4%nat
                "example.com:80") as Hgood.
  pose proof (proj2 (hooks_invocation_counts GoNet.lib)
                nat (CoreScript.answer CoreScript.smooth) 0%nat
                (CoreScript.server 0%N 0%N None) "192.0.2.1:4000" [] 4%nat
                "example.com") as Hbad.
  simpl in Hgood, Hbad.
  destruct Hgood as (_ & _ & Hsplit & _ & _ & Hpipe & _).
  destruct Hbad as (_ & _ & _ & Hfail & _).
  split; [|split; [|split]].
  - apply (proj1 (hooks_invocation_counts GoNet.lib)
             _ (SocksScript.answer (SocksScript.with_lookup SocksScript.smooth
                                      Acl.ActionBlock ""))
             [] (SocksScript.server x00 (Some 1%nat))
             SocksScript.client SocksScript.connect_domain).
    reflexivity.
  - apply (Hsplit ("example.com", "80")). reflexivity.
  - apply (Hpipe 4%nat 7%nat (Some "EOF")). simpl. auto 10.
  - apply (Hfail "address example.com: missing port in address").
    reflexivity.
Defined.

(** Claim C3, as stated, fails at the tunnel server.  On the address
    ["example.com"] (no port) the request hook is never invoked.  On a
    request the ACL blocks, on a request whose action is unknown, and on a
    request whose [OK: true] response cannot be written, the error hook is
    never invoked. *)
Lemma hooks_not_once_at_tunnel_server :
  ~ Core.both_hooks_once
      (Core.run_trace (CoreScript.answer CoreScript.smooth)
         (@Core.handleTCP GoNet.lib (CoreScript.server 0%N 0%N None)
            "192.0.2.1:4000" [] 4%nat "example.com") 0%nat)
  /\ ~ Core.both_hooks_once
         (Core.run_trace
            (CoreScript.answer (CoreScript.with_lookup CoreScript.smooth
                                  Acl.ActionBlock ""))
            (@Core.handleTCP GoNet.lib (CoreScript.server 0%N 0%N (Some 1%nat))
               "192.0.2.1:4000" [] 4%nat "ads.example.com:80") 0%nat)
  /\ ~ Core.both_hooks_once
         (Core.run_trace
            (CoreScript.answer (CoreScript.with_lookup CoreScript.smooth
                                  (Acl.ActionUnknown 9) ""))
            (@Core.handleTCP GoNet.lib (CoreScript.server 0%N 0%N (Some 1%nat))
               "192.0.2.1:4000" [] 4%nat "example.com:80") 0%nat)
  /\ ~ Core.both_hooks_once
         (Core.run_trace
            (CoreScript.answer (CoreScript.with_response_write
                                  CoreScript.smooth (Some "stream reset")))
            (@Core.handleTCP GoNet.lib (CoreScript.server 0%N 0%N None)
               "192.0.2.1:4000" [] 4%nat "example.com:80") 0%nat).
Proof.
  repeat split; intros [Hreq Herr]; vm_compute in Hreq, Herr; discriminate.
Qed.

(** Claim C4.  Without an ACL engine no lookup is made and the action
    reported to the request hook, and acted upon, is the caller's default:
    Direct with an empty argument at the tunnel server (which then dials the
    requested address itself), Proxy with an empty argument at the SOCKS
    front-end (which then dials through the tunnel client). *)
Theorem default_action_without_acl :
  forall (net : Go.NetLib),
    (forall (S : Type) (h : Core.env S) (s0 : S) (srv : Core.Server)
            (ra : Go.Addr) (auth : Go.bytes) (st : Go.Stream)
            (reqAddr : string),
        let tr := Core.run_trace h (Core.handleTCP srv ra auth st reqAddr) s0 in
        Core.aclEngine srv = None ->
        Prog.count Core.is_lookup tr = 0%nat
        /\ (forall a au r act arg,
              In (Core.EvTcpRequestFunc a au r act arg) tr ->
              act = Acl.ActionDirect /\ arg = "")
        /\ (forall hp, Go.SplitHostPort reqAddr = inl hp ->
            In (Core.EvTcpRequestFunc ra auth reqAddr Acl.ActionDirect "") tr
            /\ exists r, filter Core.is_dial tr =
                         [Core.EvDialTimeout "tcp" reqAddr Core.dialTimeout r]))
    /\ (forall (S : Type) (h : Socks5.env S) (s0 : S) (srv : Socks5.Server)
               (c : Socks5.TCPConn) (r : Socks5.Request),
          let tr := Socks5.run_trace h (Socks5.handleTCP srv c r) s0 in
          Socks5.ACLEngine srv = None ->
          Prog.count Socks5.is_lookup tr = 0%nat
          /\ (forall a ra act arg,
                In (Socks5.EvTCPRequestFunc a ra act arg) tr ->
                act = Acl.ActionProxy /\ arg = "")
          /\ (forall domain ip port addr,
                Socks5.parseRequestAddress r =
                  Socks5.Returned (domain, ip, port, addr) ->
                In (Socks5.EvTCPRequestFunc (Socks5.RemoteAddr c) addr
                      Acl.ActionProxy "") tr
                /\ exists res, filter Socks5.is_dial tr =
                               [Socks5.EvHyClientDialTCP addr res])).
Proof.
  intro net. split.
  - intros S h s0 srv ra auth st reqAddr. apply core_default_action.
  - intros S h s0 srv c r. apply socks_default_action.
Qed.

Lemma default_action_without_acl_witness :
  In (Core.EvTcpRequestFunc "192.0.2.1:4000" [] "example.com:80"
        Acl.ActionDirect "")
     (Core.run_trace (CoreScript.answer CoreScript.smooth)
        (@Core.handleTCP GoNet.lib (CoreScript.server 0%N 0%N None)
           "192.0.2.1:4000" [] 4%nat "example.com:80") 0%nat)
  /\ In (Socks5.EvTCPRequestFunc "127.0.0.1:5000" "internal.example.com:443"
           Acl.ActionProxy "")
        (Socks5.run_trace (SocksScript.answer SocksScript.smooth)
           (@Socks5.handleTCP GoNet.lib (SocksScript.server x00 None)
              SocksScript.client SocksScript.connect_domain) []).
Proof.
  split.
  - apply (proj1 (proj2 (proj2 (proj1 (default_action_without_acl GoNet.lib)
                                   nat (CoreScript.answer CoreScript.smooth)
                                   0%nat (CoreScript.server 0%N 0%N None)
                                   "192.0.2.1:4000" [] 4%nat
                                   "example.com:80" eq_refl))
                   ("example.com", "80") eq_refl)).
  - apply (proj1 (proj2 (proj2 (proj2 (default_action_without_acl GoNet.lib)
                                   _ (SocksScript.answer SocksScript.smooth)
                                   [] (SocksScript.server x00 None)
                                   SocksScript.client
                                   SocksScript.connect_domain eq_refl))
                   "internal.example.com" None "443"
                   "internal.example.com:443" eq_refl)).
Defined.

(** Claim C5.  When the dispatch result is Hijack with argument [A], the one
    outbound dial of the request goes to [JoinHostPort(A, P)], where [P] is
    the port of the original destination: the port part of the requested
    address at the tunnel server, the decimal form of the request's
    big-endian [DstPort] at the SOCKS front-end. *)
Theorem hijack_dials_argument_with_original_port :
  forall (net : Go.NetLib),
    (forall (S : Type) (h : Core.env S) (s0 : S) (srv : Core.Server)
            (ra : Go.Addr) (auth : Go.bytes) (st : Go.Stream)
            (reqAddr host P : string) (a : Go.Addr) (au : Go.bytes)
            (r A : string),
        let tr := Core.run_trace h (Core.handleTCP srv ra auth st reqAddr) s0 in
        Go.SplitHostPort reqAddr = inl (host, P) ->
        In (Core.EvTcpRequestFunc a au r Acl.ActionHijack A) tr ->
        exists res,
          filter Core.is_dial tr =
            [Core.EvDialTimeout "tcp" (Go.JoinHostPort A P)
               Core.dialTimeout res])
    /\ (forall (S : Type) (h : Socks5.env S) (s0 : S) (srv : Socks5.Server)
               (c : Socks5.TCPConn) (r : Socks5.Request) (P : Z)
               (a : Go.Addr) (ra A : string),
          let tr := Socks5.run_trace h (Socks5.handleTCP srv c r) s0 in
          Socks5.well_formed r = true ->
          Go.Uint16 (Socks5.DstPort r) = Some P ->
          In (Socks5.EvTCPRequestFunc a ra Acl.ActionHijack A) tr ->
          exists res,
            filter Socks5.is_dial tr =
              [Socks5.EvNetDial "tcp" (Go.JoinHostPort A (Go.Itoa P)) res]).
Proof.
  intro net. split.
  - intros S h s0 srv ra auth st reqAddr host P a au r A tr Hsplit Hin.
    eapply core_hijack_target; eauto.
  - intros S h s0 srv c r P a ra A tr Hwf HP Hin.
    eapply socks_hijack_target; eauto.
Qed.

Lemma hijack_dials_argument_with_original_port_witness :
  (exists res,
      filter Core.is_dial
        (Core.run_trace
           (CoreScript.answer (CoreScript.with_lookup CoreScript.smooth
                                 Acl.ActionHijack "10.0.0.5"))
           (@Core.handleTCP GoNet.lib (CoreScript.server 0%N 0%N (Some 1%nat))
              "192.0.2.1:4000" [] 4%nat "internal.example.com:443") 0%nat)
      = [Core.EvDialTimeout "tcp" "10.0.0.5:443" Core.dialTimeout res])
  /\ (exists res,
         filter Socks5.is_dial
           (Socks5.run_trace
              (SocksScript.answer (SocksScript.with_lookup SocksScript.smooth
                                     Acl.ActionHijack "10.0.0.5"))
              (@Socks5.handleTCP GoNet.lib
                 (SocksScript.server x00 (Some 1%nat))
                 SocksScript.client SocksScript.connect_domain) [])
         = [Socks5.EvNetDial "tcp" "10.0.0.5:443" res]).
Proof.
  split.
  - refine (proj1 (hijack_dials_argument_with_original_port GoNet.lib)
              nat
              (CoreScript.answer (CoreScript.with_lookup CoreScript.smooth
                                    Acl.ActionHijack "10.0.0.5"))
              0%nat (CoreScript.server 0%N 0%N (Some 1%nat))
              "192.0.2.1:4000" [] 4%nat "internal.example.com:443"
              "internal.example.com" "443"
              "192.0.2.1:4000" [] "internal.example.com:443" "10.0.0.5" _ _).
    + reflexivity.
    + simpl. auto.
  - refine (proj2 (hijack_dials_argument_with_original_port GoNet.lib)
              _
              (SocksScript.answer (SocksScript.with_lookup SocksScript.smooth
                                     Acl.ActionHijack "10.0.0.5"))
              [] (SocksScript.server x00 (Some 1%nat))
              SocksScript.client SocksScript.connect_domain 443%Z
              "127.0.0.1:5000" "internal.example.com:443" "10.0.0.5" _ _ _).
    + reflexivity.
    + reflexivity.
    + simpl. auto.
Defined.

(** Claim C6.  Every ACL lookup the tunnel server makes comes after the
    requested address was split into host and port; its IP argument is the
    result of parsing the host, and its domain argument is the host when the
    host is not a literal IP and the empty string when it is.  So the domain
    argument is never the text of an IP address ([ParseIP] rejects the empty
    string).  With an engine configured and an address that splits, the
    lookup is made exactly once. *)
Theorem acl_lookup_never_sees_textual_ip :
  forall (net : Go.NetLib) (S : Type) (h : Core.env S) (s0 : S)
         (srv : Core.Server) (ra : Go.Addr) (auth : Go.bytes) (st : Go.Stream)
         (reqAddr : string),
    let tr := Core.run_trace h (Core.handleTCP srv ra auth st reqAddr) s0 in
    (forall e d ip r,
        In (Core.EvAclLookup e d ip r) tr ->
        exists host port,
          Go.SplitHostPort reqAddr = inl (host, port)
          /\ ip = Go.ParseIP host
          /\ (Go.ParseIP host = None -> d = host)
          /\ (Go.ParseIP host <> None -> d = "")
          /\ (Go.ParseIP "" = None -> Go.ParseIP d = None))
    /\ (forall host port e,
          Go.SplitHostPort reqAddr = inl (host, port) ->
          Core.aclEngine srv = Some e ->
          Prog.count Core.is_lookup tr = 1%nat).
Proof.
  intros net S h s0 srv ra auth st reqAddr tr.
  destruct (core_lookup_arguments h srv ra auth st reqAddr s0) as [Hargs Hone].
  split; [|exact Hone].
  intros e d ip r Hin.
  destruct (Hargs e d ip r Hin) as (host & port & Hsplit & _ & Hip & Hd).
  exists host, port. repeat split; auto.
  - intros Hnone. now rewrite Hnone in Hd.
  - intros Hsome. destruct (Go.ParseIP host); [exact Hd | congruence].
  - intros Hempty. destruct (Go.ParseIP host) eqn:Hp; subst d; assumption.
Qed.

Lemma acl_lookup_never_sees_textual_ip_witness :
  exists host port,
    GoNet.SplitHostPort "10.0.0.5:80" = inl (host, port)
    /\ Some (GoNet.v4InV6Prefix ++ [x0a; x00; x00; x05])%list
       = GoNet.ParseIP host
    /\ (GoNet.ParseIP host = None -> "" = host)
    /\ (GoNet.ParseIP host <> None -> "" = "")
    /\ (GoNet.ParseIP "" = None -> GoNet.ParseIP "" = None).
Proof.
  refine (proj1 (acl_lookup_never_sees_textual_ip GoNet.lib
                   nat (CoreScript.answer CoreScript.smooth) 0%nat
                   (CoreScript.server 0%N 0%N (Some 1%nat))
                   "192.0.2.1:4000" [] 4%nat "10.0.0.5:80")
            1%nat "" (Some (GoNet.v4InV6Prefix ++ [x0a; x00; x00; x05])%list)
            (Acl.ActionDirect, "") _).
  simpl. auto.
Defined.

(** Claim C7.  When the dispatch result is Block, or an action outside
    Direct, Proxy, Block and Hijack, no outbound dial is made, no relay is
    started, and exactly one answer is written to the peer, a refusal: at the
    tunnel server a response with [OK: false] and the message "blocked by
    ACL" (Block) or "ACL error" (unknown action); at the SOCKS front-end a
    reply with the code host-unreachable (Block) or general server failure
    (unknown action). *)
Theorem block_and_unknown_never_dial :
  forall (net : Go.NetLib),
    (forall (S : Type) (h : Core.env S) (s0 : S) (srv : Core.Server)
            (ra : Go.Addr) (auth : Go.bytes) (st : Go.Stream)
            (reqAddr : string) (a : Go.Addr) (au : Go.bytes) (r : string)
            (act : Acl.Action) (arg : string),
        let tr := Core.run_trace h (Core.handleTCP srv ra auth st reqAddr) s0 in
        In (Core.EvTcpRequestFunc a au r act arg) tr ->
        (act = Acl.ActionBlock ->
         Prog.count Core.is_dial tr = 0%nat
         /\ Prog.count Core.is_pipe tr = 0%nat
         /\ exists w, filter Core.is_response tr =
                      [Core.EvPackServerResponse st
                         {| Core.resp_OK := false;
                            Core.resp_Message := "blocked by ACL" |} w])
        /\ (Acl.known act = false ->
            Prog.count Core.is_dial tr = 0%nat
            /\ Prog.count Core.is_pipe tr = 0%nat
            /\ exists w, filter Core.is_response tr =
                         [Core.EvPackServerResponse st
                            {| Core.resp_OK := false;
                               Core.resp_Message := "ACL error" |} w]))
    /\ (forall (S : Type) (h : Socks5.env S) (s0 : S) (srv : Socks5.Server)
               (c : Socks5.TCPConn) (r : Socks5.Request) (a : Go.Addr)
               (ra : string) (act : Acl.Action) (arg : string),
          let tr := Socks5.run_trace h (Socks5.handleTCP srv c r) s0 in
          In (Socks5.EvTCPRequestFunc a ra act arg) tr ->
          (act = Acl.ActionBlock ->
           Prog.count Socks5.is_dial tr = 0%nat
           /\ Prog.count Socks5.is_pipe tr = 0%nat
           /\ exists w, filter Socks5.is_reply tr =
                        [Socks5.EvReply c Socks5.RepHostUnreachable
                           Socks5.ATYPIPv4 [x00; x00; x00; x00] [x00; x00] w])
          /\ (Acl.known act = false ->
              Prog.count Socks5.is_dial tr = 0%nat
              /\ Prog.count Socks5.is_pipe tr = 0%nat
              /\ exists w, filter Socks5.is_reply tr =
                           [Socks5.EvReply c Socks5.RepServerFailure
                              Socks5.ATYPIPv4 [x00; x00; x00; x00]
                              [x00; x00] w])).
Proof.
  intro net. split.
  - intros S h s0 srv ra auth st reqAddr a au r act arg tr Hin.
    eapply core_refusals; eauto.
  - intros S h s0 srv c r a ra act arg tr Hin.
    eapply socks_refusals; eauto.
Qed.

Lemma block_and_unknown_never_dial_witness :
  Prog.count Core.is_dial
    (Core.run_trace
       (CoreScript.answer (CoreScript.with_lookup CoreScript.smooth
                             Acl.ActionBlock ""))
       (@Core.handleTCP GoNet.lib (CoreScript.server 0%N 0%N (Some 1%nat))
          "192.0.2.1:4000" [] 4%nat "ads.example.com:80") 0%nat) = 0%nat
  /\ Prog.count Socks5.is_dial
       (Socks5.run_trace
          (SocksScript.answer (SocksScript.with_lookup SocksScript.smooth
                                 (Acl.ActionUnknown 9) ""))
          (@Socks5.handleTCP GoNet.lib (SocksScript.server x00 (Some 1%nat))
             SocksScript.client SocksScript.connect_ip) []) = 0%nat.
Proof.
  split.
  - refine (proj1 (proj1 (proj1 (block_and_unknown_never_dial GoNet.lib)
                     nat
                     (CoreScript.answer (CoreScript.with_lookup
                                           CoreScript.smooth
                                           Acl.ActionBlock ""))
                     0%nat (CoreScript.server 0%N 0%N (Some 1%nat))
                     "192.0.2.1:4000" [] 4%nat "ads.example.com:80"
                     "192.0.2.1:4000" [] "ads.example.com:80"
                     Acl.ActionBlock "" _) eq_refl)).
    simpl. auto.
  - refine (proj1 (proj2 (proj2 (block_and_unknown_never_dial GoNet.lib)
                     _
                     (SocksScript.answer (SocksScript.with_lookup
                                            SocksScript.smooth
                                            (Acl.ActionUnknown 9) ""))
                     [] (SocksScript.server x00 (Some 1%nat))
                     SocksScript.client SocksScript.connect_ip
                     "127.0.0.1:5000" "10.0.0.5:80"
                     (Acl.ActionUnknown 9) "" _) eq_refl)).
    simpl. auto.
Defined.

(** Claim C10.  At the tunnel server, when the outbound dial succeeded and
    writing the [OK: true] response fails, the relay is never started and
    the run ends with: the successful dial, the failed write, the close of
    the dialed connection, the close of the request stream.  Moreover at
    most one response is written per stream, and an [OK: true] response is
    written only right after a successful dial. *)
Theorem ok_response_write_failure :
  forall (net : Go.NetLib) (S : Type) (h : Core.env S) (s0 : S)
         (srv : Core.Server) (ra : Go.Addr) (auth : Go.bytes)
         (st : Go.Stream),
    let tr := Core.run_trace h (Core.handleStream srv ra auth st) s0 in
    (forall st' rs e,
        In (Core.EvPackServerResponse st' rs (Some e)) tr ->
        Core.resp_OK rs = true ->
        Prog.count Core.is_pipe tr = 0%nat
        /\ exists pre target conn,
            tr = (pre ++ [Core.EvDialTimeout "tcp" target Core.dialTimeout
                            (inl conn);
                          Core.EvPackServerResponse st
                            {| Core.resp_OK := true;
                               Core.resp_Message := "" |} (Some e);
                          Core.EvConnClose conn;
                          Core.EvStreamClose st])%list)
    /\ (Prog.count Core.is_response tr <= 1)%nat
    /\ (forall st' rs w,
          In (Core.EvPackServerResponse st' rs w) tr ->
          Core.resp_OK rs = true ->
          exists pre target conn post,
            tr = (pre ++ Core.EvDialTimeout "tcp" target Core.dialTimeout
                           (inl conn)
                      :: Core.EvPackServerResponse st' rs w :: post)%list).
Proof.
  intros net S h s0 srv ra auth st tr. split.
  - intros st' rs e Hin Hok. eapply core_ok_write_failure; eauto.
  - apply core_ok_after_dial.
Qed.

Lemma ok_response_write_failure_witness :
  Prog.count Core.is_pipe
    (Core.run_trace
       (CoreScript.answer (CoreScript.with_response_write CoreScript.smooth
                             (Some "stream reset")))
       (@Core.handleStream GoNet.lib (CoreScript.server 0%N 0%N None)
          "192.0.2.1:4000" [] 4%nat) 0%nat) = 0%nat
  /\ exists pre target conn,
      Core.run_trace
        (CoreScript.answer (CoreScript.with_response_write CoreScript.smooth
                              (Some "stream reset")))
        (@Core.handleStream GoNet.lib (CoreScript.server 0%N 0%N None)
           "192.0.2.1:4000" [] 4%nat) 0%nat
      = (pre ++ [Core.EvDialTimeout "tcp" target Core.dialTimeout (inl conn);
                 Core.EvPackServerResponse 4%nat
                   {| Core.resp_OK := true; Core.resp_Message := "" |}
                   (Some "stream reset");
                 Core.EvConnClose conn;
                 Core.EvStreamClose 4%nat])%list.
Proof.
  refine (proj1 (ok_response_write_failure GoNet.lib
                   nat
                   (CoreScript.answer (CoreScript.with_response_write
                                         CoreScript.smooth
                                         (Some "stream reset")))
                   0%nat (CoreScript.server 0%N 0%N None)
                   "192.0.2.1:4000" [] 4%nat)
            4%nat {| Core.resp_OK := true; Core.resp_Message := "" |}
            "stream reset" _ eq_refl).
  simpl. auto 10.
Defined.

(** ** SOCKS method negotiation *)

Section NegotiateFacts.
Import Go Acl Prog Socks5.
Context {S : Type} (h : env S).

(** The loop of [negotiate] computes membership. *)
Lemma offered_spec (m : byte) (ms : bytes) (got : bool) :
  offered m ms got = true <-> got = true \/ In m ms.
Proof.
  revert got. induction ms as [|a ms IH]; intro got; simpl.
  - tauto.
  - rewrite IH. destruct (Byte.eqb a m) eqn:E.
    + apply Byte.byte_dec_bl in E. subst. tauto.
    + apply Byte.eqb_false in E. tauto.
Qed.

Lemma offered_false (m : byte) (ms : bytes) :
  offered m ms false = false <-> ~ In m ms.
Proof.
  pose proof (offered_spec m ms false) as Hs.
  destruct (offered m ms false).
  - split; [discriminate|]. intros Hn. exfalso. apply Hn.
    destruct (proj1 Hs eq_refl) as [|]; [discriminate|assumption].
  - split; auto. intros _ Hin.
    assert (false = true) by (apply Hs; auto). discriminate.
Qed.

Lemma negotiate_replies (srv : Server) (c : TCPConn) (s : S) :
  let p := negotiate srv c in
  let tr := run_trace h p s in
  forall c' methods,
    In (EvNewNegotiationRequestFrom c' (inl methods)) tr ->
    (In (Method srv) methods ->
     exists w, filter is_negotiation_reply tr =
               [EvNegotiationReply c (Method srv) w])
    /\ (~ In (Method srv) methods ->
        (exists w, filter is_negotiation_reply tr =
                   [EvNegotiationReply c MethodUnsupportAll None;
                    EvNegotiationReply c (Method srv) w])
        \/ (exists e, filter is_negotiation_reply tr =
                      [EvNegotiationReply c MethodUnsupportAll (Some e)]
                      /\ run_value h p s = Returned (Some e))).
Proof.
  intros p tr c' methods Hin. subst p tr.
  unfold run_trace, run_value, negotiate in *. simpl in *.
  destruct (h (NewNegotiationRequestFrom c) s) as [[ms|err] s1] eqn:Hrq;
    simpl in *; [|in_cases].
  assert (ms = methods) as ->.
  { destruct Hin as [Hin|Hin]; [congruence|]. exfalso.
    paths h; in_cases. }
  clear Hin. split.
  - intros Hoff.
    assert (Ho : offered (Method srv) methods false = true).
    { apply offered_spec. auto. }
    rewrite Ho. simpl. paths h; eauto.
  - intros Hoff. apply offered_false in Hoff. rewrite Hoff. simpl.
    step h. destruct r as [e|]; simpl.
    + right. exists e. auto.
    + left. paths h; eauto.
Qed.

End NegotiateFacts.

(** Claim C9, as the code has it.  Once the client's methods are read: when
    the configured method is among them, exactly one negotiation reply is
    written, the one naming the configured method.  When it is not, the
    unsupported-methods reply is written first; if that write succeeds the
    reply naming the configured method follows, and these are the only two
    negotiation replies; if that write fails, [negotiate] returns the write's
    error and writes no further reply. *)
Theorem negotiation_reply_order :
  forall (S : Type) (h : Socks5.env S) (s0 : S) (srv : Socks5.Server)
         (c c' : Socks5.TCPConn) (methods : Go.bytes),
    let p := Socks5.negotiate srv c in
    let tr := Socks5.run_trace h p s0 in
    In (Socks5.EvNewNegotiationRequestFrom c' (inl methods)) tr ->
    (In (Socks5.Method srv) methods ->
     exists w, filter Socks5.is_negotiation_reply tr =
               [Socks5.EvNegotiationReply c (Socks5.Method srv) w])
    /\ (~ In (Socks5.Method srv) methods ->
        (exists w, filter Socks5.is_negotiation_reply tr =
                   [Socks5.EvNegotiationReply c Socks5.MethodUnsupportAll None;
                    Socks5.EvNegotiationReply c (Socks5.Method srv) w])
        \/ (exists e, filter Socks5.is_negotiation_reply tr =
                      [Socks5.EvNegotiationReply c Socks5.MethodUnsupportAll
                         (Some e)]
                      /\ Socks5.run_value h p s0 = Socks5.Returned (Some e))).
Proof.
  intros S h s0 srv c c' methods p tr Hin.
  eapply negotiate_replies; eauto.
Qed.

Lemma negotiation_reply_order_witness :
  exists w,
    filter Socks5.is_negotiation_reply
      (Socks5.run_trace
         (SocksScript.answer (SocksScript.with_methods SocksScript.smooth
                                [x02; x00]))
         (Socks5.negotiate (SocksScript.server x00 None) SocksScript.client)
         [])
    = [Socks5.EvNegotiationReply SocksScript.client x00 w].
Proof.
  refine (proj1 (negotiation_reply_order
                   _
                   (SocksScript.answer (SocksScript.with_methods
                                          SocksScript.smooth [x02; x00]))
                   [] (SocksScript.server x00 None)
                   SocksScript.client SocksScript.client [x02; x00] _) _).
  - simpl. auto.
  - simpl. auto.
Defined.

(** Claim C9, as stated, fails when the write of the unsupported-methods
    reply fails: the client offers only username/password, the server is
    configured for no authentication, the first write is answered by a
    connection reset.  The methods were read, yet no reply naming the
    configured method is written. *)
Lemma chosen_method_reply_not_always_written :
  let tr := Socks5.run_trace
              (SocksScript.answer (SocksScript.with_methods SocksScript.smooth
                                     [x02]))
              (Socks5.negotiate (SocksScript.server x00 None)
                 SocksScript.client)
              [Some "connection reset"] in
  In (Socks5.EvNewNegotiationRequestFrom SocksScript.client (inl [x02])) tr
  /\ ~ (exists w, In (Socks5.EvNegotiationReply SocksScript.client
                        (Socks5.Method (SocksScript.server x00 None)) w) tr).
Proof.
  split.
  - simpl. auto.
  - intros [w Hin]. simpl in Hin. in_cases.
Qed.

(** ** The relay *)

Section RelayFacts.
Import Go Relay RelaySpec.
Local Open Scope list_scope.
Variable timeout : Z.

Lemma snoc_split {A} (T : list A) (x : A) pre y post :
  T ++ [x] = pre ++ y :: post ->
  (post = [] /\ pre = T /\ y = x)
  \/ (exists post0, post = post0 ++ [x] /\ T = pre ++ y :: post0).
Proof.
  destruct post as [|z post'] using rev_ind; intro H.
  - apply app_inj_tail in H. left. intuition.
  - clear IHpost'. right. exists post'.
    change (pre ++ y :: post' ++ [z]) with (pre ++ (y :: post') ++ [z]) in H.
    rewrite app_assoc in H. apply app_inj_tail in H.
    destruct H as [-> ->]. auto.
Qed.

Lemma sent_app (l1 l2 : list event) : sent (l1 ++ l2) = sent l1 ++ sent l2.
Proof. unfold sent. apply flat_map_app. Qed.

Lemma flushed_snoc (d : dir) (T : list event) (p p' : pc) (x : event) :
  flushed d T p ->
  (forall data rerr, p <> AtWrite data rerr) ->
  (forall data rerr, x <> EvRead d data rerr) ->
  flushed d (T ++ [x]) p'.
Proof.
  intros Hf Hp Hx pre data rerr post Heq Hdata.
  apply snoc_split in Heq.
  destruct Heq as [(_ & _ & Hy) | (post0 & -> & HT)].
  - exfalso. eapply Hx. symmetry. exact Hy.
  - destruct (Hf _ _ _ _ HT Hdata) as [[_ Hpc] | (w & post' & ->)].
    + exfalso. eapply Hp. exact Hpc.
    + right. exists w, (post' ++ [x]). reflexivity.
Qed.

Lemma flushed_pc (d : dir) (T : list event) (p p' : pc) :
  flushed d T p ->
  (forall data rerr, p <> AtWrite data rerr) ->
  flushed d T p'.
Proof.
  intros Hf Hp pre data rerr post Heq Hdata.
  destruct (Hf _ _ _ _ Heq Hdata) as [[_ Hpc] | Hw]; [|auto].
  exfalso. eapply Hp. exact Hpc.
Qed.

Lemma flushed_snoc_read (d : dir) (T : list event) (p : pc) data rerr :
  flushed d T p ->
  (forall data rerr, p <> AtWrite data rerr) ->
  flushed d (T ++ [EvRead d data rerr])
    (match data with [] => check rerr | _ :: _ => AtWrite data rerr end).
Proof.
  intros Hf Hp pre data' rerr' post Heq Hdata.
  apply snoc_split in Heq.
  destruct Heq as [(-> & -> & Hy) | (post0 & -> & HT)].
  - injection Hy as -> ->. left. split; [reflexivity|].
    destruct data; [congruence | reflexivity].
  - destruct (Hf _ _ _ _ HT Hdata) as [[_ Hpc] | (w & post' & ->)].
    + exfalso. eapply Hp. exact Hpc.
    + right. exists w, (post' ++ [EvRead d data rerr]). reflexivity.
Qed.

Lemma flushed_snoc_write (d : dir) (T : list event) data rerr w (p' : pc) :
  flushed d T (AtWrite data rerr) ->
  flushed d (T ++ [EvWrite d data w]) p'.
Proof.
  intros Hf pre data' rerr' post Heq Hdata.
  apply snoc_split in Heq.
  destruct Heq as [(_ & _ & Hy) | (post0 & -> & HT)]; [discriminate|].
  destruct (Hf _ _ _ _ HT Hdata) as [[-> Hpc] | (w' & post' & ->)].
  - injection Hpc as <- <-. right. exists w, []. reflexivity.
  - right. exists w', (post' ++ [EvWrite d data w]). reflexivity.
Qed.

Lemma gstep_inv (d : dir) (T : list event) (g : goroutine) :
  ginv d T g ->
  ginv d (T ++ snd (gstep timeout d g)) (fst (gstep timeout d g)).
Proof.
  intros [Hf Hp]. unfold ginv, gstep.
  destruct (g_pc g) as [| |data rerr|rerr|e|] eqn:Hpc; simpl in Hp.
  - (* AtTop *)
    destruct (deadline_before_read timeout d); simpl.
    + split.
      * apply flushed_snoc with (p := AtTop); auto; discriminate.
      * simpl. rewrite sent_app, Hp. reflexivity.
    + rewrite app_nil_r. split; [|exact Hp].
      apply flushed_pc with (p := AtTop); auto; discriminate.
  - (* AtRead *)
    destruct (g_reads g) as [|[data rerr] rest]; simpl.
    + rewrite app_nil_r, Hpc. split; assumption.
    + split.
      * apply flushed_snoc_read with (p := AtRead); auto; discriminate.
      * destruct data as [|b data]; simpl.
        -- destruct rerr as [e|]; simpl.
           ++ split; [rewrite sent_app, Hp; reflexivity|].
              right. left. exists T. reflexivity.
           ++ rewrite sent_app, Hp. reflexivity.
        -- split; [rewrite sent_app, Hp; reflexivity|].
           split; [discriminate|]. exists T. reflexivity.
  - (* AtWrite *)
    destruct Hp as (Hs & Hdata & pre & ->).
    destruct (g_writes g) as [|w rest]; simpl.
    + rewrite app_nil_r, Hpc. split; [assumption|].
      simpl. repeat split; auto. exists pre. reflexivity.
    + split; [apply flushed_snoc_write with (rerr := rerr); assumption|].
      destruct w as [e|]; simpl.
      * split; [rewrite sent_app, Hs; reflexivity|].
        left. exists pre, data, rerr. split; [assumption|].
        rewrite <- app_assoc. reflexivity.
      * split; [rewrite sent_app, Hs; reflexivity|].
        exists pre, data. split; [assumption|].
        rewrite <- app_assoc. reflexivity.
  - (* AtWritten *)
    destruct Hp as (Hs & pre & data & Hdata & ->).
    destruct (deadline_after_write timeout d); simpl.
    + split; [apply flushed_snoc with (p := AtWritten rerr); auto; discriminate|].
      destruct rerr as [e|]; simpl.
      * split; [rewrite sent_app, Hs; reflexivity|].
        right. right. exists pre, data. split; [assumption|]. right.
        rewrite <- app_assoc. reflexivity.
      * rewrite sent_app, Hs. reflexivity.
    + rewrite app_nil_r.
      split; [apply flushed_pc with (p := AtWritten rerr); auto; discriminate|].
      destruct rerr as [e|]; simpl.
      * split; [assumption|].
        right. right. exists pre, data. split; [assumption|]. left. reflexivity.
      * assumption.
  - (* AtSend *)
    destruct Hp as [Hs Hr]. simpl. split.
    + apply flushed_snoc with (p := AtSend e); auto; discriminate.
    + exists T, e. auto.
  - (* Done *)
    simpl. rewrite app_nil_r, Hpc. split; assumption.
Qed.

Lemma dir_eqb_refl (d : dir) : dir_eqb d d = true.
Proof. destruct d; reflexivity. Qed.

Lemma dir_eqb_eq (a b : dir) : dir_eqb a b = true -> a = b.
Proof. destruct a, b; simpl; congruence. Qed.

(** A goroutine only produces events of its own direction. *)
Lemma gstep_events_dir (d d' : dir) (g : goroutine) :
  events_of d' (snd (gstep timeout d g)) =
  if dir_eqb d d' then snd (gstep timeout d g) else [].
Proof.
  unfold gstep, events_of.
  destruct d, d', (g_pc g); simpl;
    repeat match goal with
      | |- context [match ?x with _ => _ end] => destruct x; simpl
      end; reflexivity.
Qed.

Lemma events_of_app (d : dir) (l1 l2 : list event) :
  events_of d (l1 ++ l2) = events_of d l1 ++ events_of d l2.
Proof. apply filter_app. Qed.

Lemma in_sent (d : dir) (e : error) (T : list event) :
  In (EvSend d e) T -> In e (sent T).
Proof.
  intro Hin. unfold sent. apply in_flat_map.
  exists (EvSend d e). simpl. auto.
Qed.

Lemma first_sent (tr : list event) (e : error) (rest : list error) :
  sent tr = e :: rest ->
  exists pre d post, tr = pre ++ EvSend d e :: post /\ sent pre = [].
Proof.
  induction tr as [|ev tr IH]; simpl; [discriminate|].
  destruct ev as [d|d data err|d data err|d e'|e']; simpl; intro H;
    try (destruct (IH H) as (pre & d0 & post & -> & Hpre);
         eexists (_ :: pre), d0, post; split; [reflexivity | exact Hpre]).
  injection H as -> _. exists [], d, tr. auto.
Qed.

Lemma inv_start (w : endpoints) : inv (start w).
Proof.
  split.
  - intro d. destruct d; simpl; (split; [|reflexivity]);
      intros pre data rerr post H; destruct pre; discriminate.
  - simpl. split; [reflexivity | intros e []].
Qed.

Lemma inv_step (t : thread) (st : state) : inv st -> inv (step timeout t st).
Proof.
  intros [Hg Hc]. destruct t as [|d0]; simpl.
  - (* the caller *)
    unfold chan_inv in Hc.
    destruct (returned st) as [e|] eqn:Hret; simpl.
    + split; [exact Hg|]. unfold chan_inv. rewrite Hret. exact Hc.
    + destruct (errChan st) as [|e rest] eqn:Hch.
      * split; [exact Hg|]. unfold chan_inv. rewrite Hret, Hch. exact Hc.
      * destruct Hc as [Hsent _].
        destruct (first_sent _ _ _ Hsent) as (pre & d & post & Hev & Hpre).
        split.
        -- intro d1. simpl. rewrite events_of_app. simpl.
           rewrite app_nil_r. destruct d1; apply Hg.
        -- unfold chan_inv. simpl.
           exists pre, d, (post ++ [EvReturn e]). rewrite Hev.
           rewrite <- app_assoc. simpl. repeat split; auto.
           apply in_or_app. right. simpl. auto.
  - (* a copy goroutine *)
    split.
    + intro d. simpl. rewrite events_of_app, gstep_events_dir.
      destruct d0, d; simpl; try rewrite app_nil_r;
        try apply gstep_inv; apply Hg.
    + unfold chan_inv in *. simpl.
      destruct (returned st) as [e|].
      * destruct Hc as (pre & d & post & Hev & Hpre & Hin).
        exists pre, d, (post ++ snd (gstep timeout d0 (goroutine_of d0 st))).
        rewrite Hev, <- app_assoc. simpl. repeat split; auto.
        apply in_or_app. auto.
      * destruct Hc as [Hsent Hnoret]. split.
        -- rewrite sent_app, Hsent. reflexivity.
        -- intros e Hin. apply in_app_or in Hin. destruct Hin as [Hin|Hin].
           ++ eapply Hnoret; eauto.
           ++ assert (Hd : In (EvReturn e)
                             (events_of d0
                                (snd (gstep timeout d0 (goroutine_of d0 st))))).
              { rewrite gstep_events_dir, dir_eqb_refl. exact Hin. }
              apply filter_In in Hd. destruct Hd as [_ Hd]. discriminate.
Qed.

Lemma run_snoc (sched : list thread) (t : thread) (st : state) :
  run timeout (sched ++ [t]) st = step timeout t (run timeout sched st).
Proof. unfold run. rewrite fold_left_app. reflexivity. Qed.

Lemma inv_run (sched : list thread) (st : state) :
  inv st -> inv (run timeout sched st).
Proof.
  revert st. induction sched as [|t sched IH]; intros st H; simpl; auto.
  apply IH. apply inv_step. exact H.
Qed.

Lemma inv_pipePair (w : endpoints) (sched : list thread) :
  inv (pipePair timeout w sched).
Proof. apply inv_run, inv_start. Qed.

End RelayFacts.


Section RelayChannel.
Import Go Relay RelaySpec.
Local Open Scope list_scope.
Variable timeout : Z.

Lemma chan_contents_step (t : thread) (st : state) :
  chan_contents st -> chan_contents (step timeout t st).
Proof.
  unfold chan_contents, received. intro H. destruct t as [|d]; simpl.
  - destruct (returned st) as [e|] eqn:Hret; simpl.
    + rewrite Hret. exact H.
    + destruct (errChan st) as [|e rest] eqn:Hch; simpl.
      * rewrite Hret, Hch. exact H.
      * rewrite sent_app, H. simpl. rewrite app_nil_r. reflexivity.
  - rewrite sent_app, H, app_assoc. reflexivity.
Qed.

Lemma chan_contents_run (sched : list thread) (st : state) :
  chan_contents st -> chan_contents (run timeout sched st).
Proof.
  revert st. induction sched as [|t sched IH]; intros st H; simpl; auto.
  apply IH, chan_contents_step, H.
Qed.

Lemma sent_by_direction (tr : list event) :
  List.length (sent tr) =
  (List.length (sent (events_of TcpToStream tr))
   + List.length (sent (events_of StreamToTcp tr)))%nat.
Proof.
  induction tr as [|ev tr IH]; simpl; [reflexivity|].
  destruct ev as [d|d data err|d data err|d e|e]; try destruct d; simpl;
    rewrite IH; lia.
Qed.

Lemma one_send_per_direction (d : dir) (T : list event) (g : goroutine) :
  ginv d T g -> (List.length (sent T) <= 1)%nat.
Proof.
  intros [_ Hp].
  destruct (g_pc g) as [| |data rerr|rerr|e|]; simpl in Hp.
  - rewrite Hp. simpl. lia.
  - rewrite Hp. simpl. lia.
  - destruct Hp as [Hp _]. rewrite Hp. simpl. lia.
  - destruct Hp as [Hp _]. rewrite Hp. simpl. lia.
  - destruct Hp as [Hp _]. rewrite Hp. simpl. lia.
  - destruct Hp as (T0 & e & -> & Hs & _).
    rewrite sent_app, Hs. simpl. lia.
Qed.

(** At most two errors are ever sent, so the channel of capacity two never
    makes a send wait. *)
Lemma errChan_within_capacity (w : endpoints) (sched : list thread) :
  (List.length (sent (events (pipePair timeout w sched))) <= 2)%nat
  /\ (List.length (errChan (pipePair timeout w sched)) <= 2)%nat.
Proof.
  destruct (inv_pipePair timeout w sched) as [Hg _].
  assert (Hc : chan_contents (pipePair timeout w sched)).
  { apply chan_contents_run. reflexivity. }
  pose proof (one_send_per_direction _ _ _ (Hg TcpToStream)) as H1.
  pose proof (one_send_per_direction _ _ _ (Hg StreamToTcp)) as H2.
  pose proof (sent_by_direction (events (pipePair timeout w sched))) as Hsum.
  split; [lia|].
  unfold chan_contents in Hc.
  assert (Hlen : List.length (sent (events (pipePair timeout w sched)))
                 = (List.length (received (pipePair timeout w sched))
                    + List.length (errChan (pipePair timeout w sched)))%nat).
  { rewrite Hc. apply length_app. }
  lia.
Qed.

End RelayChannel.

Section RelayClaims.
Import Go Relay RelaySpec.
Local Open Scope list_scope.
Variable timeout : Z.

Lemma send_is_last (d : dir) (e : error) (w : endpoints)
    (sched : list thread) :
  In (EvSend d e) (events (pipePair timeout w sched)) ->
  exists T0,
    events_of d (events (pipePair timeout w sched)) = T0 ++ [EvSend d e]
    /\ sent T0 = []
    /\ reported d T0 e.
Proof.
  intro Hin.
  destruct (inv_pipePair timeout w sched) as [Hg _].
  destruct (Hg d) as [_ Hp].
  assert (HinT : In (EvSend d e)
                    (events_of d (events (pipePair timeout w sched)))).
  { apply filter_In. split; [exact Hin|]. simpl. apply dir_eqb_refl. }
  assert (Hnil : sent (events_of d (events (pipePair timeout w sched))) = []
                 -> False).
  { intro Hs. apply in_sent in HinT. rewrite Hs in HinT. destruct HinT. }
  destruct (g_pc (goroutine_of d (pipePair timeout w sched))); simpl in Hp;
    try (exfalso; apply Hnil; tauto).
  destruct Hp as (T0 & e' & HT & Hs & Hr).
  rewrite HT in HinT. apply in_app_or in HinT. destruct HinT as [HinT|HinT].
  - apply in_sent in HinT. rewrite Hs in HinT. destruct HinT.
  - destruct HinT as [Heq|[]]. injection Heq as ->.
    exists T0. auto.
Qed.

Lemma caller_receives (d : dir) (e : error) (w : endpoints)
    (sched : list thread) :
  In (EvSend d e) (events (pipePair timeout w sched)) ->
  returned (pipePair timeout w (sched ++ [Main])) <> None.
Proof.
  intro Hin. unfold pipePair. rewrite run_snoc.
  fold (pipePair timeout w sched).
  destruct (inv_pipePair timeout w sched) as [_ Hc].
  unfold chan_inv in Hc. simpl.
  destruct (returned (pipePair timeout w sched)) as [e0|] eqn:Hret.
  - rewrite Hret. discriminate.
  - destruct Hc as [Hsent _]. apply in_sent in Hin. rewrite Hsent in Hin.
    destruct (errChan (pipePair timeout w sched)); [destruct Hin|].
    simpl. discriminate.
Qed.

End RelayClaims.

(** Claim C8, as the code has it.  Under every schedule of the two copy
    goroutines and the caller, and whatever the endpoints answer:
    - in each direction, a read that returned data is followed at once by
      the write of exactly that data (unless it is the direction's last
      event so far), hence before the direction sends any error;
    - a direction sends one error, as its last event: the error of the write
      when the write of the data just read fails, otherwise the error of the
      read (after its data, if any, was written);
    - the error [pipePair] returns is the first one sent on the channel by
      either direction;
    - once a direction has sent its error, the caller's receive returns. *)
Theorem relay_writes_before_reporting :
  forall (timeout : Z) (w : Relay.endpoints) (sched : list Relay.thread),
    let st := Relay.pipePair timeout w sched in
    let tr := Relay.events st in
    (forall d pre data rerr post,
        Relay.events_of d tr = (pre ++ Relay.EvRead d data rerr :: post)%list ->
        data <> [] ->
        (post = [] \/ exists wr post', post = Relay.EvWrite d data wr :: post')
        /\ (forall e, In (Relay.EvSend d e) post ->
            exists wr post', post = Relay.EvWrite d data wr :: post'))
    /\ (forall d e,
          In (Relay.EvSend d e) tr ->
          exists T0,
            Relay.events_of d tr = (T0 ++ [Relay.EvSend d e])%list
            /\ Relay.sent T0 = []
            /\ RelaySpec.reported d T0 e)
    /\ (forall e,
          Relay.returned st = Some e ->
          exists pre d post,
            tr = (pre ++ Relay.EvSend d e :: post)%list
            /\ Relay.sent pre = []
            /\ In (Relay.EvReturn e) post)
    /\ (forall d e,
          In (Relay.EvSend d e) tr ->
          Relay.returned
            (Relay.pipePair timeout w (sched ++ [Relay.Main])%list) <> None).
Proof.
  intros timeout w sched st tr.
  destruct (inv_pipePair timeout w sched) as [Hg Hc].
  fold st in Hg, Hc.
  split; [|split; [|split]].
  - intros d pre data rerr post Heq Hdata.
    destruct (Hg d) as [Hf _].
    destruct (Hf pre data rerr post Heq Hdata) as [[-> _]|Hw].
    + split; [left; reflexivity | intros e []].
    + split; [right; exact Hw | intros e _; exact Hw].
  - intros d e Hin. now apply send_is_last.
  - intros e Hret. unfold RelaySpec.chan_inv in Hc. rewrite Hret in Hc.
    exact Hc.
  - intros d e Hin. eapply caller_receives; eauto.
Qed.

Lemma relay_writes_before_reporting_witness :
  exists pre d post,
    Relay.events
      (Relay.pipePair 0 RelaySpec.client_listens
         (Relay.alone Relay.StreamToTcp 5))
    = (pre ++ Relay.EvSend d "EOF" :: post)%list
    /\ Relay.sent pre = []
    /\ In (Relay.EvReturn "EOF") post.
Proof.
  refine (proj1 (proj2 (proj2 (relay_writes_before_reporting
                                 0%Z RelaySpec.client_listens
                                 (Relay.alone Relay.StreamToTcp 5))))
            "EOF" _).
  reflexivity.
Defined.

(** Claim C8, as stated, fails when the write of the bytes just read fails.
    The tunnel stream's read returns three bytes together with the end of
    the stream; the write of these bytes to the local client fails.  The
    first error produced is the read's, the bytes are not written, and the
    relay returns the write's error. *)
Lemma relay_returns_the_write_error :
  let st := Relay.pipePair 0 RelaySpec.client_gone
              (Relay.alone Relay.StreamToTcp 4) in
  Relay.events st =
    [Relay.EvRead Relay.StreamToTcp [x61; x62; x63] (Some "EOF");
     Relay.EvWrite Relay.StreamToTcp [x61; x62; x63] (Some "broken pipe");
     Relay.EvSend Relay.StreamToTcp "broken pipe";
     Relay.EvReturn "broken pipe"]
  /\ hd_error (RelaySpec.produced (Relay.events st)) = Some "EOF"
  /\ Relay.returned st = Some "broken pipe"
  /\ Relay.returned st <> hd_error (RelaySpec.produced (Relay.events st)).
Proof.
  repeat split. vm_compute. discriminate.
Qed.

(** * Further properties of the code *)

(** ** The tunnel server: the session *)

Section ClientFacts.
Import Go Acl Prog Core CoreObs.
Context {S : Type} (h : env S).

(** What [handleControlStream] returns, against what it did. *)
Lemma handleControlStream_result (srv : Server) (cs : Session)
    (stream : Stream) (s : S) :
  let p := handleControlStream srv cs stream in
  let tr := run_trace h p s in
  match run_value h p s with
  | (auth, ok, Some e) =>
      auth = None /\ ok = false
      /\ (forall st sh, ~ In (EvPackServerHello st sh None) tr)
      /\ count is_congestion tr = 0%nat
  | (auth, ok, None) =>
      exists ch msg nSend nRecv,
        auth = Some (ch_Auth ch)
        /\ In (EvUnpackClientHello stream (inl ch)) tr
        /\ In (EvAuthFunc (RemoteAddr cs) (ch_Auth ch) nSend nRecv (ok, msg)) tr
        /\ In (EvPackServerHello stream
                 {| sh_OK := ok;
                    sh_Rate := {| SendBPS := nSend; RecvBPS := nRecv |};
                    sh_Message := msg |} None) tr
        /\ filter is_congestion tr =
           match ok, congestionFactory srv with
           | true, Some f => [EvSetCongestionControl cs f nSend]
           | _, _ => []
           end
  end.
Proof.
  unfold run_trace, run_value, handleControlStream. simpl.
  destruct (h (UnpackClientHello stream) s) as [[ch|err] s1]; simpl.
  - destruct ((SendBPS (ch_Rate ch) =? 0)%N || (RecvBPS (ch_Rate ch) =? 0)%N);
      simpl.
    + repeat split; auto. intros st sh Hin. in_cases.
    + match goal with
      | |- context [h (AuthFunc ?a ?b ?c ?d) s1] =>
          destruct (h (AuthFunc a b c d) s1) as [[ok msg] s2]; simpl
      end.
      match goal with
      | |- context [h (PackServerHello ?a ?b) s2] =>
          destruct (h (PackServerHello a b) s2) as [r0 s3]; simpl
      end.
      destruct r0 as [e|]; simpl.
      * repeat split; auto. intros st sh Hin. in_cases.
      * destruct ok, (congestionFactory srv); simpl;
          do 4 eexists; repeat split; eauto 10.
  - repeat split; auto. intros st sh Hin. in_cases.
Qed.

(** [handleControlStream] only reads the hello, asks the authentication
    callback, writes the hello and sets the congestion control. *)
Lemma handleControlStream_events (srv : Server) (cs : Session)
    (stream : Stream) (s : S) :
  Forall (fun e => match e with
                   | EvUnpackClientHello _ _ | EvAuthFunc _ _ _ _ _
                   | EvPackServerHello _ _ _ | EvSetCongestionControl _ _ _ =>
                       True
                   | _ => False
                   end)
         (run_trace h (handleControlStream srv cs stream) s).
Proof.
  unfold run_trace, handleControlStream. simpl.
  paths h; repeat constructor.
Qed.

Lemma serveLoop_started (fuel : nat) (cs : Session) (auth : bytes) (s : S) :
  let tr := run_trace h (serveLoop fuel cs auth) s in
  started tr = accepted tr
  /\ (forall a au st, In (EvGoHandleStream a au st) tr ->
      a = RemoteAddr cs /\ au = auth).
Proof.
  unfold run_trace. revert s.
  induction fuel as [|fuel IH]; intro s; simpl.
  - split; [reflexivity | intros a au st []].
  - destruct (h (AcceptStream cs ctxBackground) s) as [[st|e] s1]; simpl.
    + destruct (h (GoHandleStream (RemoteAddr cs) auth st) s1) as [u s2].
      simpl. destruct (IH s2) as [Heq Hgo]. split.
      * now rewrite Heq.
      * intros a au st' [Hin|[Hin|Hin]]; try discriminate.
        -- injection Hin as <- <- _. auto.
        -- eauto.
    + split; [reflexivity|]. intros a au st [Hin|[]]. discriminate.
Qed.

Lemma serveLoop_accept_only (fuel : nat) (cs : Session) (auth : bytes) (s : S)
    (e : event) :
  In e (run_trace h (serveLoop fuel cs auth) s) ->
  is_close e = false /\ is_hello e = false /\ is_congestion e = false
  /\ is_auth e = false.
Proof.
  intro Hin.
  pose proof (serveLoop_events h fuel cs auth s) as Hall.
  rewrite Forall_forall in Hall. apply Hall in Hin.
  destruct e; try contradiction; auto.
Qed.

Lemma handleControlStream_quiet (srv : Server) (cs : Session)
    (stream : Stream) (s : S) (e : event) :
  In e (run_trace h (handleControlStream srv cs stream) s) ->
  is_close e = false /\ is_go e = false
  /\ match e with EvAcceptStream _ _ _ => False | _ => True end.
Proof.
  intro Hin.
  pose proof (handleControlStream_events srv cs stream s) as Hall.
  rewrite Forall_forall in Hall. apply Hall in Hin.
  destruct e; try contradiction; auto.
Qed.

Lemma count_none {E : Type} (t : E -> bool) (l : list E) :
  (forall e, In e l -> t e = false) -> count t l = 0%nat.
Proof.
  unfold count. induction l as [|a l IH]; intro H; simpl; [reflexivity|].
  rewrite (H a (or_introl eq_refl)). apply IH. intros e He. apply H. now right.
Qed.

(** The run of [handleClient], cut at its calls of [handleControlStream]
    and of the serving loop. *)
Lemma handleClient_shape (fuel : nat) (srv : Server) (cs : Session) (s : S) :
  let p := handleClient fuel srv cs in
  let tr := run_trace h p s in
  let a := h (AcceptStream cs ctxProtocolTimeout) s in
  match fst a with
  | inr e =>
      tr = [EvAcceptStream cs ctxProtocolTimeout (inr e);
            EvCloseWithError cs closeErrorCodeProtocol "protocol error"]
      /\ run_value h p s = true
  | inl stream =>
      let c := handleControlStream srv cs stream in
      let T1 := run_trace h c (snd a) in
      let front := EvAcceptStream cs ctxProtocolTimeout (inl stream) :: T1 in
      match run_value h c (snd a) with
      | (_, _, Some _) =>
          tr = (front ++ [EvCloseWithError cs closeErrorCodeProtocol
                            "protocol error"])%list
          /\ run_value h p s = true
      | (_, false, None) =>
          tr = (front ++ [EvCloseWithError cs closeErrorCodeAuth
                            "auth error"])%list
          /\ run_value h p s = true
      | (auth, true, None) =>
          let l := serveLoop fuel cs (authBytes auth) in
          let s1 := final h c (snd a) in
          let T2 := run_trace h l s1 in
          if run_value h l s1
          then tr = (front ++ T2 ++
                     [EvCloseWithError cs closeErrorCodeGeneric ""])%list
               /\ run_value h p s = true
          else tr = (front ++ T2)%list /\ run_value h p s = false
      end
  end.
Proof.
  unfold run_trace, run_value, handleClient.
  cbn [bind trace value do perform].
  destruct (h (AcceptStream cs ctxProtocolTimeout) s) as [[stream|e] s1];
    cbn [bind trace value do perform fst snd log]; [|auto].
  rewrite trace_bind, value_bind.
  destruct (value h (handleControlStream srv cs stream) s1)
    as [[auth [|]] [e|]];
    cbn [bind trace value do perform fst snd log]; auto.
  rewrite trace_bind, value_bind.
  destruct (value h (serveLoop fuel cs (authBytes auth))
              (final h (handleControlStream srv cs stream) s1));
    cbn [bind trace value do perform fst snd log].
  - auto.
  - rewrite app_nil_r. auto.
Qed.

End ClientFacts.

(** Extra X1.  [handleClient] closes the session exactly once, as the last
    thing it does, whenever it returns; and the close code tells how far the
    handshake got: the generic code (empty reason) only after a server hello
    with [OK: true] was written; the auth code ("auth error") only after a
    server hello with [OK: false] was written, no stream handler having been
    started; the protocol code ("protocol error") only when no server hello
    was written at all, no stream handler having been started. *)
Theorem session_closed_once_with_reason :
  forall (S : Type) (h : Core.env S) (s : S) (fuel : nat)
         (srv : Core.Server) (cs : Core.Session),
    let p := Core.handleClient fuel srv cs in
    let tr := Core.run_trace h p s in
    (Core.run_value h p s = true ->
     exists pre code msg,
       tr = (pre ++ [Core.EvCloseWithError cs code msg])%list
       /\ Prog.count CoreObs.is_close pre = 0%nat)
    /\ (Core.run_value h p s = false ->
        Prog.count CoreObs.is_close tr = 0%nat)
    /\ (forall cs' code msg,
          In (Core.EvCloseWithError cs' code msg) tr ->
          cs' = cs
          /\ match code with
             | Core.closeErrorCodeGeneric =>
                 msg = ""
                 /\ exists st sh,
                     Core.sh_OK sh = true
                     /\ In (Core.EvPackServerHello st sh None) tr
             | Core.closeErrorCodeAuth =>
                 msg = "auth error"
                 /\ (exists st sh,
                        Core.sh_OK sh = false
                        /\ In (Core.EvPackServerHello st sh None) tr)
                 /\ Prog.count CoreObs.is_go tr = 0%nat
             | Core.closeErrorCodeProtocol =>
                 msg = "protocol error"
                 /\ (forall st sh,
                        ~ In (Core.EvPackServerHello st sh None) tr)
                 /\ Prog.count CoreObs.is_go tr = 0%nat
             end).
Proof.
  intros S h s fuel srv cs p tr.
  pose proof (handleClient_shape h fuel srv cs s) as Hshape.
  cbv zeta in Hshape. fold p tr in Hshape. clearbody tr. clearbody p.
  destruct (fst (h (Core.AcceptStream cs Core.ctxProtocolTimeout) s))
    as [stream|e0].
  2:{ destruct Hshape as [Htr Hv]. subst tr. rewrite Hv.
      split; [|split].
      - intros _. exists [Core.EvAcceptStream cs Core.ctxProtocolTimeout
                            (inr e0)], Core.closeErrorCodeProtocol,
                   "protocol error". auto.
      - discriminate.
      - intros cs' code msg Hin. in_cases.
        repeat split; auto. intros st sh Hin. in_cases. }
  set (s1 := snd (h (Core.AcceptStream cs Core.ctxProtocolTimeout) s)) in *.
  pose proof (handleControlStream_result h srv cs stream s1) as Hres.
  cbv zeta in Hres.
  pose proof (handleControlStream_quiet h srv cs stream s1) as Hquiet.
  set (T1 := Core.run_trace h (Core.handleControlStream srv cs stream) s1) in *.
  assert (Hc1 : Prog.count CoreObs.is_close T1 = 0%nat).
  { apply count_none. intros e He. apply Hquiet, He. }
  assert (Hg1 : Prog.count CoreObs.is_go T1 = 0%nat).
  { apply count_none. intros e He. apply Hquiet, He. }
  assert (Hn1 : forall cs' code msg, ~ In (Core.EvCloseWithError cs' code msg) T1).
  { intros cs' code msg Hin. apply Hquiet in Hin. simpl in Hin.
    destruct Hin as [Hin _]. discriminate. }
  clear Hquiet.
  destruct (Core.run_value h (Core.handleControlStream srv cs stream) s1)
    as [[auth ok] [e|]]; clearbody T1.
  - (* the handshake failed *)
    assert (Hshape' :
              tr = ((Core.EvAcceptStream cs Core.ctxProtocolTimeout
                       (inl stream) :: T1)
                    ++ [Core.EvCloseWithError cs Core.closeErrorCodeProtocol
                          "protocol error"])%list
              /\ Core.run_value h p s = true)
      by (destruct ok; exact Hshape).
    clear Hshape.
    destruct Hshape' as [Htr Hv]. subst tr. destruct Hres as (_ & _ & Hnop & _).
    rewrite Hv. split; [|split].
    + intros _. eexists _, _, _. split; [reflexivity|].
      simpl. unfold Prog.count in *. simpl. exact Hc1.
    + discriminate.
    + intros cs' code msg Hin.
      simpl in Hin. destruct Hin as [Hin|Hin]; [discriminate|].
      apply in_app_or in Hin. destruct Hin as [Hin|Hin];
        [exfalso; eapply Hn1; eauto|].
      in_cases. repeat split; auto.
      * intros st sh Hin. simpl in Hin.
        destruct Hin as [Hin|Hin]; [discriminate|].
        apply in_app_or in Hin. destruct Hin as [Hin|Hin].
        -- eapply Hnop; eauto.
        -- in_cases.
      * simpl. unfold Prog.count in *. simpl.
        rewrite filter_app, length_app, Hg1. reflexivity.
  - destruct Hres as (ch & m & nS & nR & _ & _ & _ & Hpack & _).
    destruct ok.
    + (* serving *)
      pose proof (serveLoop_accept_only h fuel cs (Core.authBytes auth)
                    (Prog.final h (Core.handleControlStream srv cs stream) s1))
        as Hloop.
      set (T2 := Core.run_trace h (Core.serveLoop fuel cs (Core.authBytes auth))
                   (Prog.final h (Core.handleControlStream srv cs stream) s1))
        in *.
      assert (Hc2 : Prog.count CoreObs.is_close T2 = 0%nat).
      { apply count_none. intros e He. apply Hloop, He. }
      assert (Hn2 : forall cs' code msg,
                 ~ In (Core.EvCloseWithError cs' code msg) T2).
      { intros cs' code msg Hin. apply Hloop in Hin. simpl in Hin.
        destruct Hin as [Hin _]. discriminate. }
      clear Hloop.
      destruct (Core.run_value h (Core.serveLoop fuel cs (Core.authBytes auth))
                  (Prog.final h (Core.handleControlStream srv cs stream) s1));
        clearbody T2.
      * destruct Hshape as [Htr Hv]. subst tr. rewrite Hv. split; [|split].
        -- intros _. eexists _, _, _. split.
           ++ rewrite app_assoc. reflexivity.
           ++ unfold Prog.count in *. simpl.
              rewrite filter_app, length_app, Hc1, Hc2. reflexivity.
        -- discriminate.
        -- intros cs' code msg Hin.
           simpl in Hin. destruct Hin as [Hin|Hin]; [discriminate|].
           apply in_app_or in Hin. destruct Hin as [Hin|Hin];
             [exfalso; eapply Hn1; eauto|].
           apply in_app_or in Hin. destruct Hin as [Hin|Hin];
             [exfalso; eapply Hn2; eauto|].
           in_cases. repeat split; auto.
           eexists _, _. split; [|right; apply in_or_app; left;
                                  exact Hpack].
           reflexivity.
      * destruct Hshape as [Htr Hv]. subst tr. rewrite Hv. split; [|split].
        -- discriminate.
        -- intros _. unfold Prog.count in *. simpl.
           rewrite filter_app, length_app, Hc1, Hc2. reflexivity.
        -- intros cs' code msg Hin.
           simpl in Hin. destruct Hin as [Hin|Hin]; [discriminate|].
           apply in_app_or in Hin. destruct Hin as [Hin|Hin];
             exfalso; [eapply Hn1 | eapply Hn2]; eauto.
    + (* rejected by the authentication callback *)
      destruct Hshape as [Htr Hv]. subst tr. rewrite Hv. split; [|split].
      * intros _. eexists _, _, _. split; [reflexivity|].
        simpl. unfold Prog.count in *. simpl. exact Hc1.
      * discriminate.
      * intros cs' code msg Hin.
        simpl in Hin. destruct Hin as [Hin|Hin]; [discriminate|].
        apply in_app_or in Hin. destruct Hin as [Hin|Hin];
          [exfalso; eapply Hn1; eauto|].
        in_cases. repeat split; auto.
        -- eexists _, _. split; [|right; apply in_or_app; left;
                                   exact Hpack].
           reflexivity.
        -- simpl. unfold Prog.count in *. simpl.
           rewrite filter_app, length_app, Hg1. reflexivity.
Qed.

Lemma flat_map_none {A B : Type} (f : A -> list B) (l : list A) :
  (forall a, In a l -> f a = []) -> flat_map f l = [].
Proof.
  induction l as [|a l IH]; intro H; simpl; [reflexivity|].
  rewrite (H a (or_introl eq_refl)). apply IH. intros b Hb. apply H. now right.
Qed.

(** Extra X2.  In [handleClient] a stream handler is started for every
    stream the peer opens during the serving loop, in the order of the
    accepts, and for no other stream.  Every handler is given the peer's
    address and the token of the client hello, and none is started unless
    the authentication callback accepted that token and the server hello
    with [OK: true] was written without error. *)
Theorem streams_started_only_after_auth :
  forall (S : Type) (h : Core.env S) (s : S) (fuel : nat)
         (srv : Core.Server) (cs : Core.Session),
    let tr := Core.run_trace h (Core.handleClient fuel srv cs) s in
    CoreObs.started tr = CoreObs.accepted tr
    /\ (forall a au st,
          In (Core.EvGoHandleStream a au st) tr ->
          a = Core.RemoteAddr cs
          /\ exists stream ch msg nSend nRecv,
              In (Core.EvUnpackClientHello stream (inl ch)) tr
              /\ au = Core.ch_Auth ch
              /\ In (Core.EvAuthFunc (Core.RemoteAddr cs) au nSend nRecv
                       (true, msg)) tr
              /\ In (Core.EvPackServerHello stream
                       {| Core.sh_OK := true;
                          Core.sh_Rate := {| Core.SendBPS := nSend;
                                             Core.RecvBPS := nRecv |};
                          Core.sh_Message := msg |} None) tr).
Proof.
  intros S h s fuel srv cs tr.
  pose proof (handleClient_shape h fuel srv cs s) as Hshape.
  cbv zeta in Hshape. fold tr in Hshape. clearbody tr.
  destruct (fst (h (Core.AcceptStream cs Core.ctxProtocolTimeout) s))
    as [stream|e0].
  2:{ destruct Hshape as [Htr _]. subst tr. split; [reflexivity|].
      intros a au st Hin. in_cases. }
  set (s1 := snd (h (Core.AcceptStream cs Core.ctxProtocolTimeout) s)) in *.
  pose proof (handleControlStream_result h srv cs stream s1) as Hres.
  cbv zeta in Hres.
  pose proof (handleControlStream_quiet h srv cs stream s1) as Hquiet.
  set (T1 := Core.run_trace h (Core.handleControlStream srv cs stream) s1) in *.
  assert (Hst1 : CoreObs.started T1 = []).
  { apply flat_map_none. intros e He. apply Hquiet in He.
    destruct e; simpl in He; try reflexivity. destruct He as (_ & He & _).
    discriminate. }
  assert (Hac1 : CoreObs.accepted T1 = []).
  { apply flat_map_none. intros e He. apply Hquiet in He.
    destruct e; simpl in He; try reflexivity. destruct He as (_ & _ & []). }
  assert (Hg1 : forall a au st, ~ In (Core.EvGoHandleStream a au st) T1).
  { intros a au st Hin. apply Hquiet in Hin. simpl in Hin.
    destruct Hin as (_ & Hin & _). discriminate. }
  clear Hquiet.
  destruct (Core.run_value h (Core.handleControlStream srv cs stream) s1)
    as [[auth ok] [e|]]; clearbody T1.
  - assert (Htr : tr = ((Core.EvAcceptStream cs Core.ctxProtocolTimeout
                           (inl stream) :: T1)
                        ++ [Core.EvCloseWithError cs
                              Core.closeErrorCodeProtocol
                              "protocol error"])%list)
      by (destruct ok; apply Hshape).
    subst tr. unfold CoreObs.started, CoreObs.accepted in *. simpl.
    rewrite !flat_map_app, Hst1, Hac1. split; [reflexivity|].
    intros a au st [Hin|Hin]; [discriminate|].
    apply in_app_or in Hin. destruct Hin as [Hin|Hin];
      [exfalso; eapply Hg1; eauto | in_cases].
  - destruct Hres as (ch & m & nS & nR & Hauth & Hun & Hau & Hpack & _).
    destruct ok.
    + pose proof (serveLoop_started h fuel cs (Core.authBytes auth)
                    (Prog.final h (Core.handleControlStream srv cs stream) s1))
        as [Heq Hgo].
      set (T2 := Core.run_trace h (Core.serveLoop fuel cs (Core.authBytes auth))
                   (Prog.final h (Core.handleControlStream srv cs stream) s1))
        in *.
      assert (Htr : exists tail,
                 tr = ((Core.EvAcceptStream cs Core.ctxProtocolTimeout
                          (inl stream) :: T1) ++ T2 ++ tail)%list
                 /\ (tail = [] \/
                     tail = [Core.EvCloseWithError cs
                               Core.closeErrorCodeGeneric ""])).
      { destruct (Core.run_value h
                    (Core.serveLoop fuel cs (Core.authBytes auth))
                    (Prog.final h (Core.handleControlStream srv cs stream) s1));
          destruct Hshape as [Htr _].
        - eexists. split; [exact Htr | auto].
        - exists []. rewrite app_nil_r. auto. }
      clear Hshape. clearbody T2.
      destruct Htr as (tail & -> & Htail). split.
      * unfold CoreObs.started, CoreObs.accepted in *. simpl.
        rewrite !flat_map_app, Hst1, Hac1, Heq.
        destruct Htail as [-> | ->]; reflexivity.
      * intros a au st [Hin|Hin]; [discriminate|].
        apply in_app_or in Hin. destruct Hin as [Hin|Hin];
          [exfalso; eapply Hg1; eauto|].
        apply in_app_or in Hin. destruct Hin as [Hin|Hin].
        -- destruct (Hgo a au st Hin) as [-> ->]. split; [reflexivity|].
           subst auth. simpl.
           exists stream, ch, m, nS, nR.
           repeat split; try (right; apply in_or_app; left; assumption).
        -- destruct Htail as [-> | ->]; in_cases.
    + destruct Hshape as [Htr _]. subst tr.
      unfold CoreObs.started, CoreObs.accepted in *. simpl.
      rewrite !flat_map_app, Hst1, Hac1. split; [reflexivity|].
      intros a au st [Hin|Hin]; [discriminate|].
      apply in_app_or in Hin. destruct Hin as [Hin|Hin];
        [exfalso; eapply Hg1; eauto | in_cases].
Qed.

(** Extra X3.  What [handleControlStream] returns against what it did.  When
    it returns an error, the token is nil, the flag is false, no server hello
    was written successfully and the congestion control was not touched.
    When it returns no error, the token is the one of the hello read, the
    flag is the verdict of the authentication callback, the server hello
    carrying that verdict was written without error, and the congestion
    control was set exactly when the verdict is positive and a factory is
    configured, with the send rate advertised in the hello. *)
Theorem handshake_result_matches_trace :
  forall (S : Type) (h : Core.env S) (s : S) (srv : Core.Server)
         (cs : Core.Session) (stream : Go.Stream),
    let p := Core.handleControlStream srv cs stream in
    let tr := Core.run_trace h p s in
    match Core.run_value h p s with
    | (auth, ok, Some e) =>
        auth = None /\ ok = false
        /\ (forall st sh, ~ In (Core.EvPackServerHello st sh None) tr)
        /\ Prog.count CoreObs.is_congestion tr = 0%nat
    | (auth, ok, None) =>
        exists ch msg nSend nRecv,
          auth = Some (Core.ch_Auth ch)
          /\ In (Core.EvUnpackClientHello stream (inl ch)) tr
          /\ In (Core.EvAuthFunc (Core.RemoteAddr cs) (Core.ch_Auth ch)
                   nSend nRecv (ok, msg)) tr
          /\ In (Core.EvPackServerHello stream
                   {| Core.sh_OK := ok;
                      Core.sh_Rate := {| Core.SendBPS := nSend;
                                         Core.RecvBPS := nRecv |};
                      Core.sh_Message := msg |} None) tr
          /\ filter CoreObs.is_congestion tr =
             match ok, Core.congestionFactory srv with
             | true, Some f => [Core.EvSetCongestionControl cs f nSend]
             | _, _ => []
             end
    end.
Proof.
  intros S h s srv cs stream. apply handleControlStream_result.
Qed.

(** ** The tunnel server: one stream *)

Section StreamMoreFacts.
Import Go Acl Prog Core CoreObs.
Context {net : NetLib} {S : Type} (h : env S).

Ltac core_unfold :=
  unfold run_trace, run_value, handleStream, handleTCP, handleTCP_dial,
    handleTCP_established, count, dialed, closed in *;
  simpl in *.

(** Extra X4.  [handleStream] closes its stream exactly once, as the last
    thing it does, on every path. *)
Theorem stream_closed_once_at_the_end (srv : Server) (ra : Addr) (auth : bytes)
    (st : Stream) (s : S) :
  let tr := run_trace h (handleStream srv ra auth st) s in
  exists pre, tr = (pre ++ [EvStreamClose st])%list
              /\ count is_stream_close pre = 0%nat.
Proof.
  core_unfold.
  paths h;
    match goal with
    | |- exists pre, ?l = _ /\ _ => exists (removelast l)
    end; split; reflexivity.
Qed.

(** Extra X5.  When the client request cannot be read, or asks for UDP,
    [handleStream] does nothing but close the stream: no lookup, no hook,
    no dial, no response. *)
Theorem udp_or_unreadable_request_is_dropped (srv : Server) (ra : Addr) (auth : bytes)
    (st : Stream) (s : S) :
  let tr := run_trace h (handleStream srv ra auth st) s in
  forall st' r,
    In (EvUnpackClientRequest st' r) tr ->
    match r with
    | inl req => req_UDP req = true
    | inr _ => True
    end ->
    tr = [EvUnpackClientRequest st r; EvStreamClose st].
Proof.
  intros tr st' r Hin Hr. subst tr. core_unfold.
  destruct (h (UnpackClientRequest st) s) as [[req|e] s1]; simpl in *.
  - destruct (req_UDP req) eqn:Hudp; simpl in *.
    + destruct Hin as [Hin|Hin]; [|in_cases].
      injection Hin as <- <-. reflexivity.
    + exfalso. destruct Hin as [Hin|Hin].
      * injection Hin as <- <-. congruence.
      * paths h; in_cases.
  - destruct Hin as [Hin|Hin]; [|in_cases].
    injection Hin as <- <-. reflexivity.
Qed.

(** Extra X6.  At the tunnel server the actions Direct and Proxy are served
    alike: one dial, to the requested address as the peer wrote it, with
    the dial timeout. *)
Theorem proxy_is_direct_at_tunnel_server (srv : Server) (ra : Addr) (auth : bytes)
    (st : Stream) (reqAddr : string) (s : S) :
  let tr := run_trace h (handleTCP srv ra auth st reqAddr) s in
  forall a au r act arg,
    In (EvTcpRequestFunc a au r act arg) tr ->
    act = ActionDirect \/ act = ActionProxy ->
    exists res,
      filter is_dial tr = [EvDialTimeout "tcp" reqAddr dialTimeout res].
Proof.
  intros tr a au r act arg Hin Hact. subst tr. core_unfold.
  destruct Hact; subst; paths h; in_cases; eauto.
Qed.

(** Extra X7.  When the outbound dial of the tunnel server fails with [e],
    the run ends with that dial, a response [OK: false] carrying [e] as its
    message, and the error hook called with [e]; nothing is relayed and
    nothing is closed. *)
Theorem tunnel_dial_failure_is_reported (srv : Server) (ra : Addr) (auth : bytes)
    (st : Stream) (reqAddr : string) (s : S) :
  let tr := run_trace h (handleTCP srv ra auth st reqAddr) s in
  forall n a t e,
    In (EvDialTimeout n a t (inr e)) tr ->
    exists pre w,
      tr = (pre ++ [EvDialTimeout "tcp" a dialTimeout (inr e);
                    EvPackServerResponse st
                      {| resp_OK := false; resp_Message := e |} w;
                    EvTcpErrorFunc ra auth reqAddr (Some e)])%list
      /\ count is_pipe tr = 0%nat
      /\ closed tr = [].
Proof.
  intros tr n a t e Hin. subst tr. core_unfold.
  paths h; in_cases;
    match goal with
    | |- exists pre w, ?l = _ /\ _ =>
        match l with
        | [?x; ?y; _; EvPackServerResponse _ _ ?w; _] => exists [x; y], w
        | [?x; _; EvPackServerResponse _ _ ?w; _] => exists [x], w
        end
    end; repeat split; reflexivity.
Qed.

(** Extra X8.  The tunnel server's [handleTCP] closes exactly the
    connections its dials returned, at most one, and the close is the last
    thing it does. *)
Theorem tunnel_closes_what_it_dialed (srv : Server) (ra : Addr) (auth : bytes)
    (st : Stream) (reqAddr : string) (s : S) :
  let tr := run_trace h (handleTCP srv ra auth st reqAddr) s in
  closed tr = dialed tr
  /\ (List.length (dialed tr) <= 1)%nat
  /\ (forall c, In (EvConnClose c) tr ->
      exists pre, tr = (pre ++ [EvConnClose c])%list).
Proof.
  core_unfold. split; [|split].
  - paths h; reflexivity.
  - paths h; simpl; lia.
  - intros c Hin. paths h; in_cases;
      match goal with
      | |- exists pre, ?l = _ => exists (removelast l)
      end; reflexivity.
Qed.

(** Extra X9.  When the tunnel server relays, the run ends with: the
    request hook, the successful dial, the response [OK: true] with an
    empty message written without error, the relay between the stream and
    the dialed connection, the error hook with the relay's result, the
    close of the dialed connection. *)
Theorem tunnel_relay_path (srv : Server) (ra : Addr) (auth : bytes)
    (st : Stream) (reqAddr : string) (s : S) :
  let tr := run_trace h (handleTCP srv ra auth st reqAddr) s in
  forall st' c r,
    In (EvPipe2Way st' c r) tr ->
    exists pre act arg target,
      tr = (pre ++ [EvTcpRequestFunc ra auth reqAddr act arg;
                    EvDialTimeout "tcp" target dialTimeout (inl c);
                    EvPackServerResponse st
                      {| resp_OK := true; resp_Message := "" |} None;
                    EvPipe2Way st c r;
                    EvTcpErrorFunc ra auth reqAddr r;
                    EvConnClose c])%list
      /\ st' = st.
Proof.
  intros tr st' c r Hin. subst tr. core_unfold.
  paths h; in_cases;
    match goal with
    | |- exists pre act arg target, ?l = _ /\ _ =>
        match l with
        | [?x; EvTcpRequestFunc _ _ _ ?ac ?ar; EvDialTimeout _ ?t _ _;
           _; _; _; _] => exists [x], ac, ar, t
        | [EvTcpRequestFunc _ _ _ ?ac ?ar; EvDialTimeout _ ?t _ _;
           _; _; _; _] => exists [], ac, ar, t
        end
    end; split; reflexivity.
Qed.

(** Extra X10.  Every dial of the tunnel server comes right after the
    request hook was told the action for this request, and is the first
    dial of the run. *)
Theorem tunnel_reports_before_dialing (srv : Server) (ra : Addr) (auth : bytes)
    (st : Stream) (reqAddr : string) (s : S) :
  let tr := run_trace h (handleTCP srv ra auth st reqAddr) s in
  forall n a t r,
    In (EvDialTimeout n a t r) tr ->
    exists pre act arg post,
      tr = (pre ++ EvTcpRequestFunc ra auth reqAddr act arg
                :: EvDialTimeout n a t r :: post)%list
      /\ count is_dial pre = 0%nat.
Proof.
  intros tr n a t r Hin. subst tr. core_unfold.
  paths h; in_cases;
    match goal with
    | |- exists pre act arg post, ?l = _ /\ _ =>
        match l with
        | ?x :: EvTcpRequestFunc _ _ _ ?ac ?ar :: _ :: ?p =>
            exists [x], ac, ar, p
        | EvTcpRequestFunc _ _ _ ?ac ?ar :: _ :: ?p =>
            exists [], ac, ar, p
        end
    end; split; reflexivity.
Qed.

End StreamMoreFacts.

(** Runs of the tunnel server on scripted environments. *)

Lemma session_closed_once_with_reason_witness :
  exists pre code msg,
    Core.run_trace (CoreScript.answer CoreScript.smooth)
      (Core.handleClient 3 (CoreScript.server 0%N 0%N None) CoreScript.peer)
      2%nat
    = (pre ++ [Core.EvCloseWithError CoreScript.peer code msg])%list
    /\ Prog.count CoreObs.is_close pre = 0%nat.
Proof.
  refine (proj1 (session_closed_once_with_reason
                   nat (CoreScript.answer CoreScript.smooth) 2%nat 3%nat
                   (CoreScript.server 0%N 0%N None) CoreScript.peer) _).
  reflexivity.
Defined.

Lemma streams_started_only_after_auth_witness :
  let tr := Core.run_trace (CoreScript.answer CoreScript.smooth)
              (Core.handleClient 3 (CoreScript.server 0%N 0%N None)
                 CoreScript.peer) 2%nat in
  "192.0.2.1:4000" = Core.RemoteAddr CoreScript.peer
  /\ exists stream ch msg nSend nRecv,
      In (Core.EvUnpackClientHello stream (inl ch)) tr
      /\ [x68; x69] = Core.ch_Auth ch
      /\ In (Core.EvAuthFunc (Core.RemoteAddr CoreScript.peer) [x68; x69]
               nSend nRecv (true, msg)) tr
      /\ In (Core.EvPackServerHello stream
               {| Core.sh_OK := true;
                  Core.sh_Rate := {| Core.SendBPS := nSend;
                                     Core.RecvBPS := nRecv |};
                  Core.sh_Message := msg |} None) tr.
Proof.
  refine (proj2 (streams_started_only_after_auth
                   nat (CoreScript.answer CoreScript.smooth) 2%nat 3%nat
                   (CoreScript.server 0%N 0%N None) CoreScript.peer)
            "192.0.2.1:4000" [x68; x69] 2%nat _).
  simpl. auto 10.
Defined.

Lemma udp_or_unreadable_request_is_dropped_witness :
  Core.run_trace
    (CoreScript.answer
       (CoreObs.with_request CoreScript.smooth
          (inl {| Core.req_UDP := true;
                  Core.req_Address := "example.com:53" |})))
    (@Core.handleStream GoNet.lib (CoreScript.server 0%N 0%N None)
       "192.0.2.1:4000" [] 4%nat) 0%nat
  = [Core.EvUnpackClientRequest 4%nat
       (inl {| Core.req_UDP := true; Core.req_Address := "example.com:53" |});
     Core.EvStreamClose 4%nat].
Proof.
  refine (@udp_or_unreadable_request_is_dropped GoNet.lib nat
            (CoreScript.answer
               (CoreObs.with_request CoreScript.smooth
                  (inl {| Core.req_UDP := true;
                          Core.req_Address := "example.com:53" |})))
            (CoreScript.server 0%N 0%N None) "192.0.2.1:4000" [] 4%nat 0%nat
            4%nat
            (inl {| Core.req_UDP := true;
                    Core.req_Address := "example.com:53" |}) _ _).
  - simpl. auto.
  - reflexivity.
Defined.

Lemma proxy_is_direct_at_tunnel_server_witness :
  exists res,
    filter Core.is_dial
      (Core.run_trace
         (CoreScript.answer (CoreScript.with_lookup CoreScript.smooth
                               Acl.ActionProxy ""))
         (@Core.handleTCP GoNet.lib (CoreScript.server 0%N 0%N (Some 1%nat))
            "192.0.2.1:4000" [] 4%nat "example.com:80") 0%nat)
    = [Core.EvDialTimeout "tcp" "example.com:80" Core.dialTimeout res].
Proof.
  refine (@proxy_is_direct_at_tunnel_server GoNet.lib nat
            (CoreScript.answer (CoreScript.with_lookup CoreScript.smooth
                                  Acl.ActionProxy ""))
            (CoreScript.server 0%N 0%N (Some 1%nat))
            "192.0.2.1:4000" [] 4%nat "example.com:80" 0%nat
            "192.0.2.1:4000" [] "example.com:80" Acl.ActionProxy "" _ _).
  - simpl. auto.
  - right. reflexivity.
Defined.

Lemma tunnel_dial_failure_is_reported_witness :
  exists pre w,
    Core.run_trace
      (CoreScript.answer (CoreObs.with_dial CoreScript.smooth
                            (inr "connection refused")))
      (@Core.handleTCP GoNet.lib (CoreScript.server 0%N 0%N None)
         "192.0.2.1:4000" [] 4%nat "example.com:80") 0%nat
    = (pre ++ [Core.EvDialTimeout "tcp" "example.com:80" Core.dialTimeout
                 (inr "connection refused");
               Core.EvPackServerResponse 4%nat
                 {| Core.resp_OK := false;
                    Core.resp_Message := "connection refused" |} w;
               Core.EvTcpErrorFunc "192.0.2.1:4000" [] "example.com:80"
                 (Some "connection refused")])%list
    /\ Prog.count Core.is_pipe
         (Core.run_trace
            (CoreScript.answer (CoreObs.with_dial CoreScript.smooth
                                  (inr "connection refused")))
            (@Core.handleTCP GoNet.lib (CoreScript.server 0%N 0%N None)
               "192.0.2.1:4000" [] 4%nat "example.com:80") 0%nat) = 0%nat
    /\ CoreObs.closed
         (Core.run_trace
            (CoreScript.answer (CoreObs.with_dial CoreScript.smooth
                                  (inr "connection refused")))
            (@Core.handleTCP GoNet.lib (CoreScript.server 0%N 0%N None)
               "192.0.2.1:4000" [] 4%nat "example.com:80") 0%nat) = [].
Proof.
  refine (@tunnel_dial_failure_is_reported GoNet.lib nat
            (CoreScript.answer (CoreObs.with_dial CoreScript.smooth
                                  (inr "connection refused")))
            (CoreScript.server 0%N 0%N None)
            "192.0.2.1:4000" [] 4%nat "example.com:80" 0%nat
            "tcp" "example.com:80" Core.dialTimeout "connection refused" _).
  simpl. auto.
Defined.

Lemma tunnel_closes_what_it_dialed_witness :
  exists pre,
    Core.run_trace (CoreScript.answer CoreScript.smooth)
      (@Core.handleTCP GoNet.lib (CoreScript.server 0%N 0%N None)
         "192.0.2.1:4000" [] 4%nat "example.com:80") 0%nat
    = (pre ++ [Core.EvConnClose 7%nat])%list.
Proof.
  refine (proj2 (proj2 (@tunnel_closes_what_it_dialed GoNet.lib nat
                          (CoreScript.answer CoreScript.smooth)
                          (CoreScript.server 0%N 0%N None)
                          "192.0.2.1:4000" [] 4%nat "example.com:80" 0%nat))
            7%nat _).
  simpl. auto 10.
Defined.

Lemma tunnel_relay_path_witness :
  exists pre act arg target,
    Core.run_trace (CoreScript.answer CoreScript.smooth)
      (@Core.handleTCP GoNet.lib (CoreScript.server 0%N 0%N None)
         "192.0.2.1:4000" [] 4%nat "example.com:80") 0%nat
    = (pre ++ [Core.EvTcpRequestFunc "192.0.2.1:4000" [] "example.com:80"
                 act arg;
               Core.EvDialTimeout "tcp" target Core.dialTimeout (inl 7%nat);
               Core.EvPackServerResponse 4%nat
                 {| Core.resp_OK := true; Core.resp_Message := "" |} None;
               Core.EvPipe2Way 4%nat 7%nat (Some "EOF");
               Core.EvTcpErrorFunc "192.0.2.1:4000" [] "example.com:80"
                 (Some "EOF");
               Core.EvConnClose 7%nat])%list
    /\ 4%nat = 4%nat.
Proof.
  refine (@tunnel_relay_path GoNet.lib nat
            (CoreScript.answer CoreScript.smooth)
            (CoreScript.server 0%N 0%N None)
            "192.0.2.1:4000" [] 4%nat "example.com:80" 0%nat
            4%nat 7%nat (Some "EOF") _).
  simpl. auto 10.
Defined.

Lemma tunnel_reports_before_dialing_witness :
  exists pre act arg post,
    Core.run_trace (CoreScript.answer CoreScript.smooth)
      (@Core.handleTCP GoNet.lib (CoreScript.server 0%N 0%N None)
         "192.0.2.1:4000" [] 4%nat "example.com:80") 0%nat
    = (pre ++ Core.EvTcpRequestFunc "192.0.2.1:4000" [] "example.com:80"
                act arg
              :: Core.EvDialTimeout "tcp" "example.com:80" Core.dialTimeout
                   (inl 7%nat)
              :: post)%list
    /\ Prog.count Core.is_dial pre = 0%nat.
Proof.
  refine (@tunnel_reports_before_dialing GoNet.lib nat
            (CoreScript.answer CoreScript.smooth)
            (CoreScript.server 0%N 0%N None)
            "192.0.2.1:4000" [] 4%nat "example.com:80" 0%nat
            "tcp" "example.com:80" Core.dialTimeout (inl 7%nat) _).
  simpl. auto 10.
Defined.

(** ** The SOCKS5 front-end: the requested address *)

Section ParseFacts.
Import Go Acl Prog Socks5.
Context {net : NetLib}.

Lemma byte_val_range (b : byte) : (0 <= byte_val b < 256)%Z.
Proof.
  unfold byte_val. pose proof (Byte.to_N_bounded b). lia.
Qed.

(** With the low byte below [2^8], the bitwise "or" with the shifted high
    byte is their sum. *)
Lemma lor_shift_8 (lo hi : Z) :
  (0 <= lo < 256)%Z -> (0 <= hi)%Z ->
  Z.lor lo (Z.shiftl hi 8) = (lo + 256 * hi)%Z.
Proof.
  intros Hlo Hhi.
  assert (Hland : Z.land lo (Z.shiftl hi 8) = 0%Z).
  { apply Z.bits_inj'. intros n Hn.
    rewrite Z.land_spec, Z.bits_0.
    destruct (Z.ltb_spec n 8).
    - rewrite (Z.shiftl_spec_low hi 8 n) by lia. apply andb_false_r.
    - assert (Hb : Z.testbit lo n = false).
      { destruct (Z.eq_dec lo 0) as [->|Hne]; [apply Z.bits_0|].
        apply Z.bits_above_log2; [lia|].
        assert (Z.log2 lo < 8)%Z by (apply Z.log2_lt_pow2; simpl; lia).
        lia. }
      rewrite Hb. reflexivity. }
  rewrite <- Z.lxor_lor by exact Hland.
  rewrite <- Z.add_nocarry_lxor by exact Hland.
  rewrite Z.shiftl_mul_pow2 by lia. change (2 ^ 8)%Z with 256%Z. lia.
Qed.

(** Extra X11.  The port [parseRequestAddress] returns is the decimal form
    of the big-endian value of the first two bytes of [DstPort], a number
    between 0 and 65535. *)
Theorem request_port_is_big_endian (r : Request) (domain : string) (ip : IP)
    (port addr : string) :
  parseRequestAddress r = Returned (domain, ip, port, addr) ->
  exists hi lo rest,
    DstPort r = hi :: lo :: rest
    /\ port = Itoa (256 * byte_val hi + byte_val lo)
    /\ (0 <= 256 * byte_val hi + byte_val lo < 65536)%Z.
Proof.
  unfold parseRequestAddress, Uint16.
  destruct (DstPort r) as [|hi [|lo rest]]; try discriminate.
  intro H. exists hi, lo, rest.
  pose proof (byte_val_range hi) as Hhi.
  pose proof (byte_val_range lo) as Hlo.
  rewrite lor_shift_8 in H by lia.
  replace (byte_val lo + 256 * byte_val hi)%Z
    with (256 * byte_val hi + byte_val lo)%Z in H by lia.
  split; [reflexivity|]. split; [|lia].
  destruct (Byte.eqb (Atyp r) ATYPDomain).
  - destruct (DstAddr r); [discriminate|]. congruence.
  - congruence.
Qed.

(** Extra X12.  [parseRequestAddress] returns exactly on the requests with
    a port of at least two bytes and, for a domain request, a non-empty
    [DstAddr]; on the others it panics.  For a domain request it returns the
    name that follows the length byte and no IP; for any other request it
    returns the empty domain and [DstAddr] as the IP.  The address is the
    host, joined with the port. *)
Theorem request_address_parse (r : Request) :
  (well_formed r = true <->
   exists x, parseRequestAddress r = Returned x)
  /\ forall domain ip port addr,
      parseRequestAddress r = Returned (domain, ip, port, addr) ->
      (Atyp r = ATYPDomain ->
       ip = None
       /\ (exists len rest,
              DstAddr r = len :: rest /\ domain = string_of_list_byte rest)
       /\ addr = JoinHostPort domain port)
      /\ (Atyp r <> ATYPDomain ->
          domain = "" /\ ip = Some (DstAddr r)
          /\ addr = JoinHostPort (IP_String (DstAddr r)) port).
Proof.
  split.
  - unfold well_formed, parseRequestAddress, Uint16.
    destruct (DstPort r) as [|hi [|lo rest]]; simpl.
    + split; [discriminate | intros [x Hx]; discriminate].
    + split; [discriminate | intros [x Hx]; discriminate].
    + destruct (Byte.eqb (Atyp r) ATYPDomain); simpl.
      * destruct (DstAddr r); simpl.
        -- split; [discriminate | intros [x Hx]; discriminate].
        -- split; eauto.
      * split; eauto.
  - intros domain ip port addr. unfold parseRequestAddress.
    destruct (Uint16 (DstPort r)) as [v|]; [|discriminate].
    destruct (Byte.eqb (Atyp r) ATYPDomain) eqn:Hat.
    + apply Byte.byte_dec_bl in Hat.
      destruct (DstAddr r) as [|len rest]; [discriminate|].
      intro H. injection H as <- <- <- <-. split; [|congruence].
      intros _. repeat split. eauto.
    + apply Byte.eqb_false in Hat.
      intro H. injection H as <- <- <- <-. split; [congruence|].
      intros _. auto.
Qed.

End ParseFacts.

Lemma request_port_is_big_endian_witness :
  exists hi lo rest,
    Socks5.DstPort SocksScript.connect_domain = hi :: lo :: rest
    /\ "443" = Go.Itoa (256 * Go.byte_val hi + Go.byte_val lo)
    /\ (0 <= 256 * Go.byte_val hi + Go.byte_val lo < 65536)%Z.
Proof.
  exact (@request_port_is_big_endian GoNet.lib SocksScript.connect_domain
           "internal.example.com" None "443" "internal.example.com:443"
           eq_refl).
Defined.

Lemma request_address_parse_witness :
  "" = ""
  /\ Some [x0a; x00; x00; x05] = Some (Socks5.DstAddr SocksScript.connect_ip)
  /\ "10.0.0.5:80"
     = GoNet.JoinHostPort
         (GoNet.IP_String (Socks5.DstAddr SocksScript.connect_ip)) "80".
Proof.
  refine (proj2 (proj2 (@request_address_parse GoNet.lib
                          SocksScript.connect_ip)
                   "" (Some [x0a; x00; x00; x05]) "80" "10.0.0.5:80" eq_refl)
            _).
  simpl. discriminate.
Defined.

(** ** The SOCKS5 front-end: one request *)

Section SocksMoreFacts.
Import Go Acl Prog Socks5 SocksObs.
Context {net : NetLib} {S : Type} (h : env S).

Ltac socks_unfold :=
  unfold run_trace, run_value, handle, handleTCP, handleTCP_dial, sendReply,
    count, dialed, closed in *;
  simpl in *.

(** Extra X13.  [handle] serves the CONNECT command only: for any other
    command it writes one reply, command-not-supported, and returns
    [ErrUnsupportedCmd]; no lookup, no hook, no dial. *)
Theorem other_commands_are_refused (srv : Server) (c : TCPConn) (r : Request)
    (s : S) :
  Cmd r <> CmdConnect ->
  exists w,
    run_trace h (handle srv c r) s =
      [EvReply c RepCommandNotSupported ATYPIPv4 [x00; x00; x00; x00]
         [x00; x00] w]
    /\ run_value h (handle srv c r) s = Returned (Some ErrUnsupportedCmd).
Proof.
  intro Hcmd. socks_unfold.
  destruct (Byte.eqb (Cmd r) CmdConnect) eqn:E.
  - apply Byte.byte_dec_bl in E. contradiction.
  - simpl. eexists. split; reflexivity.
Qed.

(** Extra X14.  In the SOCKS [handleTCP], the error given to the error hook
    and the error returned.  On Block the hook is told "blocked in ACL" and
    nil is returned; on an unknown action the hook is told "unknown action
    N" and nil is returned; on the dialing actions, either the dial failed,
    the hook is told the dial error and that error is returned, or the relay
    ran, the hook is told the relay's result and nil is returned. *)
Theorem reported_and_returned_error (srv : Server) (c : TCPConn) (r : Request)
    (s : S) :
  let p := handleTCP srv c r in
  let tr := run_trace h p s in
  forall a ra act arg,
    In (EvTCPRequestFunc a ra act arg) tr ->
    exists e,
      filter is_error_hook tr = [EvTCPErrorFunc (RemoteAddr c) ra e]
      /\ match act with
         | ActionBlock =>
             e = Some "blocked in ACL" /\ run_value h p s = Returned None
         | ActionUnknown n =>
             e = Some ("unknown action " ++ Itoa (Z.of_N n))
             /\ run_value h p s = Returned None
         | _ =>
             (exists de,
                 dial_errors tr = [de] /\ relay_results tr = []
                 /\ e = Some de
                 /\ run_value h p s = Returned (Some de))
             \/ (dial_errors tr = [] /\ relay_results tr = [e]
                 /\ run_value h p s = Returned None)
         end.
Proof.
  intros p tr a ra act arg Hin. subst p tr.
  unfold dial_errors, relay_results. socks_unfold.
  destruct (parseRequestAddress r) as [[[[domain ip] port] addr]|why];
    simpl in *; [|in_cases].
  paths h; in_cases; eexists; (split; [reflexivity|]);
    first [ split; reflexivity
          | left; eexists; repeat split; reflexivity
          | right; repeat split; reflexivity ].
Qed.

(** Extra X15.  The SOCKS [handleTCP] closes exactly the outbound
    connections it dialed with success, at most one. *)
Theorem outbound_connection_closed (srv : Server) (c : TCPConn) (r : Request)
    (s : S) :
  let tr := run_trace h (handleTCP srv c r) s in
  closed tr = dialed tr /\ (List.length (dialed tr) <= 1)%nat.
Proof.
  socks_unfold.
  destruct (parseRequestAddress r) as [[[[domain ip] port] addr]|why];
    simpl; [|auto].
  split; paths h; simpl; auto.
Qed.

(** Extra X16.  Direct dials the requested address from the local machine
    and Proxy dials it through the tunnel client: one dial each, of that
    kind, to the address reported to the hooks. *)
Theorem direct_is_local_proxy_is_tunnel (srv : Server) (c : TCPConn)
    (r : Request) (s : S) :
  let tr := run_trace h (handleTCP srv c r) s in
  forall a ra act arg,
    In (EvTCPRequestFunc a ra act arg) tr ->
    (act = ActionDirect ->
     exists res, filter is_dial tr = [EvNetDial "tcp" ra res])
    /\ (act = ActionProxy ->
        exists res, filter is_dial tr = [EvHyClientDialTCP ra res]).
Proof.
  intros tr a ra act arg Hin. subst tr. socks_unfold.
  destruct (parseRequestAddress r) as [[[[domain ip] port] addr]|why];
    simpl in *; [|in_cases].
  split; intros ->; paths h; in_cases; eauto.
Qed.

(** Extra X17.  When the relay runs in the SOCKS [handleTCP], the run ends
    with: the successful dial, the success reply, the relay between the
    client connection and the dialed connection under the configured
    timeout, the close of the dialed connection, the error hook with the
    relay's result.  When a dial fails, the run ends with the failed dial,
    a host-unreachable reply and the error hook; no relay, no close. *)
Theorem relay_and_dial_failure_paths (srv : Server) (c : TCPConn)
    (r : Request) (s : S) :
  let tr := run_trace h (handleTCP srv c r) s in
  (forall c' rc t e,
      In (EvPipePair c' rc t e) tr ->
      exists pre d ra w,
        tr = (pre ++ [d;
                      EvReply c RepSuccess ATYPIPv4 [x00; x00; x00; x00]
                        [x00; x00] w;
                      EvPipePair c rc (TCPTimeout srv) e;
                      EvRcClose rc;
                      EvTCPErrorFunc (RemoteAddr c) ra e])%list
        /\ dialed [d] = [rc])
  /\ (forall d de,
        In d tr ->
        dial_errors [d] = [de] ->
        exists pre ra w,
          tr = (pre ++ [d;
                        EvReply c RepHostUnreachable ATYPIPv4
                          [x00; x00; x00; x00] [x00; x00] w;
                        EvTCPErrorFunc (RemoteAddr c) ra (Some de)])%list
          /\ count is_pipe tr = 0%nat
          /\ closed tr = []).
Proof.
  intro tr. subst tr. unfold dial_errors. socks_unfold.
  destruct (parseRequestAddress r) as [[[[domain ip] port] addr]|why];
    simpl; [|split; intros; in_cases].
  split.
  - intros c' rc t e Hin.
    paths h; in_cases;
      match goal with
      | |- exists pre d ra w, ?l = _ /\ _ =>
          match l with
          | [?x; ?y; ?d; EvReply _ _ _ _ _ ?w; _; _; EvTCPErrorFunc _ ?ra _] =>
              exists [x; y], d, ra, w
          | [?x; ?d; EvReply _ _ _ _ _ ?w; _; _; EvTCPErrorFunc _ ?ra _] =>
              exists [x], d, ra, w
          end
      end; split; reflexivity.
  - paths h; intros d de Hin Hd;
      repeat (destruct Hin as [<-|Hin]; [simpl in Hd; try discriminate|]);
      try contradiction;
      injection Hd as <-;
      match goal with
      | |- exists pre ra w, ?l = _ /\ _ =>
          match l with
          | [?x; ?y; _; EvReply _ _ _ _ _ ?w; EvTCPErrorFunc _ ?ra _] =>
              exists [x; y], ra, w
          | [?x; _; EvReply _ _ _ _ _ ?w; EvTCPErrorFunc _ ?ra _] =>
              exists [x], ra, w
          end
      end; repeat split; reflexivity.
Qed.

End SocksMoreFacts.


(** ** The SOCKS5 front-end: negotiation and authentication *)

Section NegotiateMoreFacts.
Import Go Acl Prog Socks5 SocksObs.
Context {S : Type} (h : env S).

Ltac neg_unfold :=
  unfold run_trace, run_value, negotiate, count in *; simpl in *.

(** [negotiate] serves nothing: it only reads and writes negotiation
    messages and asks the authentication callback. *)
Lemma negotiate_serves_nothing (srv : Server) (c : TCPConn) (s : S) :
  Forall (fun e => serves e = false) (run_trace h (negotiate srv c) s).
Proof.
  neg_unfold. paths h; repeat constructor.
Qed.

(** When [negotiate] returns nil, and when the callback rejects. *)
Lemma negotiate_success (srv : Server) (c : TCPConn)
    (s : S) :
  let p := negotiate srv c in
  let tr := run_trace h p s in
  (run_value h p s = Returned None ->
   In (EvNegotiationReply c (Method srv) None) tr
   /\ (Method srv = MethodUsernamePassword ->
       exists u pw,
         In (EvAuthFunc u pw true) tr
         /\ In (EvUserPassNegotiationReply c UserPassStatusSuccess None) tr))
  /\ (forall u pw,
        In (EvAuthFunc u pw false) tr ->
        exists e, run_value h p s = Returned (Some e)).
Proof.
  intros p tr. subst p tr. neg_unfold. split.
  - intro Hv. paths h; try discriminate; split;
      try (intro Hm; rewrite Hm in *; try discriminate);
      simpl; eauto 12.
    all: match goal with
         | H : h (AuthFunc ?u ?p) _ = (true, _) |- _ => exists u, p
         end; split; simpl; tauto.
  - intros u pw Hin. paths h; in_cases; eauto.
Qed.

(** Extra X19.  [negotiate] asks the authentication callback at most once,
    only when the configured method is username/password, with the user name
    and password just read from the client; the status written back is
    success when the callback accepts and failure when it rejects.  With any
    other method no credentials are read and no status is written. *)
Theorem credentials_checked_once (srv : Server) (c : TCPConn) (s : S) :
  let tr := run_trace h (negotiate srv c) s in
  (count is_auth tr <= 1)%nat
  /\ (forall u pw ok,
        In (EvAuthFunc u pw ok) tr ->
        Method srv = MethodUsernamePassword
        /\ (exists un pwd,
               In (EvNewUserPassNegotiationRequestFrom c (inl (un, pwd))) tr
               /\ u = string_of_list_byte un
               /\ pw = string_of_list_byte pwd)
        /\ exists w,
            filter is_userpass_reply tr =
              [EvUserPassNegotiationReply c
                 (if ok then UserPassStatusSuccess
                  else UserPassStatusFailure) w])
  /\ (Method srv <> MethodUsernamePassword ->
      count is_auth tr = 0%nat
      /\ count is_userpass_reply tr = 0%nat
      /\ forall r, ~ In (EvNewUserPassNegotiationRequestFrom c r) tr).
Proof.
  intro tr. subst tr. neg_unfold. split; [|split].
  - paths h; simpl; lia.
  - intros u pw ok Hin.
    paths h; in_cases;
      (split; [apply Byte.byte_dec_bl; assumption|]);
      split; eauto 12.
  - intro Hm.
    assert (Hb : Byte.eqb (Method srv) MethodUsernamePassword = false).
    { destruct (Byte.eqb (Method srv) MethodUsernamePassword) eqn:E; auto.
      apply Byte.byte_dec_bl in E. contradiction. }
    rewrite Hb.
    repeat split; try (paths h; reflexivity).
    intros r Hin. paths h; in_cases.
Qed.

(** [negotiate] panics only on a server whose method is username/password
    while no callback is set. *)
Lemma negotiate_returns (srv : Server) (c : TCPConn) (s : S) :
  (Method srv = MethodUsernamePassword -> AuthFunc_set srv = true) ->
  exists o, run_value h (negotiate srv c) s = Returned o.
Proof.
  intro Hset. neg_unfold.
  paths h; eauto.
  all: exfalso;
    match goal with
    | H : Byte.eqb ?m MethodUsernamePassword = true |- _ =>
        apply Byte.byte_dec_bl in H; apply Hset in H
    end;
    congruence.
Qed.

End NegotiateMoreFacts.

(** Extra X18.  [negotiate] returns nil only after the reply naming the
    configured method was written without error and, when that method is
    username/password, only after the authentication callback accepted the
    credentials and the success status was written without error.  Whenever
    the callback rejects the credentials, [negotiate] returns an error. *)
Theorem negotiation_success_means_authenticated :
  forall (S : Type) (h : Socks5.env S) (srv : Socks5.Server)
         (c : Socks5.TCPConn) (s : S),
    let p := Socks5.negotiate srv c in
    let tr := Socks5.run_trace h p s in
    (Socks5.run_value h p s = Socks5.Returned None ->
     In (Socks5.EvNegotiationReply c (Socks5.Method srv) None) tr
     /\ (Socks5.Method srv = Socks5.MethodUsernamePassword ->
         exists u pw,
           In (Socks5.EvAuthFunc u pw true) tr
           /\ In (Socks5.EvUserPassNegotiationReply c
                    Socks5.UserPassStatusSuccess None) tr))
    /\ (forall u pw,
          In (Socks5.EvAuthFunc u pw false) tr ->
          exists e, Socks5.run_value h p s = Socks5.Returned (Some e)).
Proof.
  intros S h srv c s. apply negotiate_success.
Qed.

(** ** The SOCKS5 front-end: serving a connection *)

Section ServeFacts.
Import Go Acl Prog Socks5Serve.
Context {net : NetLib} {S : Type} (h : env S).

Lemma trace_lift {A} (p : Socks5.M A) (s : S) :
  run_trace h (lift p) s = map EvHandler (Socks5.run_trace (inner h) p s).
Proof.
  unfold run_trace, Socks5.run_trace. revert s.
  induction p as [a|c k IH]; intro s; simpl; [reflexivity|].
  f_equal. apply IH.
Qed.

Lemma value_lift {A} (p : Socks5.M A) (s : S) :
  value h (lift p) s = value (inner h) p s.
Proof.
  revert s. induction p as [a|c k IH]; intro s; simpl; auto.
Qed.

Lemma final_lift {A} (p : Socks5.M A) (s : S) :
  final h (lift p) s = final (inner h) p s.
Proof.
  revert s. induction p as [a|c k IH]; intro s; simpl; auto.
Qed.

Lemma serveConn_after_deadline (srv : Socks5.Server) (c : Socks5.TCPConn)
    (s : S) (k : M (Socks5.outcome unit)) :
  k = (n <- lift (Socks5.negotiate srv c) ;;
       match n with
       | Socks5.Panic why => do (ConnClose c) ;;; Ret (Socks5.Panic why)
       | Socks5.Returned (Some _) =>
           do (ConnClose c) ;;; Ret (Socks5.Returned tt)
       | Socks5.Returned None =>
           rq <- do (NewRequestFrom c) ;;
           match rq with
           | inr _ => do (ConnClose c) ;;; Ret (Socks5.Returned tt)
           | inl r =>
               o <- lift (Socks5.handle srv c r) ;;
               do (ConnClose c) ;;;
               match o with
               | Socks5.Panic why => Ret (Socks5.Panic why)
               | Socks5.Returned _ => Ret (Socks5.Returned tt)
               end
           end
       end)%prog ->
  after_negotiation h srv c s (run_trace h k s).
Proof.
  intros ->. unfold after_negotiation, run_trace.
  rewrite trace_bind, value_lift, final_lift.
  fold (run_trace h (lift (Socks5.negotiate srv c)) s).
  rewrite trace_lift.
  destruct (value (inner h) (Socks5.negotiate srv c) s) as [[e|]|why];
    cbn [bind trace do perform fst snd log]; try reflexivity.
  destruct (h (NewRequestFrom c) (final (inner h) (Socks5.negotiate srv c) s))
    as [[r|e] s2]; cbn [bind trace do perform fst snd log]; [|reflexivity].
  f_equal. f_equal.
  rewrite trace_bind.
  fold (run_trace h (lift (Socks5.handle srv c r)) s2).
  rewrite trace_lift. f_equal.
  cbn [bind trace do perform fst snd log].
  destruct (value h (lift (Socks5.handle srv c r)) s2); reflexivity.
Qed.

Lemma serveConn_shape (srv : Socks5.Server) (c : Socks5.TCPConn) (s : S) :
  let tr := run_trace h (serveConn srv c) s in
  if (Socks5.TCPTimeout srv =? 0)%Z
  then after_negotiation h srv c s tr
  else
    match fst (h (SetDeadline c (Socks5.TCPTimeout srv)) s) with
    | Some e =>
        tr = [EvSetDeadline c (Socks5.TCPTimeout srv) (Some e);
              EvConnClose c]
    | None =>
        exists tr',
          tr = EvSetDeadline c (Socks5.TCPTimeout srv) None :: tr'
          /\ after_negotiation h srv c
               (snd (h (SetDeadline c (Socks5.TCPTimeout srv)) s)) tr'
    end.
Proof.
  unfold serveConn.
  destruct (Socks5.TCPTimeout srv =? 0)%Z.
  - cbn [bind]. apply serveConn_after_deadline. reflexivity.
  - cbn [bind do perform]. unfold run_trace at 1 2. cbn [trace log].
    destruct (h (SetDeadline c (Socks5.TCPTimeout srv)) s) as [[e|] s1];
      cbn [fst snd bind trace log]; [reflexivity|].
    eexists. split; [reflexivity|].
    apply serveConn_after_deadline. reflexivity.
Qed.

Lemma count_map_handler (t : event -> bool) (l : list Socks5.event) :
  (forall e, t (EvHandler e) = false) ->
  count t (map EvHandler l) = 0%nat.
Proof.
  intro H. apply count_none. intros e He.
  apply in_map_iff in He. destruct He as (e' & <- & _). apply H.
Qed.

Lemma after_negotiation_facts (srv : Socks5.Server) (c : Socks5.TCPConn)
    (s : S) (tr : list event) :
  after_negotiation h srv c s tr ->
  (exists pre, tr = (pre ++ [EvConnClose c])%list
               /\ count is_conn_close pre = 0%nat)
  /\ (forall e,
        In e tr -> serves e = true ->
        In (EvHandler (Socks5.EvNegotiationReply c (Socks5.Method srv) None))
           tr
        /\ (Socks5.Method srv = Socks5.MethodUsernamePassword ->
            exists u pw, In (EvHandler (Socks5.EvAuthFunc u pw true)) tr)
        /\ exists r, In (EvNewRequestFrom c (inl r)) tr)
  /\ (forall c' t w, ~ In (EvSetDeadline c' t w) tr).
Proof.
  unfold after_negotiation. cbv zeta.
  pose proof (negotiate_serves_nothing (inner h) srv c s) as Hquiet.
  pose proof (negotiate_success (inner h) srv c s) as [Hok _].
  cbv zeta in Hok. unfold Socks5.run_value in Hok.
  set (T1 := Socks5.run_trace (inner h) (Socks5.negotiate srv c) s) in *.
  assert (Hq : forall e, In e (map EvHandler T1) -> serves e = false).
  { intros e He. apply in_map_iff in He. destruct He as (e' & <- & He').
    rewrite Forall_forall in Hquiet. simpl. apply Hquiet, He'. }
  assert (Hc1 : count is_conn_close (map EvHandler T1) = 0%nat)
    by (apply count_map_handler; reflexivity).
  assert (Hd1 : forall c' t w, ~ In (EvSetDeadline c' t w) (map EvHandler T1)).
  { intros c' t w He. apply in_map_iff in He.
    destruct He as (e' & He' & _). discriminate. }
  clear Hquiet. clearbody T1.
  destruct (value (inner h) (Socks5.negotiate srv c) s) as [[e|]|why].
  - intros ->. split; [|split].
    + eexists. split; [reflexivity | exact Hc1].
    + intros e0 Hin Hs. apply in_app_or in Hin. destruct Hin as [Hin|Hin].
      * apply Hq in Hin. congruence.
      * destruct Hin as [<-|[]]. discriminate.
    + intros c' t w Hin. apply in_app_or in Hin. destruct Hin as [Hin|Hin].
      * eapply Hd1; eauto.
      * destruct Hin as [Hin|[]]. discriminate.
  - destruct (Hok eq_refl) as [Hrep Hauth]. clear Hok.
    destruct (h (NewRequestFrom c)
                (final (inner h) (Socks5.negotiate srv c) s)) as [[r|e] s2];
      cbn [fst snd].
    + set (T2 := Socks5.run_trace (inner h) (Socks5.handle srv c r) s2).
      assert (Hc2 : count is_conn_close (map EvHandler T2) = 0%nat)
        by (apply count_map_handler; reflexivity).
      clearbody T2.
      intros ->. split; [|split].
      * exists (map EvHandler T1 ++ EvNewRequestFrom c (inl r)
                  :: map EvHandler T2)%list.
        split.
        -- rewrite <- app_assoc. reflexivity.
        -- rewrite count_app. unfold count in *. simpl.
           rewrite Hc1. exact Hc2.
      * intros e0 _ _. split; [|split].
        -- apply in_or_app. left. apply in_map. exact Hrep.
        -- intro Hm. destruct (Hauth Hm) as (u & pw & Hin & _).
           exists u, pw. apply in_or_app. left. apply in_map. exact Hin.
        -- exists r. apply in_or_app. right. left. reflexivity.
      * intros c' t w Hin. apply in_app_or in Hin. destruct Hin as [Hin|Hin].
        -- eapply Hd1; eauto.
        -- destruct Hin as [Hin|Hin]; [discriminate|].
           apply in_app_or in Hin. destruct Hin as [Hin|Hin].
           ++ apply in_map_iff in Hin. destruct Hin as (e' & He' & _).
              discriminate.
           ++ destruct Hin as [Hin|[]]. discriminate.
    + intros ->. split; [|split].
      * exists (map EvHandler T1 ++ [EvNewRequestFrom c (inr e)])%list.
        split.
        -- rewrite <- app_assoc. reflexivity.
        -- rewrite count_app. unfold count in *. simpl.
           rewrite Hc1. reflexivity.
      * intros e0 Hin Hs. apply in_app_or in Hin. destruct Hin as [Hin|Hin].
        -- apply Hq in Hin. congruence.
        -- destruct Hin as [<-|[<-|[]]]; discriminate.
      * intros c' t w Hin. apply in_app_or in Hin. destruct Hin as [Hin|Hin].
        -- eapply Hd1; eauto.
        -- destruct Hin as [Hin|[Hin|[]]]; discriminate.
  - intros ->. split; [|split].
    + eexists. split; [reflexivity | exact Hc1].
    + intros e0 Hin Hs. apply in_app_or in Hin. destruct Hin as [Hin|Hin].
      * apply Hq in Hin. congruence.
      * destruct Hin as [<-|[]]. discriminate.
    + intros c' t w Hin. apply in_app_or in Hin. destruct Hin as [Hin|Hin].
      * eapply Hd1; eauto.
      * destruct Hin as [Hin|[]]. discriminate.
Qed.

(** Extra X20.  The goroutine serving an accepted connection closes the
    connection exactly once, as the last thing it does.  It serves a request
    (lookup, hooks, dial, reply, relay) only after [negotiate] wrote the
    reply naming the configured method without error, after the
    authentication callback accepted the credentials when that method is
    username/password, and after a request was read.  With a zero timeout
    it never sets a deadline; with a non-zero timeout it sets the deadline
    first, and when that fails it does nothing but close the connection. *)
Theorem connection_served_only_after_negotiation (srv : Socks5.Server)
    (c : Socks5.TCPConn) (s : S) :
  let tr := run_trace h (serveConn srv c) s in
  (exists pre, tr = (pre ++ [EvConnClose c])%list
               /\ count is_conn_close pre = 0%nat)
  /\ (forall e,
        In e tr -> serves e = true ->
        In (EvHandler (Socks5.EvNegotiationReply c (Socks5.Method srv) None))
           tr
        /\ (Socks5.Method srv = Socks5.MethodUsernamePassword ->
            exists u pw, In (EvHandler (Socks5.EvAuthFunc u pw true)) tr)
        /\ exists r, In (EvNewRequestFrom c (inl r)) tr)
  /\ (Socks5.TCPTimeout srv = 0%Z ->
      forall c' t w, ~ In (EvSetDeadline c' t w) tr)
  /\ (Socks5.TCPTimeout srv <> 0%Z ->
      exists w rest,
        tr = EvSetDeadline c (Socks5.TCPTimeout srv) w :: rest
        /\ (w <> None -> rest = [EvConnClose c])).
Proof.
  intro tr. pose proof (serveConn_shape srv c s) as Hshape.
  cbv zeta in Hshape. fold tr in Hshape. clearbody tr.
  destruct (Z.eqb_spec (Socks5.TCPTimeout srv) 0) as [Hz|Hnz].
  - destruct (after_negotiation_facts srv c s tr Hshape) as (Ha & Hb & Hc).
    split; [exact Ha|]. split; [exact Hb|].
    split; [intros _; exact Hc | intro Hne; contradiction].
  - destruct (fst (h (SetDeadline c (Socks5.TCPTimeout srv)) s)) as [e|].
    + subst tr. split; [|split; [|split]].
      * exists [EvSetDeadline c (Socks5.TCPTimeout srv) (Some e)]. auto.
      * intros e0 [<-|[<-|[]]]; discriminate.
      * intro Hz. contradiction.
      * intros _. eexists _, _. split; [reflexivity|]. auto.
    + destruct Hshape as (tr' & -> & Hafter).
      destruct (after_negotiation_facts srv c _ tr' Hafter) as (Ha & Hb & Hc).
      destruct Ha as (pre & -> & Hpre).
      split; [|split; [|split]].
      * exists (EvSetDeadline c (Socks5.TCPTimeout srv) None :: pre).
        split; [reflexivity|]. unfold count in *. simpl. exact Hpre.
      * intros e0 [<-|Hin] Hs; [discriminate|].
        destruct (Hb e0 Hin Hs) as (H1 & H2 & r & H3).
        split; [right; exact H1|]. split.
        -- intro Hm. destruct (H2 Hm) as (u & pw & Hu).
           exists u, pw. right. exact Hu.
        -- exists r. right. exact H3.
      * intro Hz. contradiction.
      * intros _. eexists _, _. split; [reflexivity|].
        intro Hw. congruence.
Qed.

End ServeFacts.

(** ** The SOCKS5 front-end: [NewServer] and [ListenAndServe] *)

Section ListenFacts.
Import Go Acl Prog Socks5Serve.
Context {S : Type} (h : env S).

(** Extra X21.  [NewServer] returns the error of the address resolution, or
    a server listening on the resolved address whose method is
    username/password exactly when an authentication callback is given and
    no-authentication otherwise.  On such a server [negotiate] never
    panics. *)
Theorem new_server_negotiates_safely (addr : string) (authFunc_set : bool)
    (tcpTimeout : Z) (aclEngine : option Engine) (disableUDP : bool) (s : S) :
  let p := NewServer addr authFunc_set tcpTimeout aclEngine disableUDP in
  match run_value h p s with
  | inr e => run_trace h p s = [EvResolveTCPAddr "tcp" addr (inr e)]
  | inl srv =>
      run_trace h p s = [EvResolveTCPAddr "tcp" addr (inl (TCPAddr_of srv))]
      /\ (Socks5.Method (base srv) = Socks5.MethodUsernamePassword <->
          authFunc_set = true)
      /\ (authFunc_set = false ->
          Socks5.Method (base srv) = Socks5.MethodNone)
      /\ Socks5.TCPTimeout (base srv) = tcpTimeout
      /\ Socks5.ACLEngine (base srv) = aclEngine
      /\ forall (S' : Type) (h' : Socks5.env S') (c : Socks5.TCPConn)
                (s' : S'),
          exists o,
            Socks5.run_value h' (Socks5.negotiate (base srv) c) s' =
            Socks5.Returned o
  end.
Proof.
  unfold run_value, run_trace, NewServer.
  cbn [bind trace value do perform].
  destruct (h (ResolveTCPAddr "tcp" addr) s) as [[tAddr|e] s1];
    cbn [bind trace value fst snd log]; [|reflexivity].
  cbn [base TCPAddr_of Socks5.Method Socks5.TCPTimeout Socks5.ACLEngine].
  split; [reflexivity|]. split; [|split; [|split; [|split]]]; auto.
  - destruct authFunc_set; split; auto; discriminate.
  - intros ->. reflexivity.
  - intros S' h' c s'. apply negotiate_returns.
    cbn [Socks5.Method Socks5.AuthFunc_set].
    destruct authFunc_set; auto. discriminate.
Qed.



End ListenFacts.

(** Runs of the SOCKS5 front-end on scripted environments. *)

Lemma other_commands_are_refused_witness :
  exists w,
    Socks5.run_trace (SocksScript.answer SocksScript.smooth)
      (@Socks5.handle GoNet.lib (SocksScript.server x00 None)
         SocksScript.client SocksObs.bind_ip) []
    = [Socks5.EvReply SocksScript.client Socks5.RepCommandNotSupported
         Socks5.ATYPIPv4 [x00; x00; x00; x00] [x00; x00] w]
    /\ Socks5.run_value (SocksScript.answer SocksScript.smooth)
         (@Socks5.handle GoNet.lib (SocksScript.server x00 None)
            SocksScript.client SocksObs.bind_ip) []
       = Socks5.Returned (Some Socks5.ErrUnsupportedCmd).
Proof.
  refine (@other_commands_are_refused GoNet.lib _
            (SocksScript.answer SocksScript.smooth)
            (SocksScript.server x00 None) SocksScript.client
            SocksObs.bind_ip [] _).
  simpl. discriminate.
Defined.

Lemma reported_and_returned_error_witness :
  let h := SocksScript.answer
             (SocksObs.with_tunnel_dial SocksScript.smooth
                (inr "tunnel down")) in
  let p := @Socks5.handleTCP GoNet.lib (SocksScript.server x00 None)
             SocksScript.client SocksScript.connect_domain in
  let tr := Socks5.run_trace h p [] in
  exists e,
    filter Socks5.is_error_hook tr
    = [Socks5.EvTCPErrorFunc "127.0.0.1:5000" "internal.example.com:443" e]
    /\ ((exists de,
            SocksObs.dial_errors tr = [de]
            /\ SocksObs.relay_results tr = []
            /\ e = Some de
            /\ Socks5.run_value h p [] = Socks5.Returned (Some de))
        \/ (SocksObs.dial_errors tr = []
            /\ SocksObs.relay_results tr = [e]
            /\ Socks5.run_value h p [] = Socks5.Returned None)).
Proof.
  refine (@reported_and_returned_error GoNet.lib _
            (SocksScript.answer
               (SocksObs.with_tunnel_dial SocksScript.smooth
                  (inr "tunnel down")))
            (SocksScript.server x00 None) SocksScript.client
            SocksScript.connect_domain []
            "127.0.0.1:5000" "internal.example.com:443" Acl.ActionProxy "" _).
  simpl. auto.
Defined.

Lemma direct_is_local_proxy_is_tunnel_witness :
  exists res,
    filter Socks5.is_dial
      (Socks5.run_trace
         (SocksScript.answer (SocksScript.with_lookup SocksScript.smooth
                                Acl.ActionDirect ""))
         (@Socks5.handleTCP GoNet.lib (SocksScript.server x00 (Some 1%nat))
            SocksScript.client SocksScript.connect_domain) [])
    = [Socks5.EvNetDial "tcp" "internal.example.com:443" res].
Proof.
  refine (proj1 (@direct_is_local_proxy_is_tunnel GoNet.lib _
                   (SocksScript.answer
                      (SocksScript.with_lookup SocksScript.smooth
                         Acl.ActionDirect ""))
                   (SocksScript.server x00 (Some 1%nat)) SocksScript.client
                   SocksScript.connect_domain []
                   "127.0.0.1:5000" "internal.example.com:443"
                   Acl.ActionDirect "" _) eq_refl).
  simpl. auto.
Defined.

Lemma relay_and_dial_failure_paths_witness :
  exists pre d ra w,
    Socks5.run_trace (SocksScript.answer SocksScript.smooth)
      (@Socks5.handleTCP GoNet.lib (SocksScript.server x00 None)
         SocksScript.client SocksScript.connect_domain) []
    = (pre ++ [d;
               Socks5.EvReply SocksScript.client Socks5.RepSuccess
                 Socks5.ATYPIPv4 [x00; x00; x00; x00] [x00; x00] w;
               Socks5.EvPipePair SocksScript.client 9%nat
                 (Socks5.TCPTimeout (SocksScript.server x00 None))
                 (Some "EOF");
               Socks5.EvRcClose 9%nat;
               Socks5.EvTCPErrorFunc "127.0.0.1:5000" ra (Some "EOF")])%list
    /\ SocksObs.dialed [d] = [9%nat].
Proof.
  refine (proj1 (@relay_and_dial_failure_paths GoNet.lib _
                   (SocksScript.answer SocksScript.smooth)
                   (SocksScript.server x00 None) SocksScript.client
                   SocksScript.connect_domain [])
            SocksScript.client 9%nat 0%Z (Some "EOF") _).
  simpl. auto 10.
Defined.

Lemma negotiation_success_means_authenticated_witness :
  let tr := Socks5.run_trace
              (SocksScript.answer
                 (SocksScript.with_methods SocksScript.smooth [x02]))
              (Socks5.negotiate (SocksScript.server x02 None)
                 SocksScript.client) [] in
  exists u pw,
    In (Socks5.EvAuthFunc u pw true) tr
    /\ In (Socks5.EvUserPassNegotiationReply SocksScript.client
             Socks5.UserPassStatusSuccess None) tr.
Proof.
  refine (proj2 (proj1 (negotiation_success_means_authenticated
                          _
                          (SocksScript.answer
                             (SocksScript.with_methods SocksScript.smooth
                                [x02]))
                          (SocksScript.server x02 None) SocksScript.client
                          []) _) _).
  - reflexivity.
  - reflexivity.
Defined.

Lemma credentials_checked_once_witness :
  let tr := Socks5.run_trace
              (SocksScript.answer
                 (SocksObs.with_auth
                    (SocksScript.with_methods SocksScript.smooth [x02])
                    false))
              (Socks5.negotiate (SocksScript.server x02 None)
                 SocksScript.client) [] in
  Socks5.Method (SocksScript.server x02 None) = Socks5.MethodUsernamePassword
  /\ (exists un pwd,
         In (Socks5.EvNewUserPassNegotiationRequestFrom SocksScript.client
               (inl (un, pwd))) tr
         /\ "u" = string_of_list_byte un
         /\ "p" = string_of_list_byte pwd)
  /\ exists w,
      filter SocksObs.is_userpass_reply tr
      = [Socks5.EvUserPassNegotiationReply SocksScript.client
           Socks5.UserPassStatusFailure w].
Proof.
  refine (proj1 (proj2 (@credentials_checked_once _
                          (SocksScript.answer
                             (SocksObs.with_auth
                                (SocksScript.with_methods SocksScript.smooth
                                   [x02]) false))
                          (SocksScript.server x02 None) SocksScript.client
                          []))
            "u" "p" false _).
  simpl. auto.
Defined.

Lemma connection_served_only_after_negotiation_witness :
  let tr := Socks5Serve.run_trace
              (Socks5Serve.answer SocksScript.smooth
                 (inl SocksScript.connect_domain))
              (@Socks5Serve.serveConn GoNet.lib (SocksScript.server x00 None)
                 SocksScript.client) [] in
  In (Socks5Serve.EvHandler
        (Socks5.EvNegotiationReply SocksScript.client
           (Socks5.Method (SocksScript.server x00 None)) None)) tr
  /\ (Socks5.Method (SocksScript.server x00 None)
      = Socks5.MethodUsernamePassword ->
      exists u pw,
        In (Socks5Serve.EvHandler (Socks5.EvAuthFunc u pw true)) tr)
  /\ exists r, In (Socks5Serve.EvNewRequestFrom SocksScript.client (inl r)) tr.
Proof.
  refine (proj1 (proj2 (@connection_served_only_after_negotiation GoNet.lib _
                          (Socks5Serve.answer SocksScript.smooth
                             (inl SocksScript.connect_domain))
                          (SocksScript.server x00 None) SocksScript.client
                          []))
            (Socks5Serve.EvHandler
               (Socks5.EvHyClientDialTCP "internal.example.com:443"
                  (inl 9%nat))) _ _).
  - simpl. auto 10.
  - reflexivity.
Defined.

(** ** The relay: bytes, deadlines, progress *)

Section RelayMoreFacts.
Import Go Relay RelaySpec RelayObs.
Local Open Scope list_scope.
Variable timeout : Z.

(** A property of each direction's events and goroutine that every step of
    the goroutine keeps holds in every state of the relay. *)
Lemma goroutine_invariant (P : dir -> list event -> goroutine -> Prop) :
  (forall d T g, P d T g ->
     P d (T ++ snd (gstep timeout d g)) (fst (gstep timeout d g))) ->
  forall st,
    (forall d, P d (events_of d (events st)) (goroutine_of d st)) ->
    forall sched d,
      P d (events_of d (events (run timeout sched st)))
        (goroutine_of d (run timeout sched st)).
Proof.
  intros Hstep st Hst sched. revert st Hst.
  induction sched as [|t sched IH]; intros st Hst; simpl; [exact Hst|].
  apply IH. intro d. destruct t as [|d0]; simpl.
  - destruct (returned st); [apply Hst|].
    destruct (errChan st); [apply Hst|]. simpl.
    rewrite events_of_app. simpl. rewrite app_nil_r. destruct d; apply Hst.
  - rewrite events_of_app, gstep_events_dir.
    destruct d0, d; simpl; try rewrite app_nil_r;
      try apply Hstep; apply Hst.
Qed.

Lemma bytes_read_app (l1 l2 : list event) :
  bytes_read (l1 ++ l2) = bytes_read l1 ++ bytes_read l2.
Proof. apply flat_map_app. Qed.

Lemma bytes_written_app (l1 l2 : list event) :
  bytes_written (l1 ++ l2) = bytes_written l1 ++ bytes_written l2.
Proof. apply flat_map_app. Qed.

Lemma bytes_inv_step (d : dir) (T : list event) (g : goroutine) :
  bytes_inv d T g ->
  bytes_inv d (T ++ snd (gstep timeout d g)) (fst (gstep timeout d g)).
Proof.
  unfold bytes_inv, gstep. intro H.
  rewrite bytes_read_app, bytes_written_app.
  destruct (g_pc g) as [| |data rerr|rerr|e|] eqn:Hpc; simpl in H.
  - destruct (deadline_before_read timeout d); simpl;
      rewrite H, !app_nil_r; reflexivity.
  - destruct (g_reads g) as [|[data rerr] rest]; simpl.
    + rewrite Hpc. simpl. rewrite H, !app_nil_r. reflexivity.
    + rewrite H, !app_nil_r.
      destruct data as [|b data]; simpl; [|reflexivity].
      destruct rerr; reflexivity.
  - destruct (g_writes g) as [|w rest]; simpl.
    + rewrite Hpc. simpl. rewrite H, !app_nil_r. reflexivity.
    + rewrite H, !app_nil_r. destruct w; simpl; rewrite app_nil_r;
        reflexivity.
  - destruct (deadline_after_write timeout d); simpl;
      rewrite H, !app_nil_r; destruct rerr; simpl;
      rewrite ?app_nil_r; reflexivity.
  - simpl. rewrite H, !app_nil_r. reflexivity.
  - simpl. rewrite Hpc. simpl. rewrite H, !app_nil_r. reflexivity.
Qed.

Lemma source_inv_step (total : dir -> bytes) (d : dir) (T : list event)
    (g : goroutine) :
  source_inv total d T g ->
  source_inv total d (T ++ snd (gstep timeout d g)) (fst (gstep timeout d g)).
Proof.
  unfold source_inv, gstep. intro H. rewrite bytes_read_app.
  destruct (g_pc g) as [| |data rerr|rerr|e|] eqn:Hpc.
  - destruct (deadline_before_read timeout d); simpl;
      rewrite H, !app_nil_r; reflexivity.
  - destruct (g_reads g) as [|[data rerr] rest] eqn:Hr; simpl.
    + rewrite Hr, H, !app_nil_r. reflexivity.
    + simpl in H. rewrite H, !app_nil_r, app_assoc. reflexivity.
  - destruct (g_writes g) as [|w rest]; simpl;
      rewrite H, ?app_nil_r; reflexivity.
  - destruct (deadline_after_write timeout d); simpl;
      rewrite H, !app_nil_r; reflexivity.
  - simpl. rewrite H, !app_nil_r. reflexivity.
  - simpl. rewrite H, !app_nil_r. reflexivity.
Qed.

Lemma no_deadline_step (d : dir) (T : list event) (g : goroutine) :
  timeout = 0%Z ->
  no_deadline d T g ->
  no_deadline d (T ++ snd (gstep timeout d g)) (fst (gstep timeout d g)).
Proof.
  unfold no_deadline, gstep. intros -> H ev Hin.
  apply in_app_or in Hin. destruct Hin as [Hin|Hin]; [auto|].
  destruct (g_pc g) as [| |data rerr|rerr|e|].
  - destruct d; simpl in Hin; destruct Hin.
  - destruct (g_reads g) as [|[data rerr] rest]; simpl in Hin;
      [destruct Hin|]. destruct Hin as [<-|[]]. reflexivity.
  - destruct (g_writes g) as [|w rest]; simpl in Hin; [destruct Hin|].
    destruct Hin as [<-|[]]. reflexivity.
  - destruct d; simpl in Hin; destruct Hin.
  - destruct Hin as [<-|[]]. reflexivity.
  - destruct Hin.
Qed.

Lemma filter_nil_all {A} (f : A -> bool) (l : list A) :
  (forall x, In x l -> f x = false) -> filter f l = [].
Proof.
  induction l as [|a l IH]; intro H; simpl; [reflexivity|].
  rewrite (H a (or_introl eq_refl)). apply IH. intros x Hx. apply H.
  right. exact Hx.
Qed.

Lemma events_by_direction (tr : list event) (ev : event) :
  In ev tr -> is_return ev = false ->
  exists d, In ev (events_of d tr).
Proof.
  intros Hin Hr.
  destruct ev as [d|d data err|d data err|d e|e]; try discriminate;
    exists d; apply filter_In; (split; [exact Hin|]); simpl;
    apply dir_eqb_refl.
Qed.

Lemma reads_guarded_step (T : list event) (g : goroutine) :
  timeout <> 0%Z ->
  reads_guarded TcpToStream T g ->
  reads_guarded TcpToStream (T ++ snd (gstep timeout TcpToStream g))
    (fst (gstep timeout TcpToStream g)).
Proof.
  intros Ht [Hr Hp].
  assert (Hb : deadline_before_read timeout TcpToStream = true).
  { simpl. apply Z.eqb_neq in Ht. rewrite Ht. reflexivity. }
  assert (Hkeep : forall x, is_read x = false ->
            forall pre data err post,
              T ++ [x] = pre ++ EvRead TcpToStream data err :: post ->
              exists pre', pre = pre' ++ [EvSetDeadline TcpToStream]).
  { intros x Hx pre data err post Heq.
    apply snoc_split in Heq. destruct Heq as [(_ & _ & Heq)|(p0 & _ & Heq)].
    - subst x. discriminate.
    - eapply Hr; eauto. }
  unfold gstep, reads_guarded.
  destruct (g_pc g) as [| |data rerr|rerr|e|] eqn:Hpc.
  - rewrite Hb. simpl. split.
    + apply Hkeep. reflexivity.
    + intros _. exists T. reflexivity.
  - destruct (g_reads g) as [|[data rerr] rest]; simpl.
    + rewrite ?app_nil_r, ?Hpc. split; assumption.
    + split.
      * intros pre data' err post Heq.
        apply snoc_split in Heq.
        destruct Heq as [(_ & -> & _)|(p0 & _ & Heq)].
        -- apply Hp. reflexivity.
        -- eapply Hr; eauto.
      * destruct data; [destruct rerr|]; discriminate.
  - destruct (g_writes g) as [|w rest]; simpl.
    + rewrite ?app_nil_r, ?Hpc. split; [assumption|discriminate].
    + split; [apply Hkeep; reflexivity|]. destruct w; discriminate.
  - simpl. rewrite app_nil_r. split; [assumption|].
    destruct rerr; discriminate.
  - simpl. split; [apply Hkeep; reflexivity|discriminate].
  - simpl. rewrite ?app_nil_r, ?Hpc. split; [assumption|discriminate].
Qed.

Lemma writes_followed_step (T : list event) (g : goroutine) :
  timeout <> 0%Z ->
  writes_followed StreamToTcp T g ->
  writes_followed StreamToTcp (T ++ snd (gstep timeout StreamToTcp g))
    (fst (gstep timeout StreamToTcp g)).
Proof.
  intros Ht H.
  assert (Hb : deadline_after_write timeout StreamToTcp = true).
  { simpl. apply Z.eqb_neq in Ht. rewrite Ht. reflexivity. }
  assert (Hnot : forall p, (forall rerr, g_pc g <> AtWritten rerr) ->
            forall x, (forall data, x <> EvWrite StreamToTcp data None) ->
            forall pre data post,
              T ++ [x] = pre ++ EvWrite StreamToTcp data None :: post ->
              (post = [] /\ exists rerr, p = AtWritten rerr)
              \/ (exists post', post = EvSetDeadline StreamToTcp :: post')).
  { intros p Hpc x Hx pre data post Heq.
    apply snoc_split in Heq. destruct Heq as [(_ & _ & Heq)|(p0 & -> & Heq)].
    - exfalso. eapply Hx; eauto.
    - destruct (H _ _ _ Heq) as [(_ & rerr & Hw)|(post' & ->)].
      + exfalso. eapply Hpc; eauto.
      + right. eexists. reflexivity. }
  unfold writes_followed, gstep in *.
  destruct (g_pc g) as [| |data rerr|rerr|e|] eqn:Hpc.
  - simpl. rewrite app_nil_r. intros pre data post Heq.
    destruct (H _ _ _ Heq) as [(_ & rerr & Hw)|Hd]; [congruence|].
    right. exact Hd.
  - destruct (g_reads g) as [|[data rerr] rest]; simpl.
    + rewrite ?app_nil_r, ?Hpc. intros pre data post Heq.
      destruct (H _ _ _ Heq) as [(_ & rerr & Hw)|Hd]; [congruence|].
      right. exact Hd.
    + apply Hnot; [congruence|congruence].
  - destruct (g_writes g) as [|w rest]; simpl.
    + rewrite ?app_nil_r, ?Hpc. intros pre data' post Heq.
      destruct (H _ _ _ Heq) as [(_ & rerr' & Hw)|Hd]; [congruence|].
      right. exact Hd.
    + intros pre data' post Heq. apply snoc_split in Heq.
      destruct Heq as [(-> & _ & Heq)|(p0 & -> & Heq)].
      * injection Heq as _ <-. left. split; [reflexivity|].
        exists rerr. reflexivity.
      * destruct (H _ _ _ Heq) as [(_ & rerr' & Hw)|(post' & ->)];
          [congruence|]. right. eexists. reflexivity.
  - rewrite Hb. simpl. intros pre data post Heq. right.
    apply snoc_split in Heq.
    destruct Heq as [(_ & _ & Heq)|(p0 & -> & Heq)]; [congruence|].
    destruct (H _ _ _ Heq) as [(-> & _)|(post' & ->)].
    + exists []. reflexivity.
    + eexists. reflexivity.
  - simpl. apply Hnot; [congruence|congruence].
  - simpl. rewrite ?app_nil_r, ?Hpc. intros pre data post Heq.
    destruct (H _ _ _ Heq) as [(_ & rerr & Hw)|Hd]; [congruence|].
    right. exact Hd.
Qed.

Lemma error_ends_step (d : dir) (T : list event) (g : goroutine) :
  error_ends d T g ->
  error_ends d (T ++ snd (gstep timeout d g)) (fst (gstep timeout d g)).
Proof.
  unfold error_ends, gstep. intro H.
  assert (Hsnoc : forall x p,
            is_read x = false ->
            (failed x -> stopping p) ->
            (stopping (g_pc g) -> stopping p) ->
            forall pre ev post,
              T ++ [x] = pre ++ ev :: post -> failed ev ->
              stopping p /\ filter is_read post = []).
  { intros x p Hx Hlast Hp pre ev post Heq Hf.
    apply snoc_split in Heq. destruct Heq as [(-> & _ & ->)|(p0 & -> & Heq)].
    - split; [auto|reflexivity].
    - destruct (H _ _ _ Heq Hf) as [Hs Hr]. split; [auto|].
      rewrite filter_app, Hr. simpl. rewrite Hx. reflexivity. }
  destruct (g_pc g) as [| |data rerr|rerr|e|] eqn:Hpc.
  - destruct (deadline_before_read timeout d); cbn [fst snd at_pc g_pc].
    + apply (Hsnoc (EvSetDeadline d) AtRead); simpl; tauto.
    + rewrite app_nil_r. intros pre ev post Heq Hf.
      destruct (H _ _ _ Heq Hf) as [[] _].
  - destruct (g_reads g) as [|[data rerr] rest]; simpl.
    + rewrite app_nil_r, Hpc. exact H.
    + intros pre ev post Heq Hf. apply snoc_split in Heq.
      destruct Heq as [(-> & _ & ->)|(p0 & _ & Heq)].
      * split; [|reflexivity]. simpl in Hf.
        destruct rerr as [e|]; [|destruct Hf].
        destruct data; exact I.
      * destruct (H _ _ _ Heq Hf) as [[] _].
  - destruct (g_writes g) as [|w rest]; cbn [fst snd g_pc].
    + rewrite app_nil_r, Hpc. exact H.
    + apply (Hsnoc (EvWrite d data w)); [reflexivity| |].
      * destruct w; simpl; tauto.
      * destruct w, rerr; simpl; tauto.
  - destruct (deadline_after_write timeout d); cbn [fst snd at_pc g_pc].
    + apply (Hsnoc (EvSetDeadline d)); [reflexivity|simpl; tauto|].
      destruct rerr; simpl; tauto.
    + rewrite app_nil_r. intros pre ev post Heq Hf.
      destruct (H _ _ _ Heq Hf) as [Hs Hr]. split; [|exact Hr].
      destruct rerr; simpl in *; tauto.
  - cbn [fst snd at_pc g_pc]. apply (Hsnoc (EvSend d e) Done); simpl; tauto.
  - simpl. rewrite app_nil_r, Hpc. exact H.
Qed.

Lemma return_inv_run (sched : list thread) (st : state) :
  return_inv st -> return_inv (run timeout sched st).
Proof.
  revert st. induction sched as [|t sched IH]; intros st H; simpl; auto.
  apply IH. unfold return_inv in *. destruct t as [|d]; simpl.
  - destruct (returned st) as [e|] eqn:Hret; [rewrite Hret; exact H|].
    destruct (errChan st) as [|e rest]; simpl; [rewrite Hret; exact H|].
    rewrite filter_app, H. reflexivity.
  - rewrite filter_app.
    assert (Hg : filter is_return (snd (gstep timeout d (goroutine_of d st)))
                 = []).
    { unfold gstep. destruct (g_pc (goroutine_of d st)); simpl;
        [destruct (deadline_before_read timeout d); reflexivity
        |destruct (g_reads (goroutine_of d st)) as [|[? ?] ?]; reflexivity
        |destruct (g_writes (goroutine_of d st)); reflexivity
        |destruct (deadline_after_write timeout d); reflexivity
        |reflexivity|reflexivity]. }
    rewrite Hg, app_nil_r. exact H.
Qed.

Lemma returned_stays (sched : list thread) (st : state) (e : error) :
  returned st = Some e -> returned (run timeout sched st) = Some e.
Proof.
  revert st. induction sched as [|t sched IH]; intros st H; simpl; auto.
  apply IH. destruct t as [|d]; simpl; [rewrite H|]; exact H.
Qed.

Lemma run_app (s1 s2 : list thread) (st : state) :
  run timeout (s1 ++ s2) st = run timeout s2 (run timeout s1 st).
Proof. apply fold_left_app. Qed.

Lemma events_grow (sched : list thread) (st : state) :
  exists more, events (run timeout sched st) = events st ++ more.
Proof.
  revert st. induction sched as [|t sched IH]; intro st; simpl.
  - exists []. rewrite app_nil_r. reflexivity.
  - destruct (IH (step timeout t st)) as [more Hm]. rewrite Hm.
    destruct t as [|d]; simpl.
    + destruct (returned st); [exists more; reflexivity|].
      destruct (errChan st); [exists more; reflexivity|]. simpl.
      rewrite <- app_assoc. eexists. reflexivity.
    + rewrite <- app_assoc. eexists. reflexivity.
Qed.

(** A goroutine running alone. *)
Lemma run_alone (d : dir) (n : nat) (st : state) :
  goroutine_of d (run timeout (repeat (Copy d) n) st)
  = fst (steps timeout d n (goroutine_of d st))
  /\ errChan (run timeout (repeat (Copy d) n) st)
     = errChan st ++ sent (snd (steps timeout d n (goroutine_of d st)))
  /\ returned (run timeout (repeat (Copy d) n) st) = returned st
  /\ events (run timeout (repeat (Copy d) n) st)
     = events st ++ snd (steps timeout d n (goroutine_of d st)).
Proof.
  revert st. induction n as [|n IH]; intro st.
  - simpl. rewrite !app_nil_r. auto.
  - change (run timeout (repeat (Copy d) (S n)) st)
      with (run timeout (repeat (Copy d) n) (step timeout (Copy d) st)).
    destruct (IH (step timeout (Copy d) st)) as (Hg & Hc & Hr & He).
    rewrite Hg, Hc, Hr, He.
    assert (Hd : goroutine_of d (step timeout (Copy d) st)
                 = fst (gstep timeout d (goroutine_of d st))).
    { destruct d; reflexivity. }
    rewrite Hd. cbn [steps fst snd]. unfold step.
    cbn [errChan returned events].
    rewrite sent_app, !app_assoc. auto.
Qed.

Lemma steps_app (d : dir) (n m : nat) (g : goroutine) :
  steps timeout d (n + m) g =
  (fst (steps timeout d m (fst (steps timeout d n g))),
   snd (steps timeout d n g)
   ++ snd (steps timeout d m (fst (steps timeout d n g)))).
Proof.
  revert g. induction n as [|n IH]; intro g; simpl.
  - destruct (steps timeout d m g); reflexivity.
  - rewrite IH. simpl. rewrite app_assoc. reflexivity.
Qed.

(** When the answers of its endpoints make the copy loop end with [e], the
    goroutine reaches its end and has sent [e], and nothing else. *)
Lemma copy_loop_ends (d : dir) (e : error) :
  forall reads writes,
    copy_result reads writes = Some e ->
    exists n,
      g_pc (fst (steps timeout d n
                   {| g_pc := AtTop; g_reads := reads;
                      g_writes := writes |})) = Done
      /\ sent (snd (steps timeout d n
                      {| g_pc := AtTop; g_reads := reads;
                         g_writes := writes |})) = [e].
Proof.
  induction reads as [|[data rerr] rest IH]; intros writes H; simpl in H;
    [discriminate|].
  destruct data as [|b data].
  - destruct rerr as [e'|].
    + injection H as ->. exists 3%nat. simpl.
      destruct (deadline_before_read timeout d); auto.
    + destruct (IH _ H) as (n & Hd & Hs). exists (2 + n)%nat.
      rewrite steps_app. simpl. unfold at_pc. simpl.
      rewrite Hd, !sent_app, Hs.
      destruct (deadline_before_read timeout d); auto.
  - destruct writes as [|[e'|] ws]; [discriminate| |].
    + injection H as ->. exists 4%nat. simpl.
      destruct (deadline_before_read timeout d); auto.
    + destruct rerr as [e'|].
      * injection H as ->. exists 5%nat. simpl.
        destruct (deadline_before_read timeout d),
          (deadline_after_write timeout d); auto.
      * destruct (IH _ H) as (n & Hd & Hs). exists (4 + n)%nat.
        rewrite steps_app. simpl. unfold at_pc. simpl.
        rewrite Hd, !sent_app, Hs.
        destruct (deadline_before_read timeout d),
          (deadline_after_write timeout d); auto.
Qed.

Lemma start_goroutine (d : dir) (w : endpoints) :
  goroutine_of d (start w)
  = {| g_pc := AtTop; g_reads := reads_of d w; g_writes := writes_of d w |}.
Proof. destruct d; reflexivity. Qed.

End RelayMoreFacts.

Section RelayExtras.
Import Go Relay RelaySpec RelayObs.
Local Open Scope list_scope.

(** Extra X23.  In each direction of the relay, under every schedule, the
    bytes read so far are the bytes handed to [Write] so far, in the same
    order, followed by the chunk waiting to be written, if any; and they are
    a prefix of the bytes the source endpoint provides.  So the relay
    neither drops, nor repeats, nor reorders bytes. *)
Theorem relay_preserves_bytes :
  forall (timeout : Z) (w : endpoints) (sched : list thread) (d : dir),
    let st := pipePair timeout w sched in
    let T := events_of d (events st) in
    bytes_read T = bytes_written T ++ pending (g_pc (goroutine_of d st))
    /\ List.concat (map fst (reads_of d w))
       = bytes_read T ++ List.concat (map fst (g_reads (goroutine_of d st))).
Proof.
  intros timeout w sched d. split.
  - apply (goroutine_invariant timeout bytes_inv).
    + apply bytes_inv_step.
    + intro d'. destruct d'; reflexivity.
  - apply (goroutine_invariant timeout
             (source_inv (fun d => List.concat (map fst (reads_of d w))))).
    + apply source_inv_step.
    + intro d'. destruct d'; reflexivity.
Qed.

(** Extra X24.  With a zero timeout the relay never calls [SetDeadline]. *)
Theorem no_deadline_without_timeout :
  forall (w : endpoints) (sched : list thread),
    filter is_deadline (events (pipePair 0 w sched)) = [].
Proof.
  intros w sched. apply filter_nil_all. intros ev Hin.
  destruct (is_return ev) eqn:Hr.
  - destruct ev; try discriminate. reflexivity.
  - destruct (events_by_direction _ _ Hin Hr) as [d Hd].
    revert ev Hd Hin Hr.
    assert (H : no_deadline d (events_of d (events (pipePair 0 w sched)))
                  (goroutine_of d (pipePair 0 w sched))).
    { apply (goroutine_invariant 0 no_deadline).
      - intros d' T g. apply no_deadline_step. reflexivity.
      - intros d' ev' Hin'. destruct d'; destruct Hin'. }
    intros ev Hd _ _. apply (H ev Hd).
Qed.

(** Extra X25.  With a non-zero timeout, every read of the TCP connection
    comes right after a call of [SetDeadline], and every successful write
    to the TCP connection is followed at once by a call of [SetDeadline],
    unless it is the last event of its direction so far. *)
Theorem deadline_around_connection_io :
  forall (timeout : Z) (w : endpoints) (sched : list thread),
    timeout <> 0%Z ->
    let tr := events (pipePair timeout w sched) in
    (forall pre data err post,
        events_of TcpToStream tr = pre ++ EvRead TcpToStream data err :: post ->
        exists pre', pre = pre' ++ [EvSetDeadline TcpToStream])
    /\ (forall pre data post,
          events_of StreamToTcp tr
          = pre ++ EvWrite StreamToTcp data None :: post ->
          post = []
          \/ exists post', post = EvSetDeadline StreamToTcp :: post').
Proof.
  intros timeout w sched Ht tr. split.
  - set (P := fun (d : dir) (T : list event) (g : goroutine) =>
                match d with
                | TcpToStream => reads_guarded d T g
                | StreamToTcp => True
                end).
    assert (Hstep : forall d T g, P d T g ->
              P d (T ++ snd (gstep timeout d g)) (fst (gstep timeout d g))).
    { intros d T g. destruct d; simpl; [|auto].
      apply reads_guarded_step. exact Ht. }
    assert (Hinit : forall d, P d (events_of d (events (start w)))
                                (goroutine_of d (start w))).
    { intro d. destruct d; [|exact I]. split.
      - intros pre data err post Heq. destruct pre; discriminate.
      - discriminate. }
    exact (proj1 (goroutine_invariant timeout P Hstep (start w) Hinit sched
                    TcpToStream)).
  - set (P := fun (d : dir) (T : list event) (g : goroutine) =>
                match d with
                | StreamToTcp => writes_followed d T g
                | TcpToStream => True
                end).
    assert (Hstep : forall d T g, P d T g ->
              P d (T ++ snd (gstep timeout d g)) (fst (gstep timeout d g))).
    { intros d T g. destruct d; simpl; [auto|].
      apply writes_followed_step. exact Ht. }
    assert (Hinit : forall d, P d (events_of d (events (start w)))
                                (goroutine_of d (start w))).
    { intro d. destruct d; [exact I|].
      intros pre data post Heq. destruct pre; discriminate. }
    intros pre data post Heq.
    destruct (goroutine_invariant timeout P Hstep (start w) Hinit sched
                StreamToTcp pre data post Heq) as [[-> _]|Hd];
      [left|right]; auto.
Qed.

Lemma deadline_around_connection_io_witness :
  exists pre', [EvSetDeadline TcpToStream] = pre' ++ [EvSetDeadline TcpToStream].
Proof.
  refine (proj1 (deadline_around_connection_io 30%Z upload
                   (alone TcpToStream 2) _)
            [EvSetDeadline TcpToStream] [x68; x65] None [] _).
  - lia.
  - reflexivity.
Defined.

(** Extra X26.  When the answers of its two endpoints make the copy loop of
    a direction end with an error, running that direction and then the
    caller makes the relay return that error. *)
Theorem relay_returns_when_a_direction_ends :
  forall (timeout : Z) (w : endpoints) (d : dir) (e : error),
    copy_result (reads_of d w) (writes_of d w) = Some e ->
    exists n, returned (pipePair timeout w (alone d n)) = Some e.
Proof.
  intros timeout w d e H.
  destruct (copy_loop_ends timeout d e _ _ H) as (n & _ & Hs).
  exists n. unfold pipePair, alone. rewrite run_app.
  destruct (run_alone timeout d n (start w)) as (_ & Hc & Hr & _).
  rewrite start_goroutine, Hs in Hc. simpl in Hc, Hr. simpl.
  rewrite Hr, Hc. reflexivity.
Qed.

Lemma relay_returns_when_a_direction_ends_witness :
  exists n, returned (pipePair 30 upload (alone TcpToStream n)) = Some "EOF".
Proof.
  apply (relay_returns_when_a_direction_ends 30%Z upload TcpToStream "EOF").
  reflexivity.
Defined.

(** Extra X27.  Under every schedule at most two errors are sent on the
    error channel, the channel never holds more than its capacity of two,
    and the errors sent are exactly the one the caller received, if any,
    followed by the ones still in the channel. *)
Theorem error_channel_never_overflows :
  forall (timeout : Z) (w : endpoints) (sched : list thread),
    let st := pipePair timeout w sched in
    (List.length (sent (events st)) <= 2)%nat
    /\ (List.length (errChan st) <= 2)%nat
    /\ sent (events st) = received st ++ errChan st.
Proof.
  intros timeout w sched st.
  destruct (errChan_within_capacity timeout w sched) as [H1 H2].
  split; [exact H1|]. split; [exact H2|].
  apply (chan_contents_run timeout sched (start w)). reflexivity.
Qed.

(** Extra X28.  Once the relay has returned an error, whatever the copy
    goroutines do afterwards, its result stays that error and it has
    returned exactly once. *)
Theorem relay_result_is_final :
  forall (timeout : Z) (w : endpoints) (sched more : list thread) (e : error),
    returned (pipePair timeout w sched) = Some e ->
    returned (pipePair timeout w (sched ++ more)) = Some e
    /\ filter is_return (events (pipePair timeout w (sched ++ more)))
       = [EvReturn e].
Proof.
  intros timeout w sched more e H.
  assert (Hr : returned (pipePair timeout w (sched ++ more)) = Some e).
  { unfold pipePair. rewrite run_app. apply returned_stays. exact H. }
  split; [exact Hr|].
  assert (Hi : return_inv (pipePair timeout w (sched ++ more))).
  { apply return_inv_run. reflexivity. }
  unfold return_inv in Hi. rewrite Hr in Hi. exact Hi.
Qed.

Lemma relay_result_is_final_witness :
  returned (pipePair 0 client_listens
              (alone StreamToTcp 5 ++ [Copy TcpToStream; Main; Main]))
  = Some "EOF"
  /\ filter is_return
       (events (pipePair 0 client_listens
                  (alone StreamToTcp 5 ++ [Copy TcpToStream; Main; Main])))
     = [EvReturn "EOF"].
Proof.
  apply (relay_result_is_final 0%Z client_listens (alone StreamToTcp 5)
           [Copy TcpToStream; Main; Main] "EOF").
  reflexivity.
Defined.

(** Extra X29.  A direction of the relay stops at its first error: after a
    read or a write that returned an error, that direction never reads
    again. *)
Theorem direction_stops_at_first_error :
  forall (timeout : Z) (w : endpoints) (sched : list thread) (d : dir)
         (pre : list event) (ev : event) (post : list event),
    events_of d (events (pipePair timeout w sched)) = pre ++ ev :: post ->
    failed ev ->
    filter is_read post = [].
Proof.
  intros timeout w sched d pre ev post Heq Hf.
  assert (H : error_ends d (events_of d (events (pipePair timeout w sched)))
                (goroutine_of d (pipePair timeout w sched))).
  { apply (goroutine_invariant timeout error_ends).
    - apply error_ends_step.
    - intros d' pre' ev' post' Heq'. destruct d', pre'; discriminate. }
  exact (proj2 (H pre ev post Heq Hf)).
Qed.

Lemma direction_stops_at_first_error_witness :
  filter is_read
    [EvWrite StreamToTcp [x61; x62; x63] (Some "broken pipe");
     EvSend StreamToTcp "broken pipe"] = [].
Proof.
  refine (direction_stops_at_first_error 0%Z client_gone
            (alone StreamToTcp 4) StreamToTcp []
            (EvRead StreamToTcp [x61; x62; x63] (Some "EOF")) _ _ _).
  - reflexivity.
  - exact I.
Defined.

End RelayExtras.
